(** * Order listing and status updates of the order repository

    A shallow embedding of [OrderRepository] in
    [src/services/shop.services.ts]: the two paginated listing paths
    ([getPaginatedShopOrders], [getPaginatedShopOrdersFromDB]), the cursor
    token they exchange, and the two status mutations ([updateStatus],
    [batchUpdateStatus]).

    The repository code runs on three libraries, which are modelled here as
    far as the code calls them:
    - the JavaScript runtime: [Date] ([toISOString], [new Date(string)]),
      [JSON.stringify] / [JSON.parse] and Node's [Buffer] base64 codec;
    - the Prisma client: [findMany], [update], [updateMany] over the order
      table.

    Strings are kept as the bytes of their UTF-8 form ([string] of the
    standard library) and stand for well-formed text that the database can
    hold (PostgreSQL has no NUL character in text); timestamps are
    milliseconds since the epoch in [Z].

    A query without [orderBy] returns rows in no promised order.  The table
    is kept as the list of rows in the order such a query returns them; the
    statements about updates speak of the rows up to their order. *)

From Stdlib Require Import ZArith List Bool Lia Ascii String DecimalString.
From Stdlib Require Import Sorting.Sorted Sorting.Permutation.
Import ListNotations.

Set Warnings "-register-all".

Local Open Scope string_scope.
Local Open Scope Z_scope.

(** ** Strings *)

Module Str.

(** A byte and its code. *)
Definition code (c : ascii) : Z := Z.of_N (N_of_ascii c).
Definition chr (n : Z) : ascii := ascii_of_N (Z.to_N n).

End Str.

(** ** The runtime's [Date]

    A [Date] holds a time value: an integral number of milliseconds since
    1970-01-01T00:00:00Z of magnitude at most 8.64e15, or NaN (an invalid
    date). *)

Module JsDate.

Inductive Date : Type :=
| ValidDate (t : Z)
| InvalidDate.

Definition msPerDay : Z := 86400000.
Definition maxTime : Z := 8640000000000000.

(** [TimeClip]. *)
Definition TimeClip (t : Z) : Date :=
  if Z.abs t <=? maxTime then ValidDate t else InvalidDate.

(** Day number to proleptic Gregorian (year, month 1..12, day 1..31), and
    back; the day/month/year split of the time value. *)
Definition civil_from_days (z0 : Z) : Z * Z * Z :=
  let z := z0 + 719468 in
  let era := z / 146097 in
  let doe := z mod 146097 in
  let yoe := (doe - doe / 1460 + doe / 36524 - doe / 146096) / 365 in
  let doy := doe - (365 * yoe + yoe / 4 - yoe / 100) in
  let mp := (5 * doy + 2) / 153 in
  let d := doy - (153 * mp + 2) / 5 + 1 in
  let m := if mp <? 10 then mp + 3 else mp - 9 in
  let y := yoe + era * 400 + (if m <=? 2 then 1 else 0) in
  (y, m, d).

Definition days_from_civil (y m d : Z) : Z :=
  let y' := if m <=? 2 then y - 1 else y in
  let era := y' / 400 in
  let yoe := y' mod 400 in
  let doy := (153 * (if 2 <? m then m - 3 else m + 9) + 2) / 5 + d - 1 in
  let doe := yoe * 365 + yoe / 4 - yoe / 100 + doy in
  era * 146097 + doe - 719468.

(** A check of one day of the 400-year era: what [civil_from_days] does
    with it, [days_from_civil] undoes. *)
Definition doe_ok (doe : Z) : bool :=
  let yoe := (doe - doe / 1460 + doe / 36524 - doe / 146096) / 365 in
  let doy := doe - (365 * yoe + yoe / 4 - yoe / 100) in
  let mp := (5 * doy + 2) / 153 in
  let d := doy - (153 * mp + 2) / 5 + 1 in
  let m := if mp <? 10 then mp + 3 else mp - 9 in
  let doy' := (153 * (if 2 <? m then m - 3 else m + 9) + 2) / 5 + d - 1 in
  (0 <=? yoe) && (yoe <=? 399) && (1 <=? m) && (m <=? 12)
  && (1 <=? d) && (d <=? 31)
  && (yoe * 365 + yoe / 4 - yoe / 100 + doy' =? doe).

(** [p] on [fuel] consecutive integers from [i]. *)
Fixpoint all_from (fuel : nat) (i : Z) (p : Z -> bool) : bool :=
  match fuel with
  | O => true
  | S f => p i && all_from f (i + 1) p
  end.

(** Decimal fields of fixed width. *)
Definition digit_of (k : Z) : ascii := Str.chr (48 + k).

Definition digit_val (c : ascii) : option Z :=
  let n := Str.code c in
  if (48 <=? n) && (n <=? 57) then Some (n - 48) else None.

Fixpoint pad (w : nat) (n : Z) : string :=
  match w with
  | O => ""
  | S w' => String (digit_of ((n / 10 ^ Z.of_nat w') mod 10)) (pad w' n)
  end.

Fixpoint read_digits (w : nat) (s : string) (acc : Z) : option (Z * string) :=
  match w with
  | O => Some (acc, s)
  | S w' =>
      match s with
      | String c r =>
          match digit_val c with
          | Some d => read_digits w' r (10 * acc + d)
          | None => None
          end
      | EmptyString => None
      end
  end.

Definition expect (c : ascii) (s : string) : option string :=
  match s with
  | String c' r => if Ascii.eqb c c' then Some r else None
  | EmptyString => None
  end.

(** [Date.prototype.toISOString] of a valid date: [YYYY-MM-DDTHH:mm:ss.sssZ],
    the year widened to a sign and six digits outside 0..9999. *)
Definition year_string (y : Z) : string :=
  if (0 <=? y) && (y <=? 9999) then pad 4 y
  else String (if y <? 0 then "-"%char else "+"%char) (pad 6 (Z.abs y)).

Definition toISOString (t : Z) : string :=
  let day := t / msPerDay in
  let tod := t mod msPerDay in
  let '(y, m, d) := civil_from_days day in
  year_string y ++ "-" ++ pad 2 m ++ "-" ++ pad 2 d ++ "T"
    ++ pad 2 (tod / 3600000) ++ ":" ++ pad 2 ((tod / 60000) mod 60) ++ ":"
    ++ pad 2 ((tod / 1000) mod 60) ++ "." ++ pad 3 (tod mod 1000) ++ "Z".

(** The year of a time value.  [toISOString] writes the years 0 to 9999
    with four digits. *)
Definition year_of (t : Z) : Z :=
  let '(y, _, _) := civil_from_days (t / msPerDay) in y.

Definition four_digit_year (t : Z) : bool :=
  (0 <=? year_of t) && (year_of t <=? 9999).

(** The year of a date-time string: four digits, or a sign and six digits
    (and not minus zero). *)
Definition read_year (s : string) : option (Z * string) :=
  match s with
  | String c r =>
      if Ascii.eqb c "+" then read_digits 6 r 0
      else if Ascii.eqb c "-" then
        match read_digits 6 r 0 with
        | Some (y, r') => if y =? 0 then None else Some (- y, r')
        | None => None
        end
      else read_digits 4 s 0
  | EmptyString => None
  end.

Definition bind {A B : Type} (o : option A) (f : A -> option B) : option B :=
  match o with Some a => f a | None => None end.

Local Notation "'do' x <- o ; k" := (bind o (fun x => k))
  (at level 10, x pattern, o at level 100, k at level 200).

(** The date-time string format in the shape [toISOString] writes it: all
    fields present, UTC designator [Z]. *)
Definition parse_iso (s : string) : option Z :=
  do (y, s) <- read_year s;
  do s <- expect "-" s;
  do (m, s) <- read_digits 2 s 0;
  do s <- expect "-" s;
  do (d, s) <- read_digits 2 s 0;
  do s <- expect "T" s;
  do (h, s) <- read_digits 2 s 0;
  do s <- expect ":" s;
  do (mi, s) <- read_digits 2 s 0;
  do s <- expect ":" s;
  do (sec, s) <- read_digits 2 s 0;
  do s <- expect "." s;
  do (ms, s) <- read_digits 3 s 0;
  do s <- expect "Z" s;
  match s with
  | EmptyString =>
      if (1 <=? m) && (m <=? 12) && (1 <=? d) && (d <=? 31)
         && ((h <=? 23) || ((h =? 24) && (mi =? 0) && (sec =? 0) && (ms =? 0)))
         && (mi <=? 59) && (sec <=? 59)
      then Some (days_from_civil y m d * msPerDay
                 + h * 3600000 + mi * 60000 + sec * 1000 + ms)
      else None
  | _ => None
  end.

(** The other forms of the date-time string format: the date may stop after
    the year or the month, the time after the minutes or the seconds, and the
    time may be followed by [Z] or by an offset [+HH:mm] or [-HH:mm].  A date
    alone is in UTC. *)
Definition parse_date (s : string) : option (Z * Z * Z * string) :=
  do (y, s) <- read_year s;
  match expect "-" s with
  | None => Some (y, 1, 1, s)
  | Some s =>
      do (m, s) <- read_digits 2 s 0;
      match expect "-" s with
      | None => Some (y, m, 1, s)
      | Some s => do (d, s) <- read_digits 2 s 0; Some (y, m, d, s)
      end
  end.

Definition parse_seconds (s : string) : option (Z * Z * string) :=
  match expect ":" s with
  | None => Some (0, 0, s)
  | Some s =>
      do (sec, s) <- read_digits 2 s 0;
      match expect "." s with
      | None => Some (sec, 0, s)
      | Some s => do (ms, s) <- read_digits 3 s 0; Some (sec, ms, s)
      end
  end.

(** The offset from UTC in minutes.  A time without offset is local time,
    which depends on the time zone of the process and is not read here. *)
Definition parse_offset (s : string) : option Z :=
  match s with
  | EmptyString => None
  | String c r =>
      if Ascii.eqb c "Z" then
        match r with EmptyString => Some 0 | _ => None end
      else if Ascii.eqb c "+" || Ascii.eqb c "-" then
        do (h, r) <- read_digits 2 r 0;
        do r <- expect ":" r;
        do (mi, r) <- read_digits 2 r 0;
        match r with
        | EmptyString =>
            if (h <=? 23) && (mi <=? 59)
            then Some ((if Ascii.eqb c "-" then -1 else 1) * (h * 60 + mi))
            else None
        | _ => None
        end
      else None
  end.

Definition parse_date_time (s : string) : option Z :=
  do (y, m, d, s) <- parse_date s;
  if (1 <=? m) && (m <=? 12) && (1 <=? d) && (d <=? 31) then
    let day := days_from_civil y m d * msPerDay in
    match s with
    | EmptyString => Some day
    | String c r =>
        if Ascii.eqb c "T" then
          do (h, r) <- read_digits 2 r 0;
          do r <- expect ":" r;
          do (mi, r) <- read_digits 2 r 0;
          do (sec, ms, r) <- parse_seconds r;
          do off <- parse_offset r;
          if ((h <=? 23) || ((h =? 24) && (mi =? 0) && (sec =? 0) && (ms =? 0)))
             && (mi <=? 59) && (sec <=? 59)
          then Some (day + h * 3600000 + mi * 60000 + sec * 1000 + ms
                     - off * 60000)
          else None
        else None
    end
  else None.

(** [new Date(s)] for a string [s]: the shape that [toISOString] writes,
    then the other forms of the format.  The runtime reads more: the texts
    of [toString] and [toUTCString], notations of its own, and a time
    without offset as local time.  None of these is read here; such a
    string gives an invalid date.  The cursors that the code under study
    issues are written with [toISOString]. *)
Definition Date_of_string (s : string) : Date :=
  match parse_iso s with
  | Some t => TimeClip t
  | None =>
      match parse_date_time s with
      | Some t => TimeClip t
      | None => InvalidDate
      end
  end.

End JsDate.

(** ** Node's [Buffer]: UTF-8 and base64

    [Buffer.from(s)] and [buf.toString("utf-8")] pass between a string and its
    UTF-8 bytes, which is the identity on the representation used here.
    (Decoding replaces ill-formed byte sequences by U+FFFD; such bytes are
    left as they are.) *)

Module Buffer.

Definition b64_char (n : Z) : ascii :=
  if n <? 26 then Str.chr (65 + n)
  else if n <? 52 then Str.chr (71 + n)
  else if n <? 62 then Str.chr (n - 4)
  else if n =? 62 then "+"%char
  else "/"%char.

(** The decoder also takes the URL-safe letters [-] and [_]. *)
Definition b64_val (c : ascii) : option Z :=
  let k := Str.code c in
  if (65 <=? k) && (k <=? 90) then Some (k - 65)
  else if (97 <=? k) && (k <=? 122) then Some (k - 71)
  else if (48 <=? k) && (k <=? 57) then Some (k + 4)
  else if (k =? 43) || (k =? 45) then Some 62
  else if (k =? 47) || (k =? 95) then Some 63
  else None.

(** [buf.toString("base64")]: three bytes to four letters, the tail padded
    with [=]. *)
Fixpoint toString_base64 (bytes : string) : string :=
  match bytes with
  | EmptyString => ""
  | String a EmptyString =>
      let a := Str.code a in
      String (b64_char (a / 4)) (String (b64_char (a mod 4 * 16)) "==")
  | String a (String b EmptyString) =>
      let a := Str.code a in
      let b := Str.code b in
      String (b64_char (a / 4))
        (String (b64_char (a mod 4 * 16 + b / 16))
           (String (b64_char (b mod 16 * 4)) "="))
  | String a (String b (String c rest)) =>
      let a := Str.code a in
      let b := Str.code b in
      let c := Str.code c in
      String (b64_char (a / 4))
        (String (b64_char (a mod 4 * 16 + b / 16))
           (String (b64_char (b mod 16 * 4 + c / 64))
              (String (b64_char (c mod 64)) (toString_base64 rest))))
  end.

(** [Buffer.from(s, "base64")] never fails: letters outside the alphabet are
    passed over, the first [=] ends the input, and a last group of two or
    three letters gives one or two bytes (a single left-over letter gives
    none). *)
Fixpoint sextets (s : string) : list Z :=
  match s with
  | EmptyString => []
  | String c r =>
      if Ascii.eqb c "=" then []
      else match b64_val c with
           | Some v => v :: sextets r
           | None => sextets r
           end
  end.

Fixpoint bytes_of_sextets (l : list Z) : string :=
  match l with
  | v1 :: v2 :: v3 :: v4 :: rest =>
      String (Str.chr (v1 * 4 + v2 / 16))
        (String (Str.chr (v2 mod 16 * 16 + v3 / 4))
           (String (Str.chr (v3 mod 4 * 64 + v4)) (bytes_of_sextets rest)))
  | [v1; v2; v3] =>
      String (Str.chr (v1 * 4 + v2 / 16))
        (String (Str.chr (v2 mod 16 * 16 + v3 / 4)) "")
  | [v1; v2] => String (Str.chr (v1 * 4 + v2 / 16)) ""
  | _ => ""
  end.

Definition from_base64 (s : string) : string := bytes_of_sextets (sextets s).

End Buffer.

(** ** The runtime's [JSON] *)

Module Json.

Inductive value : Type :=
| JNull
| JBool (b : bool)
| JNumber (lexeme : string)
| JString (s : string)
| JArray (elems : list value)
| JObject (members : list (string * value)).

Definition dquote : ascii := "034"%char.
Definition backslash : ascii := "092"%char.
Definition esc (e : ascii) : string := String backslash (String e "").

Definition hex_digit (n : Z) : ascii :=
  if n <? 10 then Str.chr (48 + n) else Str.chr (87 + n).

Definition hex_val (c : ascii) : option Z :=
  let k := Str.code c in
  if (48 <=? k) && (k <=? 57) then Some (k - 48)
  else if (97 <=? k) && (k <=? 102) then Some (k - 87)
  else if (65 <=? k) && (k <=? 70) then Some (k - 55)
  else None.

(** [QuoteJSONString], one character at a time: the quote, the backslash
    and the control characters are escaped, everything else is copied. *)
Definition escape_char (c : ascii) : string :=
  let k := Str.code c in
  if k =? 34 then esc dquote
  else if k =? 92 then esc backslash
  else if k =? 8 then esc "b"
  else if k =? 12 then esc "f"
  else if k =? 10 then esc "n"
  else if k =? 13 then esc "r"
  else if k =? 9 then esc "t"
  else if k <? 32 then
    String backslash (String "u" (String "0" (String "0"
      (String (hex_digit (k / 16)) (String (hex_digit (k mod 16)) "")))))
  else String c "".

Fixpoint escape (s : string) : string :=
  match s with
  | EmptyString => ""
  | String c r => escape_char c ++ escape r
  end.

Definition quote (s : string) : string :=
  String dquote (escape s ++ String dquote "").

Fixpoint join (sep : string) (l : list string) : string :=
  match l with
  | [] => ""
  | [x] => x
  | x :: r => x ++ sep ++ join sep r
  end.

(** [JSON.stringify] of an array of strings (no indentation). *)
Definition stringify_strings (l : list string) : string :=
  "[" ++ join "," (map quote l) ++ "]".

(** The UTF-8 bytes of a code point (a [\u] escape names a UTF-16 code unit;
    a high and a low surrogate in a row name one code point). *)
Definition utf8 (cp : Z) : string :=
  if cp <? 128 then String (Str.chr cp) ""
  else if cp <? 2048 then
    String (Str.chr (192 + cp / 64)) (String (Str.chr (128 + cp mod 64)) "")
  else if cp <? 65536 then
    String (Str.chr (224 + cp / 4096))
      (String (Str.chr (128 + (cp / 64) mod 64))
         (String (Str.chr (128 + cp mod 64)) ""))
  else
    String (Str.chr (240 + cp / 262144))
      (String (Str.chr (128 + (cp / 4096) mod 64))
         (String (Str.chr (128 + (cp / 64) mod 64))
            (String (Str.chr (128 + cp mod 64)) ""))).

Definition hex4 (a b c d : ascii) : option Z :=
  match hex_val a, hex_val b, hex_val c, hex_val d with
  | Some a, Some b, Some c, Some d => Some (((a * 16 + b) * 16 + c) * 16 + d)
  | _, _, _, _ => None
  end.

Definition is_high (u : Z) : bool := (55296 <=? u) && (u <=? 56319).
Definition is_low (u : Z) : bool := (56320 <=? u) && (u <=? 57343).

Definition prepend (p : string) (o : option (string * string)) :
  option (string * string) :=
  match o with
  | Some (s, rest) => Some (p ++ s, rest)
  | None => None
  end.

(** The characters of a string literal after its opening quote, up to and
    including the closing quote: the text they denote and what follows. *)
Fixpoint string_body (s : string) : option (string * string) :=
  match s with
  | EmptyString => None
  | String c r =>
      if Ascii.eqb c dquote then Some ("", r)
      else if Ascii.eqb c backslash then
        match r with
        | String e r1 =>
            if Ascii.eqb e "u" then
              match r1 with
              | String h1 (String h2 (String h3 (String h4 r2))) =>
                  match hex4 h1 h2 h3 h4 with
                  | Some u =>
                      if is_high u then
                        match r2 with
                        | String b1 (String b2
                            (String l1 (String l2 (String l3 (String l4 r3))))) =>
                            match hex4 l1 l2 l3 l4 with
                            | Some v =>
                                if Ascii.eqb b1 backslash && Ascii.eqb b2 "u"
                                   && is_low v
                                then
                                  prepend
                                    (utf8 (65536 + (u - 55296) * 1024 + (v - 56320)))
                                    (string_body r3)
                                else prepend (utf8 u) (string_body r2)
                            | None => prepend (utf8 u) (string_body r2)
                            end
                        | _ => prepend (utf8 u) (string_body r2)
                        end
                      else prepend (utf8 u) (string_body r2)
                  | None => None
                  end
              | _ => None
              end
            else if Ascii.eqb e dquote then prepend (String dquote "") (string_body r1)
            else if Ascii.eqb e backslash then
              prepend (String backslash "") (string_body r1)
            else if Ascii.eqb e "/" then prepend "/" (string_body r1)
            else if Ascii.eqb e "b" then prepend (String (Str.chr 8) "") (string_body r1)
            else if Ascii.eqb e "f" then prepend (String (Str.chr 12) "") (string_body r1)
            else if Ascii.eqb e "n" then prepend (String (Str.chr 10) "") (string_body r1)
            else if Ascii.eqb e "r" then prepend (String (Str.chr 13) "") (string_body r1)
            else if Ascii.eqb e "t" then prepend (String (Str.chr 9) "") (string_body r1)
            else None
        | EmptyString => None
        end
      else if Str.code c <? 32 then None
      else prepend (String c "") (string_body r)
  end.

Definition is_ws (c : ascii) : bool :=
  let k := Str.code c in (k =? 32) || (k =? 9) || (k =? 10) || (k =? 13).

Fixpoint skip_ws (s : string) : string :=
  match s with
  | String c r => if is_ws c then skip_ws r else s
  | EmptyString => ""
  end.

Definition is_digit (c : ascii) : bool :=
  let k := Str.code c in (48 <=? k) && (k <=? 57).

(** The longest run of digits at the head of [s], and what follows. *)
Fixpoint digits (s : string) : string * string :=
  match s with
  | String c r =>
      if is_digit c then let '(ds, r') := digits r in (String c ds, r')
      else ("", s)
  | EmptyString => ("", "")
  end.

Definition digits1 (s : string) : option (string * string) :=
  match digits s with
  | (EmptyString, _) => None
  | (ds, r) => Some (ds, r)
  end.

(** A number: its lexeme and what follows. *)
Definition number (s : string) : option (string * string) :=
  let '(sign, s) :=
    match s with
    | String c r => if Ascii.eqb c "-" then ("-", r) else ("", s)
    | EmptyString => ("", s)
    end in
  match s with
  | String c r =>
      let int_part :=
        if Ascii.eqb c "0" then Some ("0", r)
        else if is_digit c then let '(ds, r') := digits r in Some (String c ds, r')
        else None in
      match int_part with
      | None => None
      | Some (ip, s) =>
          let frac :=
            match s with
            | String "."%char r =>
                match digits1 r with
                | Some (ds, r') => Some (String "." ds, r')
                | None => None
                end
            | _ => Some ("", s)
            end in
          match frac with
          | None => None
          | Some (fp, s) =>
              let expo :=
                match s with
                | String e r =>
                    if Ascii.eqb e "e" || Ascii.eqb e "E" then
                      let '(sg, r) :=
                        match r with
                        | String g r' =>
                            if Ascii.eqb g "+" || Ascii.eqb g "-"
                            then (String g "", r') else ("", r)
                        | EmptyString => ("", r)
                        end in
                      match digits1 r with
                      | Some (ds, r') => Some (String e (sg ++ ds), r')
                      | None => None
                      end
                    else Some ("", s)
                | EmptyString => Some ("", s)
                end in
              match expo with
              | None => None
              | Some (ep, s) => Some (sign ++ ip ++ fp ++ ep, s)
              end
          end
      end
  | EmptyString => None
  end.

Fixpoint strip_prefix (p s : string) : option string :=
  match p, s with
  | EmptyString, _ => Some s
  | String a p', String b s' => if Ascii.eqb a b then strip_prefix p' s' else None
  | String _ _, EmptyString => None
  end.

(** A value with the white space before it; the elements of an array after
    its opening bracket, the members of an object after its opening brace.
    Every call consumes [fuel]. *)
Fixpoint parse_value (fuel : nat) (s : string) : option (value * string) :=
  match fuel with
  | O => None
  | S fuel =>
      match skip_ws s with
      | EmptyString => None
      | String c r =>
          if Ascii.eqb c dquote then
            match string_body r with
            | Some (t, r') => Some (JString t, r')
            | None => None
            end
          else if Ascii.eqb c "[" then
            match skip_ws r with
            | String d r' =>
                if Ascii.eqb d "]" then Some (JArray [], r')
                else parse_elements fuel r []
            | EmptyString => None
            end
          else if Ascii.eqb c "{" then
            match skip_ws r with
            | String d r' =>
                if Ascii.eqb d "}" then Some (JObject [], r')
                else parse_members fuel r []
            | EmptyString => None
            end
          else if Ascii.eqb c "t" then
            option_map (pair (JBool true)) (strip_prefix "rue" r)
          else if Ascii.eqb c "f" then
            option_map (pair (JBool false)) (strip_prefix "alse" r)
          else if Ascii.eqb c "n" then
            option_map (pair JNull) (strip_prefix "ull" r)
          else
            match number (String c r) with
            | Some (lexeme, r') => Some (JNumber lexeme, r')
            | None => None
            end
      end
  end
with parse_elements (fuel : nat) (s : string) (acc : list value) :
  option (value * string) :=
  match fuel with
  | O => None
  | S fuel =>
      match parse_value fuel s with
      | None => None
      | Some (v, r) =>
          match skip_ws r with
          | String c r' =>
              if Ascii.eqb c "," then parse_elements fuel r' (v :: acc)
              else if Ascii.eqb c "]" then Some (JArray (rev (v :: acc)), r')
              else None
          | EmptyString => None
          end
      end
  end
with parse_members (fuel : nat) (s : string) (acc : list (string * value)) :
  option (value * string) :=
  match fuel with
  | O => None
  | S fuel =>
      match skip_ws s with
      | String q r =>
          if Ascii.eqb q dquote then
            match string_body r with
            | None => None
            | Some (k, r) =>
                match skip_ws r with
                | String d r =>
                    if Ascii.eqb d ":" then
                      match parse_value fuel r with
                      | None => None
                      | Some (v, r) =>
                          match skip_ws r with
                          | String c r' =>
                              if Ascii.eqb c "," then
                                parse_members fuel r' ((k, v) :: acc)
                              else if Ascii.eqb c "}" then
                                Some (JObject (rev ((k, v) :: acc)), r')
                              else None
                          | EmptyString => None
                          end
                      end
                    else None
                | EmptyString => None
                end
            end
          else None
      | EmptyString => None
      end
  end.

(** [JSON.parse]: one value and nothing after it; [None] is the
    [SyntaxError].  The fuel is more than any chain of calls uses on [s]
    ([JsonFacts.parse_fuel_enough]). *)
Definition parse (s : string) : option value :=
  match parse_value (2 * String.length s + 2) s with
  | Some (v, r) =>
      match skip_ws r with
      | EmptyString => Some v
      | _ => None
      end
  | None => None
  end.

(** The result of a call does not depend on the fuel, once there is
    enough of it: two units for each character the call reads. *)
Definition value_stable (f : nat) : Prop :=
  forall s v r, parse_value f s = Some (v, r) ->
    (String.length r < String.length s)%nat
    /\ forall g, (2 * (String.length s - String.length r) <= g)%nat ->
         parse_value g s = Some (v, r).

Definition elements_stable (f : nat) : Prop :=
  forall s acc v r, parse_elements f s acc = Some (v, r) ->
    (String.length r < String.length s)%nat
    /\ forall g, (2 * (String.length s - String.length r) <= g)%nat ->
         parse_elements g s acc = Some (v, r).

Definition members_stable (f : nat) : Prop :=
  forall s acc v r, parse_members f s acc = Some (v, r) ->
    (String.length r < String.length s)%nat
    /\ forall g, (2 * (String.length s - String.length r) <= g)%nat ->
         parse_members g s acc = Some (v, r).

End Json.

(** ** Results of calls that may throw *)

Inductive Error : Type :=
| TypeError                   (* a property read on [undefined] *)
| PrismaValidationError       (* the client refuses the query arguments *)
| PrismaUnknownRequestError   (* the query engine cannot read the request *)
| RecordNotFound.             (* [update] on an id that has no row *)

Inductive Result (A : Type) : Type :=
| Ok (a : A)
| Err (e : Error).

Arguments Ok {A} a.
Arguments Err {A} e.

(** JavaScript's truthiness of an optional string: absent and empty are
    false. *)
Definition truthy (s : option string) : bool :=
  match s with
  | Some (String _ _) => true
  | _ => false
  end.

(** ** The Prisma client over the order table *)

Module Prisma.

Import JsDate.

(** Modelled from the spec: the [OrderStatus] enum is declared in the Prisma
    schema, which is not among the sources ("order_status (enumerated,
    finite set)").  The three members the order components name are kept;
    [STATUS name] stands for the other members. *)
Inductive OrderStatus : Type :=
| COMPLETED
| OUT_FOR_DELIVERY
| CANCELLED
| STATUS (name : string).

Definition OrderStatus_eqb (a b : OrderStatus) : bool :=
  match a, b with
  | COMPLETED, COMPLETED => true
  | OUT_FOR_DELIVERY, OUT_FOR_DELIVERY => true
  | CANCELLED, CANCELLED => true
  | STATUS x, STATUS y => String.eqb x y
  | _, _ => false
  end.

(** A row of the order table.  Timestamps are the time values of valid
    dates; [total_price] is in minor units.  The rows that [include] attaches
    (items, user, shop) do not bear on which orders a query returns, and are
    left out. *)
Record Order : Type := {
  id : string;
  display_id : string;
  shop_id : string;
  user_id : string;
  order_status : OrderStatus;
  payment_status : string;
  payment_method : string;
  total_price : Z;
  created_at : Z;
  updated_at : Z;
  assigned_to : option string;
  actual_delivery_time : option Z;
  delivery_address_snapshot : string
}.

Record User : Type := {
  u_id : string;
  u_email : string
}.

(** The database: rows in the order the engine returns them when no
    ordering tells two rows apart. *)
Record Db : Type := {
  order_table : list Order;
  user_table : list User
}.

(** *** Filters *)

(** What the code puts under [id: { lt: ... }]: a string, [undefined] (the
    client drops the operator), or a value of another type (refused). *)
Inductive Operand : Type :=
| OpString (s : string)
| OpUndefined
| OpOther.

Inductive IdFilter : Type :=
| IdLt (v : Operand)         (* { lt: v } *)
| IdIn (ids : list string).  (* { in: ids } *)

(** [{ gte, lte, lt, equals }], each operator optional. *)
Record DateTimeFilter : Type := {
  gte : option Date;
  lte : option Date;
  lt : option Date;
  equals : option Date
}.

(** A [where] object: a key that is [None] is absent.  The three text keys
    hold the operand of [{ contains: s, mode: "insensitive" }]; [w_user_email]
    is [user: { email: ... }]. *)
Inductive WhereInput : Type := MkWhere {
  w_shop_id : option string;
  w_order_status : option OrderStatus;
  w_created_at : option DateTimeFilter;
  w_id : option IdFilter;
  w_display_id : option string;
  w_delivery_address_snapshot : option string;
  w_user_email : option string;
  w_OR : option (list WhereInput);
  w_AND : option (list WhereInput)
}.

(** [{}] *)
Definition empty_where : WhereInput :=
  MkWhere None None None None None None None None None.

Definition or_else {A : Type} (b a : option A) : option A :=
  match b with
  | Some _ => b
  | None => a
  end.

(** [{ ...a, ...b }]: a key of [b] replaces the same key of [a]. *)
Definition spread (a b : WhereInput) : WhereInput :=
  MkWhere
    (or_else (w_shop_id b) (w_shop_id a))
    (or_else (w_order_status b) (w_order_status a))
    (or_else (w_created_at b) (w_created_at a))
    (or_else (w_id b) (w_id a))
    (or_else (w_display_id b) (w_display_id a))
    (or_else (w_delivery_address_snapshot b) (w_delivery_address_snapshot a))
    (or_else (w_user_email b) (w_user_email a))
    (or_else (w_OR b) (w_OR a))
    (or_else (w_AND b) (w_AND a)).

(** [{ contains: s, mode: "insensitive" }] reaches PostgreSQL as
    [column ILIKE '%s%'], the operand written between the two [%] as it is.
    So [%] in the operand stands for any run of characters, [_] for any one
    character, and a backslash takes the character after it literally (the
    closing [%] when it comes last).

    [ILIKE] compares without regard to case.  How letters outside ASCII
    are folded is a matter of the collation of the database; only the
    letters A to Z are folded here, and the statements that rest on the text
    match are made for ASCII text. *)
Definition lower (c : ascii) : ascii :=
  let k := Str.code c in
  if (65 <=? k) && (k <=? 90) then Str.chr (k + 32) else c.

Fixpoint to_lower (s : string) : string :=
  match s with
  | EmptyString => ""
  | String c r => String (lower c) (to_lower r)
  end.

(** The bytes of a character after its first one. *)
Definition continuation (c : ascii) : bool :=
  (128 <=? Str.code c) && (Str.code c <=? 191).

Fixpoint drop_continuation (s : string) : string :=
  match s with
  | EmptyString => ""
  | String c r => if continuation c then drop_continuation r else s
  end.

(** Is [s] at the start of a character (or at the end of the text)? *)
Definition at_boundary (s : string) : bool :=
  match s with
  | EmptyString => true
  | String c _ => negb (continuation c)
  end.

Definition percent : ascii := "037"%char.
Definition underscore : ascii := "095"%char.
Definition escape : ascii := "092"%char.

(** [text LIKE pattern].  A pattern that ends in a lone backslash is an
    error in the engine; no pattern of the form [%s%] does. *)
Fixpoint like (pattern text : string) {struct pattern} : bool :=
  match pattern with
  | EmptyString =>
      match text with
      | EmptyString => true
      | _ => false
      end
  | String p rest =>
      if Ascii.eqb p percent then
        (fix any_run (text : string) : bool :=
           (at_boundary text && like rest text)
           || match text with
              | EmptyString => false
              | String _ r => any_run r
              end) text
      else if Ascii.eqb p underscore then
        match text with
        | EmptyString => false
        | String _ r => like rest (drop_continuation r)
        end
      else if Ascii.eqb p escape then
        match rest with
        | EmptyString => false
        | String q rest' =>
            match text with
            | EmptyString => false
            | String c r => Ascii.eqb q c && like rest' r
            end
        end
      else
        match text with
        | EmptyString => false
        | String c r => Ascii.eqb p c && like rest r
        end
  end.

Definition ilike (pattern text : string) : bool :=
  like (to_lower pattern) (to_lower text).

Definition contains_insensitive (needle hay : string) : bool :=
  ilike (String percent (needle ++ String percent "")) hay.

(** Text of ASCII characters only. *)
Fixpoint ascii_text (s : string) : bool :=
  match s with
  | EmptyString => true
  | String c r => (Str.code c <? 128) && ascii_text r
  end.

(** Text without the characters that a pattern reads as more than
    themselves, and plain containment. *)
Definition plain_char (c : ascii) : bool :=
  negb (Ascii.eqb c percent || Ascii.eqb c underscore || Ascii.eqb c escape).

Fixpoint plain_text (s : string) : bool :=
  match s with
  | EmptyString => true
  | String c r => plain_char c && plain_text r
  end.

Fixpoint is_substring (needle hay : string) : bool :=
  String.prefix needle hay
  || match hay with
     | EmptyString => false
     | String _ r => is_substring needle r
     end.

Definition date_ok (d : option Date) : bool :=
  match d with
  | Some InvalidDate => false
  | _ => true
  end.

Definition date_test (cmp : Z -> Z -> bool) (t : Z) (d : option Date) : bool :=
  match d with
  | Some (ValidDate u) => cmp t u
  | _ => true
  end.

Definition matches_created_at (f : DateTimeFilter) (t : Z) : bool :=
  date_test Z.geb t (gte f) && date_test Z.leb t (lte f)
  && date_test Z.ltb t (lt f) && date_test Z.eqb t (equals f).

(** A [Date] travels to the query engine as its [toISOString] text, and the
    engine reads a date-time with a year of four digits only. *)
Definition date_sent (d : option Date) : bool :=
  match d with
  | Some (ValidDate t) => four_digit_year t
  | _ => true
  end.

(** Text columns compare byte by byte. *)
Definition matches_id (f : IdFilter) (i : string) : bool :=
  match f with
  | IdLt (OpString s) => String.ltb i s
  | IdLt _ => true
  | IdIn ids => existsb (String.eqb i) ids
  end.

Definition opt_test {A : Type} (o : option A) (p : A -> bool) : bool :=
  match o with
  | Some a => p a
  | None => true
  end.

Definition email_of (db : Db) (o : Order) : option string :=
  option_map u_email
    (find (fun u => String.eqb (u_id u) (user_id o)) (user_table db)).

(** Does the row satisfy the filter?  The keys of one object are conjoined;
    [OR] wants one of its members to hold (none does when it is empty),
    [AND] all of them. *)
Fixpoint matches (db : Db) (w : WhereInput) (o : Order) {struct w} : bool :=
  match w with
  | MkWhere shop status created i disp addr email ors ands =>
      opt_test shop (String.eqb (shop_id o))
      && opt_test status (OrderStatus_eqb (order_status o))
      && opt_test created (fun f => matches_created_at f (created_at o))
      && opt_test i (fun f => matches_id f (id o))
      && opt_test disp (fun s => contains_insensitive s (display_id o))
      && opt_test addr (fun s => contains_insensitive s (delivery_address_snapshot o))
      && opt_test email (fun s =>
           match email_of db o with
           | Some e => contains_insensitive s e
           | None => false
           end)
      && match ors with
         | None => true
         | Some l =>
             (fix any (l : list WhereInput) : bool :=
                match l with
                | [] => false
                | x :: r => matches db x o || any r
                end) l
         end
      && match ands with
         | None => true
         | Some l =>
             (fix all (l : list WhereInput) : bool :=
                match l with
                | [] => true
                | x :: r => matches db x o && all r
                end) l
         end
  end.

(** The client checks the arguments before it queries: an invalid [Date]
    or an operand of the wrong type is refused. *)
Fixpoint valid_where (w : WhereInput) {struct w} : bool :=
  match w with
  | MkWhere _ _ created i _ _ _ ors ands =>
      opt_test created (fun f =>
        date_ok (gte f) && date_ok (lte f) && date_ok (lt f) && date_ok (equals f))
      && match i with
         | Some (IdLt OpOther) => false
         | _ => true
         end
      && match ors with
         | None => true
         | Some l =>
             (fix all (l : list WhereInput) : bool :=
                match l with
                | [] => true
                | x :: r => valid_where x && all r
                end) l
         end
      && match ands with
         | None => true
         | Some l =>
             (fix all (l : list WhereInput) : bool :=
                match l with
                | [] => true
                | x :: r => valid_where x && all r
                end) l
         end
  end.

(** The engine then reads the request, and fails on a date it cannot
    read. *)
Fixpoint readable_where (w : WhereInput) {struct w} : bool :=
  match w with
  | MkWhere _ _ created _ _ _ _ ors ands =>
      opt_test created (fun f =>
        date_sent (gte f) && date_sent (lte f) && date_sent (lt f)
        && date_sent (equals f))
      && match ors with
         | None => true
         | Some l =>
             (fix all (l : list WhereInput) : bool :=
                match l with
                | [] => true
                | x :: r => readable_where x && all r
                end) l
         end
      && match ands with
         | None => true
         | Some l =>
             (fix all (l : list WhereInput) : bool :=
                match l with
                | [] => true
                | x :: r => readable_where x && all r
                end) l
         end
  end.

(** What a call throws before any row is touched, given the outcome of the
    two checks. *)
Definition refusal_of (valid readable : bool) : option Error :=
  if valid then
    if readable then None else Some PrismaUnknownRequestError
  else Some PrismaValidationError.

Definition refusal (w : WhereInput) : option Error :=
  refusal_of (valid_where w) (readable_where w).

(** The filters that pass both checks. *)
Definition accepted (w : WhereInput) : bool :=
  valid_where w && readable_where w.

(** *** Ordering *)

Inductive OrderField : Type := By_created_at | By_id.
Inductive SortOrder : Type := asc | desc.

Definition field_compare (f : OrderField) (a b : Order) : comparison :=
  match f with
  | By_created_at => Z.compare (created_at a) (created_at b)
  | By_id => String.compare (id a) (id b)
  end.

(** [precedes ob a b]: the ordering [ob] puts [a] strictly before [b]. *)
Fixpoint precedes (ob : list (OrderField * SortOrder)) (a b : Order) : bool :=
  match ob with
  | [] => false
  | (f, dir) :: rest =>
      match field_compare f a b, dir with
      | Eq, _ => precedes rest a b
      | Lt, asc | Gt, desc => true
      | Lt, desc | Gt, asc => false
      end
  end.

(** A stable sort: rows the ordering does not tell apart stay in table
    order. *)
Fixpoint insert (ob : list (OrderField * SortOrder)) (x : Order) (l : list Order)
  : list Order :=
  match l with
  | [] => [x]
  | y :: r => if precedes ob y x then y :: insert ob x r else x :: y :: r
  end.

Definition sort (ob : list (OrderField * SortOrder)) (l : list Order) : list Order :=
  fold_right (insert ob) [] l.

(** Newest first, with ties. *)
Definition newer_first (a b : Order) : Prop := created_at b <= created_at a.

(** *** [findMany] *)

Record FindManyArgs : Type := {
  take : nat;
  where_ : WhereInput;
  orderBy : list (OrderField * SortOrder);
  cursor : option string;     (* cursor: { id } *)
  skip : nat
}.

(** The rows from the cursor row on (that row included); none when no row
    has that id. *)
Fixpoint from_cursor (c : string) (rows : list Order) : list Order :=
  match rows with
  | [] => []
  | o :: r => if String.eqb (id o) c then rows else from_cursor c r
  end.

Definition findMany (db : Db) (args : FindManyArgs) : Result (list Order) :=
  match refusal (where_ args) with
  | Some e => Err e
  | None =>
      let rows :=
        sort (orderBy args) (filter (matches db (where_ args)) (order_table db)) in
      let rows :=
        match cursor args with
        | Some c => from_cursor c rows
        | None => rows
        end in
      Ok (firstn (take args) (skipn (skip args) rows))
  end.

(** *** [update] and [updateMany]

    [data] of an update: a key that is [None] is [undefined], which leaves
    the column as it is. *)
Record OrderUpdate : Type := {
  set_order_status : option OrderStatus;
  set_assigned_to : option string;
  set_actual_delivery_time : option Date
}.

(** The checks of the client and of the engine on [data]. *)
Definition valid_data (d : OrderUpdate) : bool :=
  date_ok (set_actual_delivery_time d).

Definition readable_data (d : OrderUpdate) : bool :=
  date_sent (set_actual_delivery_time d).

(** The row after the write: the columns named in [data] are written, the
    others kept.  (Whether the schema has the client refresh a column such
    as [updated_at] on every write is not known, the schema not being among
    the sources; the column is kept here.) *)
Definition apply_update (d : OrderUpdate) (o : Order) : Order :=
  {| id := id o;
     display_id := display_id o;
     shop_id := shop_id o;
     user_id := user_id o;
     order_status :=
       match set_order_status d with Some s => s | None => order_status o end;
     payment_status := payment_status o;
     payment_method := payment_method o;
     total_price := total_price o;
     created_at := created_at o;
     updated_at := updated_at o;
     assigned_to :=
       match set_assigned_to d with Some a => Some a | None => assigned_to o end;
     actual_delivery_time :=
       match set_actual_delivery_time d with
       | Some (ValidDate t) => Some t
       | _ => actual_delivery_time o
       end;
     delivery_address_snapshot := delivery_address_snapshot o |}.

Definition with_orders (db : Db) (l : list Order) : Db :=
  {| order_table := l; user_table := user_table db |}.

(** The table after the rows that pass [p] have been written: PostgreSQL
    writes the new version of a row behind the rows of the table, so a query
    without ordering returns the rows left alone first and the rewritten
    rows after them. *)
Definition rewrite_rows (p : Order -> bool) (d : OrderUpdate) (rows : list Order)
  : list Order :=
  filter (fun x => negb (p x)) rows ++ map (apply_update d) (filter p rows).

Definition has_id (i : string) (o : Order) : bool := String.eqb (id o) i.

(** [update({ where: { id }, data })]: the row with that id, updated; it
    throws when there is none. *)
Definition update (db : Db) (i : string) (d : OrderUpdate) : Db * Result Order :=
  match refusal_of (valid_data d) (readable_data d) with
  | Some e => (db, Err e)
  | None =>
      match find (has_id i) (order_table db) with
      | None => (db, Err RecordNotFound)
      | Some o =>
          (with_orders db (rewrite_rows (has_id i) d (order_table db)),
           Ok (apply_update d o))
      end
  end.

(** [updateMany({ where, data })]: every matching row is written; the count
    is the number of rows matched. *)
Definition updateMany (db : Db) (w : WhereInput) (d : OrderUpdate) : Db * Result Z :=
  match refusal_of (valid_where w && valid_data d)
          (readable_where w && readable_data d) with
  | Some e => (db, Err e)
  | None =>
      (with_orders db (rewrite_rows (matches db w) d (order_table db)),
       Ok (Z.of_nat (List.length (filter (matches db w) (order_table db)))))
  end.

End Prisma.

(** ** The order repository ([OrderRepository] in [shop.services.ts]) *)

Module OrderRepository.

Import JsDate Prisma.

Record GetPaginatedOrdersOptions : Type := {
  opt_shop_id : string;
  opt_limit : option nat;                (* limit?: number, a page size *)
  opt_cursor : option string;
  opt_searchTerm : option string;
  opt_orderStatus : option OrderStatus;
  opt_dateRange : option (Date * Date)   (* { from, to } *)
}.

(** [{ orders, nextCursor }] *)
Record Page : Type := {
  orders : list Order;
  nextCursor : option string
}.

(** [limit = 10] *)
Definition limit_of (o : GetPaginatedOrdersOptions) : nat :=
  match opt_limit o with
  | Some n => n
  | None => 10%nat
  end.

(** A page size small enough for [take: limit + 1] to be an integer of 32
    bits.  (The client refuses a [take] beyond its integers.) *)
Definition take_fits (o : GetPaginatedOrdersOptions) : bool :=
  Z.of_nat (limit_of o) + 1 <? 2 ^ 31.

Definition contains_display_id (s : string) : WhereInput :=
  MkWhere None None None None (Some s) None None None None.
Definition contains_address (s : string) : WhereInput :=
  MkWhere None None None None None (Some s) None None None.
Definition contains_user_email (s : string) : WhereInput :=
  MkWhere None None None None None None (Some s) None None.

(** The [where] object both listing paths build: the shop, then
    [order_status], [created_at: { gte: from, lte: to }] and the three-way
    [OR] of the search term, each only [if] its option is truthy. *)
Definition build_where (shop : string) (orderStatus : option OrderStatus)
  (dateRange : option (Date * Date)) (searchTerm : option string) : WhereInput :=
  MkWhere (Some shop) orderStatus
    (match dateRange with
     | Some (from, to) =>
         Some {| gte := Some from; lte := Some to; lt := None; equals := None |}
     | None => None
     end)
    None None None None
    (match searchTerm with
     | Some (String c r) =>
         let s := String c r in
         Some [contains_display_id s; contains_address s; contains_user_email s]
     | _ => None
     end)
    None.

(** Both ends of the date range, if there is one, are valid dates. *)
Definition valid_dates (r : option (Date * Date)) : bool :=
  match r with
  | Some (InvalidDate, _) | Some (_, InvalidDate) => false
  | _ => true
  end.

(** Both ends of the date range, if there is one, are dates that the client
    and the engine take: valid, and of a year from 0 to 9999. *)
Definition accepted_dates (r : option (Date * Date)) : bool :=
  match r with
  | Some (ValidDate from, ValidDate to) => four_digit_year from && four_digit_year to
  | Some _ => false
  | None => true
  end.

(** The token of a position:
    [Buffer.from(JSON.stringify([created_at.toISOString(), id])).toString("base64")] *)
Definition encodeCursor (created : Z) (i : string) : string :=
  Buffer.toString_base64 (Json.stringify_strings [toISOString created; i]).

(** [v[i]] for a parsed value that is not [null]; [None] is [undefined].
    (A string is indexed by its bytes.) *)
Definition property (v : Json.value) (i : nat) : option Json.value :=
  match v with
  | Json.JArray l => nth_error l i
  | Json.JObject m =>
      let key := NilEmpty.string_of_uint (Nat.to_uint i) in
      option_map snd (find (fun kv => String.eqb (fst kv) key) (rev m))
  | Json.JString s =>
      option_map (fun c => Json.JString (String c "")) (String.get i s)
  | _ => None
  end.

(** The number that a lexeme of JSON denotes, as [digits * 10 ^ exponent]
    with a sign. *)
Fixpoint digits_prefix (s : string) (acc n : Z) : Z * Z * string :=
  match s with
  | EmptyString => (acc, n, s)
  | String c r =>
      match digit_val c with
      | Some d => digits_prefix r (10 * acc + d) (n + 1)
      | None => (acc, n, s)
      end
  end.

Definition signed (s : string) : bool * string :=
  match s with
  | String c r =>
      if Ascii.eqb c "-" then (true, r)
      else if Ascii.eqb c "+" then (false, r)
      else (false, s)
  | EmptyString => (false, s)
  end.

Definition decimal_of_lexeme (s : string) : option (bool * Z * Z) :=
  let '(negative, s) :=
    match s with
    | String c r => if Ascii.eqb c "-" then (true, r) else (false, s)
    | EmptyString => (false, s)
    end in
  let '(whole, n, s) := digits_prefix s 0 0 in
  if n =? 0 then None
  else
    let '(digits, places, s) :=
      match s with
      | String c r => if Ascii.eqb c "." then digits_prefix r whole 0 else (whole, 0, s)
      | EmptyString => (whole, 0, s)
      end in
    match s with
    | EmptyString => Some (negative, digits, - places)
    | String c r =>
        if Ascii.eqb c "e" || Ascii.eqb c "E" then
          let '(minus, r) := signed r in
          match digits_prefix r 0 0 with
          | (e, k, EmptyString) =>
              if k =? 0 then None
              else Some (negative, digits, (if minus then - e else e) - places)
          | _ => None
          end
        else None
    end.

(** [n / d] to the nearest integer, a tie going to the even one. *)
Definition round_half_even (n d : Z) : Z :=
  let q := n / d in
  let r := n mod d in
  if 2 * r <? d then q
  else if d <? 2 * r then q + 1
  else if Z.even q then q
  else q + 1.

(** The double nearest to the fraction [n / d] (both positive), as far as
    a [Date] needs it: its integral part, and whether it is a whole number.
    [None]: the double is 2^53 or more, beyond every time value.  Between
    2^k and 2^(k+1) doubles are 2^(k-52) apart; below 1 the only double
    with an integral part is 1 itself, reached from 1 - 2^-54 on. *)
Definition double_parts (n d : Z) : option (Z * bool) :=
  let q := n / d in
  if q =? 0 then
    if (2 ^ 54 - 1) * d <=? 2 ^ 54 * n then Some (1, true) else Some (0, false)
  else if 2 ^ 53 <=? q then None
  else
    let scale := 2 ^ (52 - Z.log2 q) in
    let mantissa := round_half_even (n * scale) d in
    Some (mantissa / scale, mantissa mod scale =? 0).

Definition double_of_lexeme (s : string) : option (bool * option (Z * bool)) :=
  match decimal_of_lexeme s with
  | None => None
  | Some (negative, digits, exponent) =>
      if digits =? 0 then Some (negative, Some (0, true))
      else if 0 <=? exponent
      then Some (negative, double_parts (digits * 10 ^ exponent) 1)
      else Some (negative, double_parts digits (10 ^ (- exponent)))
  end.

(** [new Date(x)] for a number [x]: the integral part of [x] when [x] is
    within the range of time values. *)
Definition Date_of_number (lexeme : string) : Date :=
  match double_of_lexeme lexeme with
  | Some (negative, Some (n, _)) => TimeClip (if negative then - n else n)
  | _ => InvalidDate
  end.

(** [String(x)] for a number [x] that is whole and below 2^53 in
    magnitude: its decimal digits.  (The text of another number has a
    fraction or an exponent, and is no date in the format.) *)
Definition text_of_number (lexeme : string) : option string :=
  match double_of_lexeme lexeme with
  | Some (negative, Some (n, true)) =>
      Some (NilEmpty.string_of_int (Z.to_int (if negative then - n else n)))
  | _ => None
  end.

(** The text of an array: the texts of its elements with commas in between,
    [null] giving the empty text and an object [[object Object]]. *)
Fixpoint text_of_element (v : Json.value) : option string :=
  match v with
  | Json.JNull => Some ""
  | Json.JBool b => Some (if b then "true" else "false")
  | Json.JNumber lexeme => text_of_number lexeme
  | Json.JString s => Some s
  | Json.JObject _ => Some "[object Object]"
  | Json.JArray l =>
      (fix join (l : list Json.value) : option string :=
         match l with
         | [] => Some ""
         | [x] => text_of_element x
         | x :: r =>
             match text_of_element x, join r with
             | Some a, Some b => Some (a ++ "," ++ b)
             | _, _ => None
             end
         end) l
  end.

(** [new Date(v)].  Strings go through [Date_of_string]; [null], booleans
    and numbers are time values; [undefined] is no date.  An array or an
    object is turned into its text first, and the text read as a string
    is. *)
Definition Date_of_value (v : option Json.value) : Date :=
  match v with
  | None => InvalidDate
  | Some (Json.JString s) => Date_of_string s
  | Some Json.JNull => ValidDate 0
  | Some (Json.JBool b) => ValidDate (if b then 1 else 0)
  | Some (Json.JNumber lexeme) => Date_of_number lexeme
  | Some v =>
      match text_of_element v with
      | Some s => Date_of_string s
      | None => InvalidDate
      end
  end.

Definition Operand_of_value (v : option Json.value) : Operand :=
  match v with
  | None => OpUndefined
  | Some (Json.JString s) => OpString s
  | Some _ => OpOther
  end.

Definition created_at_lt (d : Date) : WhereInput :=
  MkWhere None None
    (Some {| gte := None; lte := None; lt := Some d; equals := None |})
    None None None None None None.
Definition created_at_equals (d : Date) : WhereInput :=
  MkWhere None None
    (Some {| gte := None; lte := None; lt := None; equals := Some d |})
    None None None None None None.
Definition id_lt (v : Operand) : WhereInput :=
  MkWhere None None None (Some (IdLt v)) None None None None None.
Definition AND_ (l : list WhereInput) : WhereInput :=
  MkWhere None None None None None None None None (Some l).
Definition OR_ (l : list WhereInput) : WhereInput :=
  MkWhere None None None None None None None (Some l) None.

(** What the search path reads off a cursor: the text parsed from its
    base64 decoding, then [new Date(cursorData[0])] and [cursorData[1]].
    [None] is an exception that the [try] catches: [JSON.parse] on text that
    is not JSON, or the read of [cursorData[0]] on [null]. *)
Definition decodeCursor (cursor : string) : option (Date * Operand) :=
  match Json.parse (Buffer.from_base64 cursor) with
  | None => None
  | Some Json.JNull => None
  | Some cursorData =>
      Some (Date_of_value (property cursorData 0),
            Operand_of_value (property cursorData 1))
  end.

(** [cursorCondition]: [{}] when the cursor is absent, empty or not decoded,
    the range condition otherwise. *)
Definition cursorCondition (cursor : option string) : WhereInput :=
  match cursor with
  | Some (String c r) =>
      match decodeCursor (String c r) with
      | None => empty_where
      | Some (d, i) =>
          OR_ [ created_at_lt d; AND_ [ created_at_equals d; id_lt i ] ]
      end
  | _ => empty_where
  end.

(** [a.pop()]: the array without its last element, and that element. *)
Definition pop {A : Type} (a : list A) : list A * option A :=
  (removelast a, nth_error a (List.length a - 1)).

(** [a[i]] for an index that may be negative. *)
Definition at_index {A : Type} (a : list A) (i : Z) : option A :=
  if i <? 0 then None else nth_error a (Z.to_nat i).

Definition getPaginatedShopOrdersFromDB (db : Db) (o : GetPaginatedOrdersOptions)
  : Result Page :=
  let limit := limit_of o in
  let wh := build_where (opt_shop_id o) (opt_orderStatus o) (opt_dateRange o)
                 (opt_searchTerm o) in
  match findMany db
          {| take := limit + 1;
             where_ := wh;
             orderBy := [(By_created_at, desc)];
             cursor := if truthy (opt_cursor o) then opt_cursor o else None;
             skip := if truthy (opt_cursor o) then 1 else 0 |} with
  | Err e => Err e
  | Ok orders =>
      if (limit <? List.length orders)%nat then
        let '(orders, nextItem) := pop orders in
        Ok {| orders := orders; nextCursor := option_map id nextItem |}
      else Ok {| orders := orders; nextCursor := None |}
  end.

(** The rows the path without search term fetches. *)
Definition fetched_rows (db : Db) (o : GetPaginatedOrdersOptions) : list Order :=
  let candidates :=
    sort [(By_created_at, desc)]
      (filter (matches db (build_where (opt_shop_id o) (opt_orderStatus o)
                             (opt_dateRange o) None)) (order_table db)) in
  firstn (limit_of o + 1)
    match opt_cursor o with
    | Some (String c r) => skipn 1 (from_cursor (String c r) candidates)
    | _ => candidates
    end.

(** [{ ...where, ...cursorCondition }], the condition of the search path. *)
Definition search_where (o : GetPaginatedOrdersOptions) : WhereInput :=
  spread
    (build_where (opt_shop_id o) (opt_orderStatus o) (opt_dateRange o)
       (opt_searchTerm o))
    (cursorCondition (opt_cursor o)).

(** The search path: the body of [getPaginatedShopOrders] below its early
    return. *)
Definition getPaginatedShopOrders_search (db : Db) (o : GetPaginatedOrdersOptions)
  : Result Page :=
  let limit := limit_of o in
  match findMany db
          {| take := limit + 1;
             where_ := search_where o;
             orderBy := [(By_created_at, desc); (By_id, desc)];
             cursor := None;
             skip := 0 |} with
  | Err e => Err e
  | Ok orders =>
      if (limit <? List.length orders)%nat then
        match at_index orders (Z.of_nat limit - 1) with
        | None => Err TypeError      (* lastOrder.created_at on undefined *)
        | Some lastOrder =>
            Ok {| orders := fst (pop orders);
                  nextCursor :=
                    Some (encodeCursor (created_at lastOrder) (id lastOrder)) |}
        end
      else Ok {| orders := orders; nextCursor := None |}
  end.

Definition getPaginatedShopOrders (db : Db) (o : GetPaginatedOrdersOptions)
  : Result Page :=
  if negb (truthy (opt_searchTerm o)) then
    getPaginatedShopOrdersFromDB db
      {| opt_shop_id := opt_shop_id o;
         opt_limit := Some (limit_of o);
         opt_cursor := opt_cursor o;
         opt_searchTerm := None;
         opt_orderStatus := opt_orderStatus o;
         opt_dateRange := opt_dateRange o |}
  else getPaginatedShopOrders_search db o.

(** [data: { order_status, assigned_to, actual_delivery_time }] *)
Definition status_data (status : OrderStatus) (assigned : option string)
  (delivered : option Date) : OrderUpdate :=
  {| set_order_status := Some status;
     set_assigned_to := assigned;
     set_actual_delivery_time := delivered |}.

Definition updateStatus (db : Db) (order_id : string) (status : OrderStatus)
  (assigned : option string) (delivered : option Date) : Db * Result Order :=
  update db order_id (status_data status assigned delivered).

(** [where: { id: { in: order_ids } }] *)
Definition id_in (order_ids : list string) : WhereInput :=
  MkWhere None None None (Some (IdIn order_ids)) None None None None None.

Definition batchUpdateStatus (db : Db) (order_ids : list string)
  (status : OrderStatus) : Db * Result Z :=
  updateMany db (id_in order_ids) (status_data status None None).

(** A delivery time that the client and the engine take: absent, or a valid
    date of a year from 0 to 9999. *)
Definition accepted_date (d : option Date) : bool := date_ok d && date_sent d.

(** *** Walking the pages

    The caller's loop: the first call carries no cursor, each later call the
    [nextCursor] of the page before, until a page carries none.  [None]:
    the walk did not end within [fuel] pages. *)
Definition with_cursor (o : GetPaginatedOrdersOptions) (c : option string)
  : GetPaginatedOrdersOptions :=
  {| opt_shop_id := opt_shop_id o;
     opt_limit := opt_limit o;
     opt_cursor := c;
     opt_searchTerm := opt_searchTerm o;
     opt_orderStatus := opt_orderStatus o;
     opt_dateRange := opt_dateRange o |}.

Fixpoint walk (fuel : nat) (db : Db) (o : GetPaginatedOrdersOptions)
  (c : option string) : option (Result (list Order)) :=
  match fuel with
  | O => None
  | S fuel =>
      match getPaginatedShopOrders db (with_cursor o c) with
      | Err e => Some (Err e)
      | Ok p =>
          match nextCursor p with
          | None => Some (Ok (orders p))
          | Some c' =>
              match walk fuel db o (Some c') with
              | Some (Ok l) => Some (Ok (orders p ++ l)%list)
              | r => r
              end
          end
      end
  end.

(** The orders a request is about: those of the shop that pass its status,
    date and search filters. *)
Definition matching (db : Db) (o : GetPaginatedOrdersOptions) : list Order :=
  filter
    (matches db (build_where (opt_shop_id o) (opt_orderStatus o) (opt_dateRange o)
                   (opt_searchTerm o)))
    (order_table db).

(** The search term and the texts it is matched against are ASCII (when
    there is a search term). *)
Definition ascii_search (db : Db) (o : GetPaginatedOrdersOptions) : bool :=
  match opt_searchTerm o with
  | Some (String c r) =>
      ascii_text (String c r)
      && forallb (fun x => ascii_text (display_id x)
                           && ascii_text (delivery_address_snapshot x))
           (order_table db)
      && forallb (fun u => ascii_text (u_email u)) (user_table db)
  | _ => true
  end.

(** [(x.created_at, x.id) > (y.created_at, y.id)] *)
Definition key_gt (x y : Order) : bool :=
  (created_at y <? created_at x)
  || ((created_at x =? created_at y) && String.ltb (id y) (id x)).

(** The pair of [a] is not below that of [b]; the pair of [x] is above that
    of [y]. *)
Definition key_ge (a b : Order) : Prop := key_gt b a = false.
Definition key_above (x y : Order) : Prop := key_gt x y = true.

End OrderRepository.

(** ** Sample data *)

Module Fixtures.
Import JsDate Prisma OrderRepository.

Definition order (i : string) (t : Z) (disp : string) : Order :=
  {| id := i;
     display_id := disp;
     shop_id := "shop-1";
     user_id := "user-1";
     order_status := STATUS "NEW";
     payment_status := "PENDING";
     payment_method := "CASH";
     total_price := 25000;
     created_at := t;
     updated_at := t;
     assigned_to := None;
     actual_delivery_time := None;
     delivery_address_snapshot := "Hostel 4, Room 12" |}.

Definition users : list User :=
  [ {| u_id := "user-1"; u_email := "asha@campus.test" |} ].

Definition request (limit : option nat) (cursor searchTerm : option string)
  : GetPaginatedOrdersOptions :=
  {| opt_shop_id := "shop-1";
     opt_limit := limit;
     opt_cursor := cursor;
     opt_searchTerm := searchTerm;
     opt_orderStatus := None;
     opt_dateRange := None |}.

(** The orders of the specification's example: A and B created at 10:00,
    C at 09:59. *)
Definition A : Order := order "3" 36000000 "ORD-A".
Definition B : Order := order "2" 36000000 "ORD-B".
Definition C : Order := order "9" 35940000 "ORD-C".

Definition example_db : Db := {| order_table := [A; B; C]; user_table := users |}.

(** The same orders, B stored ahead of A. *)
Definition example_db' : Db := {| order_table := [B; A; C]; user_table := users |}.

(** Three orders a second apart; the first and the last are about tea. *)
Definition tea1 : Order := order "o3" 3000 "TEA-0003".
Definition pen2 : Order := order "o2" 2000 "PEN-0002".
Definition tea3 : Order := order "o1" 1000 "TEA-0001".

Definition stationery_db : Db :=
  {| order_table := [tea1; pen2; tea3]; user_table := users |}.

End Fixtures.

(** ** Lookups and counts of the order repository

    The calls of [getOrderById], [findById], [getOrdersByUserId],
    [getOrdersByShopId] and [getOrdersByIds] without [options], and
    [count]. *)

Module OrderLookups.
Import JsDate Prisma OrderRepository.

(** [prisma.order.findUnique({ where: { id } })]: the row with that id, or
    [null]. *)
Definition findUnique (db : Db) (i : string) : option Order :=
  find (fun o => String.eqb (id o) i) (order_table db).

Definition getOrderById (db : Db) (order_id : string) : option Order :=
  findUnique db order_id.

Definition findById (db : Db) (orderId : string) : option Order :=
  findUnique db orderId.

(** [prisma.order.findMany({ where })] with no ordering and no paging: the
    rows that pass, as the engine returns them. *)
Definition findManyWhere (db : Db) (p : Order -> bool) : list Order :=
  filter p (order_table db).

(** [where: { user_id }] *)
Definition getOrdersByUserId (db : Db) (user : string) : list Order :=
  findManyWhere db (fun o => String.eqb (user_id o) user).

(** [where: { shop_id }] *)
Definition getOrdersByShopId (db : Db) (shop : string) : list Order :=
  findManyWhere db
    (matches db (MkWhere (Some shop) None None None None None None None None)).

(** [where: { id: { in: order_ids } }] *)
Definition getOrdersByIds (db : Db) (order_ids : list string) : list Order :=
  findManyWhere db (matches db (id_in order_ids)).

(** [prisma.order.count({ where })]; without [where] every row counts. *)
Definition count (db : Db) (w : option WhereInput) : Result Z :=
  match w with
  | None => Ok (Z.of_nat (List.length (order_table db)))
  | Some w =>
      match refusal w with
      | Some e => Err e
      | None => Ok (Z.of_nat (List.length (filter (matches db w) (order_table db))))
      end
  end.

(** The characters of a base64 text: letters, digits, [+], [/] and the
    padding [=]. *)
Definition base64_letter (c : ascii) : bool :=
  let k := Str.code c in
  ((65 <=? k) && (k <=? 90)) || ((97 <=? k) && (k <=? 122))
  || ((48 <=? k) && (k <=? 57)) || (k =? 43) || (k =? 47) || (k =? 61).

Fixpoint all_chars (p : ascii -> bool) (s : string) : bool :=
  match s with
  | EmptyString => true
  | String c r => p c && all_chars p r
  end.

(** What a status update never writes: an order without its status, its
    assignee and its delivery time.  ([updated_at] is left out as well: the
    schema, which is not among the sources, may have the client refresh
    it.) *)
Definition fixed_part (o : Order)
  : string * string * string * string * string * string * Z * Z * string :=
  (id o, display_id o, shop_id o, user_id o, payment_status o, payment_method o,
   total_price o, created_at o, delivery_address_snapshot o).

(** An order without [updated_at]. *)
Definition but_updated_at (o : Order) :=
  (fixed_part o, order_status o, assigned_to o, actual_delivery_time o).

(** What [update] does to a row, and what [updateMany] does to it under
    [id: { in: ids }]. *)
Definition set_where (i : string) (d : OrderUpdate) (x : Order) : Order :=
  if String.eqb (id x) i then apply_update d x else x.

Definition set_in (ids : list string) (d : OrderUpdate) (x : Order) : Order :=
  if existsb (String.eqb (id x)) ids then apply_update d x else x.

End OrderLookups.

(** * Properties *)

(** ** Strings *)

Module StrFacts.
Import Str.

Lemma append_assoc (a b c : string) : (a ++ b) ++ c = a ++ (b ++ c).
Proof. induction a as [|x a IH]; simpl; [reflexivity | now rewrite IH]. Qed.

Lemma code_chr (n : Z) : 0 <= n < 256 -> code (chr n) = n.
Proof.
  intros H. unfold code, chr.
  rewrite N_ascii_embedding by lia. lia.
Qed.

Lemma chr_code (c : ascii) : chr (code c) = c.
Proof. unfold code, chr. rewrite N2Z.id. apply ascii_N_embedding. Qed.

Lemma code_range (c : ascii) : 0 <= code c < 256.
Proof. unfold code. pose proof (N_ascii_bounded c). lia. Qed.

Lemma chr_eq (a : ascii) (x : Z) : x = code a -> chr x = a.
Proof. intros ->. apply chr_code. Qed.

End StrFacts.

(** ** Dates *)

Module JsDateFacts.
Import JsDate.

Lemma digit_cases (k : Z) :
  0 <= k <= 9 ->
  k = 0 \/ k = 1 \/ k = 2 \/ k = 3 \/ k = 4 \/ k = 5 \/ k = 6 \/ k = 7 \/ k = 8 \/ k = 9.
Proof. lia. Qed.

Lemma digit_val_of (k : Z) : 0 <= k <= 9 -> digit_val (digit_of k) = Some k.
Proof.
  intros H. destruct (digit_cases k H) as [->|[->|[->|[->|[->|[->|[->|[->|[->| ->]]]]]]]]];
    reflexivity.
Qed.

Lemma digit_not_sign (k : Z) :
  0 <= k <= 9 ->
  Ascii.eqb (digit_of k) "+" = false /\ Ascii.eqb (digit_of k) "-" = false.
Proof.
  intros H. destruct (digit_cases k H) as [->|[->|[->|[->|[->|[->|[->|[->|[->| ->]]]]]]]]];
    split; reflexivity.
Qed.

Lemma read_digits_pad (w : nat) (n : Z) (rest : string) (acc : Z) :
  0 <= n ->
  read_digits w (pad w n ++ rest) acc
  = Some (acc * 10 ^ Z.of_nat w + n mod 10 ^ Z.of_nat w, rest).
Proof.
  intros Hn. revert acc. induction w as [|w IH]; intros acc.
  - simpl. rewrite Z.mod_1_r. do 2 f_equal. lia.
  - cbn [pad read_digits append].
    rewrite digit_val_of
      by (pose proof (Z.mod_pos_bound (n / 10 ^ Z.of_nat w) 10); lia).
    rewrite IH. do 2 f_equal.
    rewrite Nat2Z.inj_succ, Z.pow_succ_r by lia.
    assert (Hp : 0 < 10 ^ Z.of_nat w) by (apply Z.pow_pos_nonneg; lia).
    rewrite (Z.mul_comm 10 (10 ^ Z.of_nat w)).
    rewrite (Z.rem_mul_r n (10 ^ Z.of_nat w) 10) by lia.
    lia.
Qed.

Lemma read_digits_pad_small (w : nat) (n : Z) (rest : string) :
  0 <= n < 10 ^ Z.of_nat w ->
  read_digits w (pad w n ++ rest) 0 = Some (n, rest).
Proof.
  intros H. rewrite read_digits_pad by lia.
  rewrite Z.mod_small by lia. reflexivity.
Qed.


Lemma all_from_spec (fuel : nat) (p : Z -> bool) :
  forall i, all_from fuel i p = true ->
  forall j, i <= j < i + Z.of_nat fuel -> p j = true.
Proof.
  induction fuel as [|f IH]; intros i H j Hj.
  - simpl in Hj. lia.
  - cbn [all_from] in H. apply andb_true_iff in H as [Hi Hr].
    destruct (Z.eq_dec j i) as [->|Hne]; [exact Hi|].
    apply (IH (i + 1) Hr). lia.
Qed.

Lemma doe_ok_era : all_from (Z.to_nat 146097) 0 doe_ok = true.
Proof. vm_cast_no_check (eq_refl true). Qed.

Lemma civil_roundtrip (z : Z) :
  forall y m d, civil_from_days z = (y, m, d) ->
  days_from_civil y m d = z /\ 1 <= m <= 12 /\ 1 <= d <= 31
  /\ (z + 719468) / 146097 * 400 <= y <= (z + 719468) / 146097 * 400 + 400.
Proof.
  intros y m d H. unfold civil_from_days in H.
  set (era := (z + 719468) / 146097) in *.
  set (doe := (z + 719468) mod 146097) in *.
  assert (Hdoe : 0 <= doe < 146097) by (apply Z.mod_pos_bound; lia).
  pose proof (all_from_spec _ _ _ doe_ok_era doe ltac:(lia)) as Hok.
  unfold doe_ok in Hok.
  set (yoe := (doe - doe / 1460 + doe / 36524 - doe / 146096) / 365) in *.
  set (doy := doe - (365 * yoe + yoe / 4 - yoe / 100)) in *.
  set (mp := (5 * doy + 2) / 153) in *.
  set (d0 := doy - (153 * mp + 2) / 5 + 1) in *.
  set (m0 := if mp <? 10 then mp + 3 else mp - 9) in *.
  injection H as Hy Hm Hd. subst m d.
  repeat (apply andb_true_iff in Hok as [Hok ?]).
  assert (Hz : z = era * 146097 + doe - 719468).
  { pose proof (Z.div_mod (z + 719468) 146097 ltac:(lia)). subst era doe. lia. }
  split; [|split; [lia|split; [lia|]]].
  - unfold days_from_civil.
    assert (Hy' : (if m0 <=? 2 then y - 1 else y) = yoe + era * 400).
    { subst y. destruct (m0 <=? 2); lia. }
    rewrite Hy'.
    rewrite Z.div_add, Z.mod_add by lia.
    rewrite Z.div_small, Z.mod_small by lia.
    lia.
  - subst y. destruct (m0 <=? 2); lia.
Qed.


(** The years 0 to 9999 run from 0000-01-01T00:00:00.000Z to
    9999-12-31T23:59:59.999Z. *)
Lemma days_from_civil_year (y m d : Z) :
  1 <= m <= 12 -> 1 <= d <= 31 ->
  (0 <= y <= 9999 <-> -719528 <= days_from_civil y m d <= 2932896).
Proof.
  intros Hm Hd. unfold days_from_civil.
  destruct (m <=? 2) eqn:E1; destruct (2 <? m) eqn:E2;
    try apply Z.leb_le in E1; try apply Z.leb_gt in E1;
    try apply Z.ltb_lt in E2; try apply Z.ltb_ge in E2;
    Z.div_mod_to_equations; lia.
Qed.

Lemma four_digit_year_bounds (t : Z) :
  four_digit_year t = true <-> -62167219200000 <= t <= 253402300799999.
Proof.
  unfold four_digit_year, year_of.
  destruct (civil_from_days (t / msPerDay)) as [[y m] d] eqn:Ec.
  destruct (civil_roundtrip _ _ _ _ Ec) as (Hdays & Hm & Hd & _).
  pose proof (days_from_civil_year y m d Hm Hd) as H. rewrite Hdays in H.
  unfold msPerDay in *.
  rewrite andb_true_iff, !Z.leb_le, H.
  Z.div_mod_to_equations. lia.
Qed.

Lemma read_year_string (y : Z) (rest : string) :
  -1000000 < y < 1000000 ->
  read_year (year_string y ++ rest) = Some (y, rest).
Proof.
  intros Hy. unfold year_string.
  destruct ((0 <=? y) && (y <=? 9999)) eqn:E.
  - apply andb_true_iff in E as [E1 E2].
    change (pad 4 y) with
      (String (digit_of ((y / 10 ^ Z.of_nat 3) mod 10)) (pad 3 y)).
    cbn [append read_year].
    destruct (digit_not_sign ((y / 10 ^ Z.of_nat 3) mod 10)) as [-> ->].
    { pose proof (Z.mod_pos_bound (y / 10 ^ Z.of_nat 3) 10). lia. }
    change (String (digit_of ((y / 10 ^ Z.of_nat 3) mod 10)) (pad 3 y ++ rest))
      with (pad 4 y ++ rest).
    apply read_digits_pad_small. simpl. lia.
  - cbn [append read_year].
    destruct (y <? 0) eqn:Eneg.
    + cbn [Ascii.eqb Bool.eqb]. 
      rewrite read_digits_pad_small by (simpl; lia).
      destruct (Z.abs y =? 0) eqn:E0; [lia|].
      do 2 f_equal. lia.
    + cbn [Ascii.eqb Bool.eqb].
      rewrite read_digits_pad_small by (simpl; lia).
      do 2 f_equal. lia.
Qed.

Lemma expect_cons (c : ascii) (rest : string) : expect c (String c rest) = Some rest.
Proof. simpl. now rewrite Ascii.eqb_refl. Qed.

Lemma parse_toISOString (t : Z) :
  Z.abs t <= maxTime -> parse_iso (toISOString t) = Some t.
Proof.
  intros Ht. unfold toISOString, maxTime in *.
  destruct (civil_from_days (t / msPerDay)) as [[y m] d] eqn:Ec.
  destruct (civil_roundtrip _ _ _ _ Ec) as (Hdays & Hm & Hd & Hy).
  unfold msPerDay in *.
  set (tod := t mod 86400000) in *.
  assert (Htod : 0 <= tod < 86400000) by (apply Z.mod_pos_bound; lia).
  assert (Hday : -100000000 <= t / 86400000 <= 100000000).
  { split; [apply Z.div_le_lower_bound | apply Z.div_le_upper_bound]; lia. }
  assert (Hera : -700 <= (t / 86400000 + 719468) / 146097 <= 700).
  { split; [apply Z.div_le_lower_bound | apply Z.div_le_upper_bound]; lia. }
  unfold parse_iso.
  rewrite read_year_string by lia. cbn [bind].
  cbn [append]. rewrite expect_cons. cbn [bind].
  rewrite read_digits_pad_small by (simpl; lia). cbn [bind append].
  rewrite expect_cons. cbn [bind].
  rewrite read_digits_pad_small by (simpl; lia). cbn [bind append].
  rewrite expect_cons. cbn [bind].
  assert (Hh : 0 <= tod / 3600000 < 24).
  { split; [apply Z.div_pos | apply Z.div_lt_upper_bound]; lia. }
  rewrite read_digits_pad_small by (simpl; lia). cbn [bind append].
  rewrite expect_cons. cbn [bind].
  pose proof (Z.mod_pos_bound (tod / 60000) 60 ltac:(lia)) as Hmi.
  rewrite read_digits_pad_small by (simpl; lia). cbn [bind append].
  rewrite expect_cons. cbn [bind].
  pose proof (Z.mod_pos_bound (tod / 1000) 60 ltac:(lia)) as Hs.
  rewrite read_digits_pad_small by (simpl; lia). cbn [bind append].
  rewrite expect_cons. cbn [bind].
  pose proof (Z.mod_pos_bound tod 1000 ltac:(lia)) as Hms.
  rewrite read_digits_pad_small by (simpl; lia). cbn [bind append].
  rewrite expect_cons. cbn [bind].
  replace ((1 <=? m) && (m <=? 12) && (1 <=? d) && (d <=? 31)) with true
    by (symmetry; repeat (apply andb_true_iff; split); lia).
  replace (tod / 3600000 <=? 23) with true by (symmetry; lia).
  replace ((tod / 60000) mod 60 <=? 59) with true by (symmetry; lia).
  replace ((tod / 1000) mod 60 <=? 59) with true by (symmetry; lia).
  cbn [andb orb]. f_equal. rewrite Hdays.
  pose proof (Z.div_mod t 86400000 ltac:(lia)) as Ht'.
  fold tod in Ht'.
  assert (tod / 3600000 * 3600000 + (tod / 60000) mod 60 * 60000
          + (tod / 1000) mod 60 * 1000 + tod mod 1000 = tod).
  { clear -Htod. 
    replace (tod / 60000) with (tod / 1000 / 60)
      by (rewrite Z.div_div by lia; reflexivity).
    replace (tod / 3600000) with (tod / 1000 / 60 / 60)
      by (rewrite !Z.div_div by lia; reflexivity).
    set (q := tod / 1000).
    pose proof (Z.div_mod tod 1000 ltac:(lia)). fold q in H.
    pose proof (Z.div_mod q 60 ltac:(lia)).
    pose proof (Z.div_mod (q / 60) 60 ltac:(lia)).
    lia. }
  unfold msPerDay. lia.
Qed.

Lemma Date_of_toISOString (t : Z) :
  Z.abs t <= maxTime -> Date_of_string (toISOString t) = ValidDate t.
Proof.
  intros Ht. unfold Date_of_string. rewrite parse_toISOString by exact Ht.
  unfold TimeClip. now apply Z.leb_le in Ht as ->.
Qed.

End JsDateFacts.

(** ** Base64 *)

Module BufferFacts.
Import Buffer.

Lemma b64_val_char (v : Z) : 0 <= v < 64 -> b64_val (b64_char v) = Some v.
Proof.
  intros Hv. unfold b64_char.
  destruct (v <? 26) eqn:E1; [|destruct (v <? 52) eqn:E2;
    [|destruct (v <? 62) eqn:E3; [|destruct (v =? 62) eqn:E4]]].
  - unfold b64_val. rewrite StrFacts.code_chr by lia.
    replace ((65 <=? 65 + v) && (65 + v <=? 90)) with true
      by (symmetry; apply andb_true_iff; lia).
    f_equal; lia.
  - unfold b64_val. rewrite StrFacts.code_chr by lia.
    replace ((65 <=? 71 + v) && (71 + v <=? 90)) with false
      by (symmetry; apply andb_false_iff; lia).
    replace ((97 <=? 71 + v) && (71 + v <=? 122)) with true
      by (symmetry; apply andb_true_iff; lia).
    f_equal; lia.
  - unfold b64_val. rewrite StrFacts.code_chr by lia.
    replace ((65 <=? v - 4) && (v - 4 <=? 90)) with false
      by (symmetry; apply andb_false_iff; lia).
    replace ((97 <=? v - 4) && (v - 4 <=? 122)) with false
      by (symmetry; apply andb_false_iff; lia).
    replace ((48 <=? v - 4) && (v - 4 <=? 57)) with true
      by (symmetry; apply andb_true_iff; lia).
    f_equal; lia.
  - assert (v = 62) by lia. subst v. reflexivity.
  - assert (v = 63) by lia. subst v. reflexivity.
Qed.

Lemma b64_char_not_pad (v : Z) : 0 <= v < 64 -> Ascii.eqb (b64_char v) "=" = false.
Proof.
  intros Hv. apply Ascii.eqb_neq. intros E.
  pose proof (b64_val_char v Hv) as H. rewrite E in H. discriminate H.
Qed.

Lemma sextets_char (v : Z) (r : string) :
  0 <= v < 64 -> sextets (String (b64_char v) r) = v :: sextets r.
Proof.
  intros Hv. cbn [sextets].
  now rewrite b64_char_not_pad, b64_val_char.
Qed.

(** Induction on strings three bytes at a time. *)
Lemma string_triples_ind (P : string -> Prop) :
  P "" -> (forall a, P (String a "")) -> (forall a b, P (String a (String b ""))) ->
  (forall a b c r, P r -> P (String a (String b (String c r)))) ->
  forall s, P s.
Proof.
  intros H0 H1 H2 H3.
  fix IH 1. intros [|a [|b [|c r]]];
    [apply H0 | apply H1 | apply H2 | apply H3, IH].
Qed.

Ltac byte_bounds :=
  repeat match goal with
         | a : ascii |- _ =>
             lazymatch goal with
             | _ : 0 <= Str.code a < 256 |- _ => fail
             | _ => pose proof (StrFacts.code_range a)
             end
         end.

Ltac zdm := byte_bounds; Z.div_mod_to_equations; lia.

Lemma from_base64_toString (bytes : string) :
  from_base64 (toString_base64 bytes) = bytes.
Proof.
  unfold from_base64.
  induction bytes as [|a|a b|a b c r IH] using string_triples_ind.
  - reflexivity.
  - cbn [toString_base64].
    rewrite !sextets_char by zdm.
    cbn [sextets Ascii.eqb Bool.eqb bytes_of_sextets].
    f_equal. apply StrFacts.chr_eq. zdm.
  - cbn [toString_base64].
    rewrite !sextets_char by zdm.
    cbn [sextets Ascii.eqb Bool.eqb bytes_of_sextets].
    f_equal; [|f_equal]; apply StrFacts.chr_eq; zdm.
  - cbn [toString_base64].
    rewrite !sextets_char by zdm.
    cbn [bytes_of_sextets]. rewrite IH.
    f_equal; [|f_equal; [|f_equal]]; apply StrFacts.chr_eq; zdm.
Qed.

End BufferFacts.

(** ** JSON *)

Module JsonFacts.
Import Json.

Local Abbreviation len := String.length.

Lemma skip_ws_le (s : string) : (len (skip_ws s) <= len s)%nat.
Proof.
  induction s as [|c s IH]; cbn [skip_ws len]; [lia|].
  destruct (is_ws c); cbn [len]; lia.
Qed.

Lemma skip_ws_cons (s : string) (c : ascii) (r : string) :
  skip_ws s = String c r -> (len r < len s)%nat.
Proof.
  intros H. pose proof (skip_ws_le s) as L. rewrite H in L. cbn [len] in L. lia.
Qed.

Lemma prepend_lt (p : string) (o : option (string * string)) (n : nat) :
  (forall t r, o = Some (t, r) -> (len r < n)%nat) ->
  forall t r, prepend p o = Some (t, r) -> (len r < n)%nat.
Proof.
  intros H t r. destruct o as [[t' r']|]; cbn [prepend]; [|discriminate].
  intros [= <- <-]. now apply (H t').
Qed.

Lemma string_body_lt (s t r : string) :
  string_body s = Some (t, r) -> (len r < len s)%nat.
Proof.
  remember (len s) as n eqn:En. revert s t r En.
  induction n as [n IH] using lt_wf_ind. intros s t r ->.
  destruct s as [|c s]; cbn [string_body]; [discriminate|].
  assert (Hrec : forall s' t' r', (len s' <= len s)%nat ->
            string_body s' = Some (t', r') -> (len r' < len (String c s))%nat).
  { intros s' t' r' Hle H. cbn [len].
    assert (len r' < len s')%nat; [|lia].
    apply (IH (len s')) with (s := s') (t := t'); cbn [len]; try lia; auto. }
  destruct (Ascii.eqb c dquote).
  { intros [= <- <-]. cbn [len]. lia. }
  destruct (Ascii.eqb c backslash).
  2:{ destruct (Str.code c <? 32); [discriminate|].
      apply prepend_lt. intros t' r'. apply Hrec. lia. }
  destruct s as [|e r1]; [discriminate|].
  destruct (Ascii.eqb e "u").
  { destruct r1 as [|h1 [|h2 [|h3 [|h4 r2]]]]; try discriminate.
    destruct (hex4 h1 h2 h3 h4) as [u|]; [|discriminate].
    assert (H2 : forall t' r', prepend (utf8 u) (string_body r2) = Some (t', r') ->
              (len r' < len (String c (String e (String h1 (String h2 (String h3 (String h4 r2)))))))%nat).
    { apply prepend_lt. intros t' r'. apply Hrec. cbn [len]. lia. }
    destruct (is_high u); [|apply H2].
    destruct r2 as [|b1 [|b2 [|l1 [|l2 [|l3 [|l4 r3]]]]]]; try apply H2.
    destruct (hex4 l1 l2 l3 l4) as [v|]; [|apply H2].
    destruct (Ascii.eqb b1 backslash && Ascii.eqb b2 "u" && is_low v); [|apply H2].
    apply prepend_lt. intros t' r'. apply Hrec. cbn [len]. lia. }
  repeat match goal with
         | |- context [if ?b then _ else _] =>
             destruct b;
             [apply prepend_lt; intros t' r'; apply Hrec; cbn [len]; lia|]
         end.
  discriminate.
Qed.

Lemma digits_le (s : string) : (len (snd (digits s)) <= len s)%nat.
Proof.
  induction s as [|c s IH]; cbn [digits]; [cbn; lia|].
  destruct (is_digit c); [|cbn; lia].
  destruct (digits s) as [ds r]. cbn [snd len] in *. lia.
Qed.

Lemma digits1_le (s ds r : string) :
  digits1 s = Some (ds, r) -> (len r <= len s)%nat.
Proof.
  unfold digits1. pose proof (digits_le s) as H.
  destruct (digits s) as [[|d ds'] r']; [discriminate|].
  intros [= <- <-]. exact H.
Qed.

Lemma number_lt (s lexeme r : string) :
  number s = Some (lexeme, r) -> (len r < len s)%nat.
Proof.
  unfold number.
  set (p := match s with
            | String c r0 => if Ascii.eqb c "-" then ("-", r0) else ("", s)
            | EmptyString => ("", s)
            end).
  assert (Hp : (len (snd p) <= len s)%nat).
  { subst p. destruct s as [|c r0]; [cbn; lia|].
    destruct (Ascii.eqb c "-"); cbn [snd len]; lia. }
  destruct p as [sign s1]. cbn [snd] in Hp.
  destruct s1 as [|c r1]; [discriminate|]. cbn [len] in Hp.
  set (ip := if Ascii.eqb c "0" then Some ("0", r1)
             else if is_digit c
                  then let '(ds, r') := digits r1 in Some (String c ds, r')
                  else None).
  assert (Hip : forall a b, ip = Some (a, b) -> (len b <= len r1)%nat).
  { subst ip. intros a b. destruct (Ascii.eqb c "0"); [intros [= <- <-]; lia|].
    destruct (is_digit c); [|discriminate].
    pose proof (digits_le r1) as H. destruct (digits r1) as [ds r'].
    intros [= <- <-]. exact H. }
  destruct ip as [[a s2]|]; [|discriminate].
  specialize (Hip _ _ eq_refl).
  set (fp := match s2 with
             | String "."%char r0 =>
                 match digits1 r0 with
                 | Some (ds, r') => Some (String "." ds, r')
                 | None => None
                 end
             | _ => Some ("", s2)
             end).
  assert (Hfp : forall a b, fp = Some (a, b) -> (len b <= len s2)%nat).
  { subst fp. intros x y. destruct s2 as [|d r0]; [intros [= <- <-]; lia|].
    destruct d as [[] [] [] [] [] [] [] []]; try (intros [= <- <-]; lia).
    destruct (digits1 r0) as [[ds r']|] eqn:E; [|discriminate].
    apply digits1_le in E. intros [= <- <-]. cbn [len]. lia. }
  destruct fp as [[b s3]|]; [|discriminate].
  specialize (Hfp _ _ eq_refl).
  set (ep := match s3 with
             | String e r0 => _
             | EmptyString => Some ("", s3)
             end).
  assert (Hep : forall a b, ep = Some (a, b) -> (len b <= len s3)%nat).
  { subst ep. intros x y. destruct s3 as [|e r0]; [intros [= <- <-]; lia|].
    destruct (Ascii.eqb e "e" || Ascii.eqb e "E"); [|intros [= <- <-]; lia].
    set (q := match r0 with
              | String g r' =>
                  if Ascii.eqb g "+" || Ascii.eqb g "-"
                  then (String g "", r') else ("", r0)
              | EmptyString => ("", r0)
              end).
    assert (Hq : (len (snd q) <= len r0)%nat).
    { subst q. destruct r0 as [|g r']; [cbn; lia|].
      destruct (Ascii.eqb g "+" || Ascii.eqb g "-"); cbn [snd len]; lia. }
    destruct q as [sg r2]. cbn [snd] in Hq.
    destruct (digits1 r2) as [[ds r']|] eqn:E; [|discriminate].
    apply digits1_le in E. intros [= <- <-]. cbn [len]. lia. }
  destruct ep as [[x s4]|]; [|discriminate].
  specialize (Hep _ _ eq_refl).
  intros [= <- <-]. lia.
Qed.

Lemma strip_prefix_le (p s r : string) :
  strip_prefix p s = Some r -> (len r <= len s)%nat.
Proof.
  revert s. induction p as [|a p IH]; intros [|b s]; cbn [strip_prefix];
    try discriminate; try (intros [= <-]; lia).
  destruct (Ascii.eqb a b); [|discriminate].
  intros H. apply IH in H. cbn [len]. lia.
Qed.

Ltac need_fuel g :=
  destruct g as [|g]; [exfalso; lia|].

Lemma value_step (f : nat) :
  elements_stable f -> members_stable f -> value_stable (S f).
Proof.
  intros He Hm s v r. cbn [parse_value].
  destruct (skip_ws s) as [|c r0] eqn:Es; [discriminate|].
  pose proof (skip_ws_cons _ _ _ Es) as L0.
  destruct (Ascii.eqb c dquote) eqn:E1.
  { destruct (string_body r0) as [[t r']|] eqn:Eb; [|discriminate].
    intros [= <- <-]. pose proof (string_body_lt _ _ _ Eb).
    split; [lia|]. intros g Hg. need_fuel g.
    cbn [parse_value]. now rewrite Es, E1, Eb. }
  destruct (Ascii.eqb c "[") eqn:E2.
  { destruct (skip_ws r0) as [|d r1] eqn:Er; [discriminate|].
    pose proof (skip_ws_cons _ _ _ Er) as L1.
    destruct (Ascii.eqb d "]") eqn:E3.
    - intros [= <- <-]. split; [lia|]. intros g Hg. need_fuel g.
      cbn [parse_value]. now rewrite Es, E1, E2, Er, E3.
    - intros H. apply He in H as [L H]. split; [lia|].
      intros g Hg. need_fuel g.
      cbn [parse_value]. rewrite Es, E1, E2, Er, E3. apply H. lia. }
  destruct (Ascii.eqb c "{") eqn:E3.
  { destruct (skip_ws r0) as [|d r1] eqn:Er; [discriminate|].
    pose proof (skip_ws_cons _ _ _ Er) as L1.
    destruct (Ascii.eqb d "}") eqn:E4.
    - intros [= <- <-]. split; [lia|]. intros g Hg. need_fuel g.
      cbn [parse_value]. now rewrite Es, E1, E2, E3, Er, E4.
    - intros H. apply Hm in H as [L H]. split; [lia|].
      intros g Hg. need_fuel g.
      cbn [parse_value]. rewrite Es, E1, E2, E3, Er, E4. apply H. lia. }
  destruct (Ascii.eqb c "t") eqn:E4.
  { destruct (strip_prefix "rue" r0) as [r'|] eqn:Ep; [|discriminate].
    intros [= <- <-]. pose proof (strip_prefix_le _ _ _ Ep).
    split; [lia|]. intros g Hg. need_fuel g.
    cbn [parse_value]. now rewrite Es, E1, E2, E3, E4, Ep. }
  destruct (Ascii.eqb c "f") eqn:E5.
  { destruct (strip_prefix "alse" r0) as [r'|] eqn:Ep; [|discriminate].
    intros [= <- <-]. pose proof (strip_prefix_le _ _ _ Ep).
    split; [lia|]. intros g Hg. need_fuel g.
    cbn [parse_value]. now rewrite Es, E1, E2, E3, E4, E5, Ep. }
  destruct (Ascii.eqb c "n") eqn:E6.
  { destruct (strip_prefix "ull" r0) as [r'|] eqn:Ep; [|discriminate].
    intros [= <- <-]. pose proof (strip_prefix_le _ _ _ Ep).
    split; [lia|]. intros g Hg. need_fuel g.
    cbn [parse_value]. now rewrite Es, E1, E2, E3, E4, E5, E6, Ep. }
  destruct (number (String c r0)) as [[lexeme r']|] eqn:En; [|discriminate].
  intros [= <- <-]. pose proof (number_lt _ _ _ En) as L. cbn [len] in L.
  split; [lia|]. intros g Hg. need_fuel g.
  cbn [parse_value]. now rewrite Es, E1, E2, E3, E4, E5, E6, En.
Qed.

Lemma elements_step (f : nat) :
  value_stable f -> elements_stable f -> elements_stable (S f).
Proof.
  intros Hv He s acc v r. cbn [parse_elements].
  destruct (parse_value f s) as [[v1 r1]|] eqn:E1; [|discriminate].
  apply Hv in E1 as [L1 E1].
  destruct (skip_ws r1) as [|c r2] eqn:Es; [discriminate|].
  pose proof (skip_ws_cons _ _ _ Es) as L2.
  destruct (Ascii.eqb c ",") eqn:Ec.
  - intros H. apply He in H as [L H]. split; [lia|].
    intros g Hg. need_fuel g. cbn [parse_elements].
    rewrite E1 by lia. rewrite Es, Ec. apply H. lia.
  - destruct (Ascii.eqb c "]") eqn:Ed; [|discriminate].
    intros [= <- <-]. split; [lia|].
    intros g Hg. need_fuel g. cbn [parse_elements].
    rewrite E1 by lia. now rewrite Es, Ec, Ed.
Qed.

Lemma members_step (f : nat) :
  value_stable f -> members_stable f -> members_stable (S f).
Proof.
  intros Hv Hm s acc v r. cbn [parse_members].
  destruct (skip_ws s) as [|q r0] eqn:Es; [discriminate|].
  pose proof (skip_ws_cons _ _ _ Es) as L0.
  destruct (Ascii.eqb q dquote) eqn:Eq; [|discriminate].
  destruct (string_body r0) as [[k r1]|] eqn:Ek; [|discriminate].
  pose proof (string_body_lt _ _ _ Ek) as L1.
  destruct (skip_ws r1) as [|d r2] eqn:Er; [discriminate|].
  pose proof (skip_ws_cons _ _ _ Er) as L2.
  destruct (Ascii.eqb d ":") eqn:Ed; [|discriminate].
  destruct (parse_value f r2) as [[v1 r3]|] eqn:E1; [|discriminate].
  apply Hv in E1 as [L3 E1].
  destruct (skip_ws r3) as [|c r4] eqn:Es'; [discriminate|].
  pose proof (skip_ws_cons _ _ _ Es') as L4.
  destruct (Ascii.eqb c ",") eqn:Ec.
  - intros H. apply Hm in H as [L H]. split; [lia|].
    intros g Hg. need_fuel g. cbn [parse_members].
    rewrite Es, Eq, Ek, Er, Ed. rewrite E1 by lia. rewrite Es', Ec. apply H. lia.
  - destruct (Ascii.eqb c "}") eqn:Ee; [|discriminate].
    intros [= <- <-]. split; [lia|].
    intros g Hg. need_fuel g. cbn [parse_members].
    rewrite Es, Eq, Ek, Er, Ed. rewrite E1 by lia. now rewrite Es', Ec, Ee.
Qed.

Lemma all_stable (f : nat) : value_stable f /\ elements_stable f /\ members_stable f.
Proof.
  induction f as [|f (Hv & He & Hm)].
  - split; [|split]; intro; intros; discriminate.
  - split; [now apply value_step|].
    split; [now apply elements_step | now apply members_step].
Qed.

(** [JSON.parse] gives the value whenever some amount of fuel does. *)
Lemma parse_fuel_enough (f : nat) (s : string) (v : value) (r : string) :
  parse_value f s = Some (v, r) -> skip_ws r = "" -> parse s = Some v.
Proof.
  intros H Hr. destruct (all_stable f) as [Hv _].
  apply Hv in H as [_ H]. unfold parse. rewrite H by lia. now rewrite Hr.
Qed.

Lemma string_body_escape_char (c : ascii) (r : string) :
  string_body (escape_char c ++ r) = prepend (String c "") (string_body r).
Proof.
  destruct c as [[] [] [] [] [] [] [] []]; reflexivity.
Qed.

Lemma string_body_escape (s r : string) :
  string_body (escape s ++ String dquote r) = Some (s, r).
Proof.
  induction s as [|c s IH].
  - reflexivity.
  - cbn [escape]. rewrite StrFacts.append_assoc, string_body_escape_char, IH.
    reflexivity.
Qed.

Lemma string_body_quote (s r : string) :
  exists body, quote s ++ r = String dquote body /\ string_body body = Some (s, r).
Proof.
  exists (escape s ++ String dquote r). split.
  - unfold quote. cbn [append]. f_equal. rewrite StrFacts.append_assoc. reflexivity.
  - apply string_body_escape.
Qed.

Lemma parse_value_string (fuel : nat) (body : string) :
  parse_value (S fuel) (String dquote body)
  = match string_body body with
    | Some (t, r) => Some (JString t, r)
    | None => None
    end.
Proof. reflexivity. Qed.

Lemma parse_value_array_of_string (fuel : nat) (body : string) :
  parse_value (S fuel) (String "[" (String dquote body))
  = parse_elements fuel (String dquote body) [].
Proof. reflexivity. Qed.

Lemma parse_elements_comma (fuel : nat) (s r : string) (v : value) (acc : list value) :
  parse_value fuel s = Some (v, String "," r) ->
  parse_elements (S fuel) s acc = parse_elements fuel r (v :: acc).
Proof. intros H. cbn [parse_elements]. rewrite H. reflexivity. Qed.

Lemma parse_elements_close (fuel : nat) (s r : string) (v : value) (acc : list value) :
  parse_value fuel s = Some (v, String "]" r) ->
  parse_elements (S fuel) s acc = Some (JArray (rev (v :: acc)), r).
Proof. intros H. cbn [parse_elements]. rewrite H. reflexivity. Qed.

Lemma parse_value_strings2 (fuel : nat) (a b : string) :
  parse_value (4 + fuel) (stringify_strings [a; b])
  = Some (JArray [JString a; JString b], "").
Proof.
  unfold stringify_strings. cbn [map join].
  destruct (string_body_quote b "]") as (bb & Eb & Hb).
  destruct (string_body_quote a ("," ++ quote b ++ "]")) as (ba & Ea & Ha).
  replace ("[" ++ (quote a ++ "," ++ quote b) ++ "]")
    with (String "[" (String dquote ba)).
  2:{ rewrite <- Ea. cbn [append]. f_equal. now rewrite !StrFacts.append_assoc. }
  change (4 + fuel)%nat with (S (S (S (S fuel)))).
  rewrite parse_value_array_of_string.
  rewrite (parse_elements_comma _ _ (quote b ++ "]") (JString a)).
  2:{ rewrite parse_value_string, Ha. reflexivity. }
  rewrite Eb.
  rewrite (parse_elements_close _ _ "" (JString b)).
  2:{ rewrite parse_value_string, Hb. reflexivity. }
  reflexivity.
Qed.

Lemma parse_stringify_strings2 (a b : string) :
  parse (stringify_strings [a; b]) = Some (JArray [JString a; JString b]).
Proof.
  unfold parse.
  assert (E : exists n, (2 * String.length (stringify_strings [a; b]) + 2 = 4 + n)%nat).
  { unfold stringify_strings. cbn [append String.length].
    set (k := String.length _). exists (2 * k)%nat. lia. }
  destruct E as [n ->]. rewrite parse_value_strings2. reflexivity.
Qed.

End JsonFacts.

(** ** The cursor token *)

Module CursorFacts.
Import JsDate Prisma OrderRepository.

Lemma toString_base64_nonempty (c : ascii) (r : string) :
  exists c' r', Buffer.toString_base64 (String c r) = String c' r'.
Proof. destruct r as [|b [|d r]]; cbn [Buffer.toString_base64]; eauto. Qed.

Lemma encodeCursor_nonempty (t : Z) (i : string) :
  exists c r, encodeCursor t i = String c r.
Proof.
  unfold encodeCursor, Json.stringify_strings. cbn [append].
  apply toString_base64_nonempty.
Qed.

Lemma decode_encode (t : Z) (i : string) :
  Z.abs t <= maxTime ->
  decodeCursor (encodeCursor t i) = Some (ValidDate t, OpString i).
Proof.
  intros Ht. unfold decodeCursor, encodeCursor.
  rewrite BufferFacts.from_base64_toString.
  rewrite JsonFacts.parse_stringify_strings2.
  cbn [property nth_error Date_of_value Operand_of_value].
  rewrite JsDateFacts.Date_of_toISOString by exact Ht.
  reflexivity.
Qed.

End CursorFacts.

(** C5.  Decoding the token of a position gives the position back: for the
    time value [t] of a valid date and any id [i], what the search path reads
    off [encodeCursor t i] is the date [t] and the string [i]. *)
Theorem decode_encode_cursor (t : Z) (i : string) :
  Z.abs t <= JsDate.maxTime ->
  OrderRepository.decodeCursor (OrderRepository.encodeCursor t i)
  = Some (JsDate.ValidDate t, Prisma.OpString i).
Proof. exact (CursorFacts.decode_encode t i). Qed.

Lemma decode_encode_cursor_witness :
  Z.abs 1700000000123 <= JsDate.maxTime
  /\ OrderRepository.decodeCursor
       (OrderRepository.encodeCursor 1700000000123 "cm3order0001")
     = Some (JsDate.ValidDate 1700000000123, Prisma.OpString "cm3order0001").
Proof.
  split.
  - unfold JsDate.maxTime. simpl. lia.
  - apply (decode_encode_cursor 1700000000123 "cm3order0001").
    unfold JsDate.maxTime. simpl. lia.
Defined.

Import JsDate Prisma OrderRepository OrderLookups.

(** ** Filters and ordering *)

Module PrismaFacts.
Import JsDate Prisma OrderRepository.

Lemma spread_empty (w : WhereInput) : spread w empty_where = w.
Proof. destruct w; reflexivity. Qed.

Lemma valid_where_build (shop : string) (st : option OrderStatus)
  (r : option (Date * Date)) (term : option string) :
  valid_where (build_where shop st r term) = valid_dates r.
Proof.
  destruct r as [[[t1|] [t2|]]|], term as [[|c s]|]; reflexivity.
Qed.

Lemma refusal_accepted (w : WhereInput) :
  refusal w = None <-> accepted w = true.
Proof.
  unfold refusal, refusal_of, accepted.
  destruct (valid_where w), (readable_where w); cbn; split; congruence.
Qed.

Lemma accepted_build (shop : string) (st : option OrderStatus)
  (r : option (Date * Date)) (term : option string) :
  accepted (build_where shop st r term) = accepted_dates r.
Proof.
  unfold accepted.
  destruct r as [[[t1|] [t2|]]|], term as [[|c s]|]; cbn;
    rewrite ?andb_true_r; reflexivity.
Qed.

Lemma refusal_build (shop : string) (st : option OrderStatus)
  (r : option (Date * Date)) (term : option string) :
  accepted_dates r = true -> refusal (build_where shop st r term) = None.
Proof. intros H. apply refusal_accepted. now rewrite accepted_build. Qed.

(** The text condition on plain ASCII text.  A pattern [%] takes any text;
    a term without [%], [_] and backslash, followed by [%], asks for a
    prefix; between two [%] it asks for containment. *)
Lemma like_any (text : string) : like (String percent "") text = true.
Proof.
  cbn [like]. rewrite Ascii.eqb_refl.
  induction text as [|c r IH].
  - reflexivity.
  - rewrite IH. apply orb_true_r.
Qed.

Lemma like_plain (p text : string) :
  plain_text p = true ->
  like (p ++ String percent "") text = String.prefix p text.
Proof.
  revert text. induction p as [|a p IH]; intros text Hp.
  - cbn [append]. rewrite like_any. now destruct text.
  - cbn [plain_text] in Hp. apply andb_true_iff in Hp as [Ha Hp].
    unfold plain_char in Ha. apply negb_true_iff in Ha.
    apply orb_false_iff in Ha as [Ha E3]. apply orb_false_iff in Ha as [E1 E2].
    cbn [append like]. rewrite E1, E2, E3.
    destruct text as [|c r]; [reflexivity|].
    cbn [String.prefix]. rewrite IH by exact Hp.
    destruct (Ascii.eqb_spec a c) as [->|Hne].
    + destruct (ascii_dec c c); [reflexivity | contradiction].
    + destruct (ascii_dec a c); [contradiction | reflexivity].
Qed.

Lemma like_contains (p text : string) :
  plain_text p = true -> ascii_text text = true ->
  like (String percent (p ++ String percent "")) text = is_substring p text.
Proof.
  intros Hp. cbn [like]. rewrite Ascii.eqb_refl.
  induction text as [|c r IH]; intros Ht.
  - cbn [at_boundary is_substring andb]. rewrite like_plain by exact Hp.
    now rewrite orb_false_r.
  - cbn [ascii_text] in Ht. apply andb_true_iff in Ht as [Hc Hr].
    cbn [is_substring]. rewrite <- IH by exact Hr.
    rewrite like_plain by exact Hp.
    unfold at_boundary, continuation.
    replace (128 <=? Str.code c) with false by (symmetry; lia).
    reflexivity.
Qed.

Lemma lower_plain (c : ascii) : plain_char (lower c) = plain_char c.
Proof. destruct c as [[] [] [] [] [] [] [] []]; reflexivity. Qed.

Lemma lower_ascii (c : ascii) : (Str.code (lower c) <? 128) = (Str.code c <? 128).
Proof. destruct c as [[] [] [] [] [] [] [] []]; reflexivity. Qed.

Lemma to_lower_plain (s : string) : plain_text (to_lower s) = plain_text s.
Proof.
  induction s as [|c r IH]; cbn [to_lower plain_text]; [reflexivity|].
  now rewrite lower_plain, IH.
Qed.

Lemma to_lower_ascii (s : string) : ascii_text (to_lower s) = ascii_text s.
Proof.
  induction s as [|c r IH]; cbn [to_lower ascii_text]; [reflexivity|].
  now rewrite lower_ascii, IH.
Qed.

Lemma to_lower_app (a b : string) : to_lower (a ++ b) = to_lower a ++ to_lower b.
Proof.
  induction a as [|c r IH]; cbn [to_lower append]; [reflexivity | now rewrite IH].
Qed.

(** For a search term without [%], [_] and backslash and an ASCII text, the
    text condition is containment without regard to case. *)
Lemma contains_plain (needle hay : string) :
  plain_text needle = true -> ascii_text hay = true ->
  contains_insensitive needle hay = is_substring (to_lower needle) (to_lower hay).
Proof.
  intros Hn Hh. unfold contains_insensitive, ilike.
  cbn [to_lower]. rewrite to_lower_app. cbn [to_lower].
  change (lower percent) with percent.
  apply like_contains; [now rewrite to_lower_plain | now rewrite to_lower_ascii].
Qed.

Lemma insert_perm (ob : list (OrderField * SortOrder)) (x : Order) (l : list Order) :
  Permutation (insert ob x l) (x :: l).
Proof.
  induction l as [|y l IH]; cbn [insert].
  - apply Permutation_refl.
  - destruct (precedes ob y x).
    + apply perm_trans with (y :: x :: l).
      * now apply perm_skip.
      * apply perm_swap.
    + apply Permutation_refl.
Qed.

Lemma sort_perm (ob : list (OrderField * SortOrder)) (l : list Order) :
  Permutation (sort ob l) l.
Proof.
  induction l as [|x l IH]; cbn [sort fold_right].
  - apply perm_nil.
  - apply perm_trans with (x :: sort ob l).
    + apply insert_perm.
    + now apply perm_skip.
Qed.

Lemma precedes_created_desc (a b : Order) :
  precedes [(By_created_at, desc)] a b = (created_at b <? created_at a).
Proof.
  cbn [precedes field_compare].
  destruct (Z.compare_spec (created_at a) (created_at b)) as [E|E|E];
    symmetry; [apply Z.ltb_ge | apply Z.ltb_ge | apply Z.ltb_lt]; lia.
Qed.

Lemma insert_newer_first (x : Order) (l : list Order) :
  StronglySorted newer_first l ->
  StronglySorted newer_first (insert [(By_created_at, desc)] x l).
Proof.
  induction 1 as [|y l Hs IH Hy]; cbn [insert].
  - constructor; [constructor | constructor].
  - rewrite precedes_created_desc.
    destruct (created_at x <? created_at y) eqn:E.
    + apply Z.ltb_lt in E. constructor; [exact IH|].
      apply Forall_forall. intros z Hz.
      apply (Permutation_in _ (insert_perm _ x l)) in Hz.
      destruct Hz as [<-|Hz]; [unfold newer_first; lia|].
      revert z Hz. now apply Forall_forall.
    + apply Z.ltb_ge in E. constructor.
      * now constructor.
      * constructor; [exact E|].
        apply Forall_forall. intros z Hz. unfold newer_first in *.
        assert (created_at z <= created_at y); [|lia].
        revert z Hz. now apply Forall_forall.
Qed.

Lemma sort_newer_first (l : list Order) :
  StronglySorted newer_first (sort [(By_created_at, desc)] l).
Proof.
  induction l as [|x l IH]; cbn [sort fold_right].
  - constructor.
  - now apply insert_newer_first.
Qed.

Lemma removelast_firstn_le {A : Type} (n : nat) (l : list A) :
  List.length l = Datatypes.S n -> removelast l = firstn n l.
Proof.
  intros H. rewrite removelast_firstn_len, H. reflexivity.
Qed.

End PrismaFacts.

(** ** The ordering of the search path *)

Module OrderingFacts.

Lemma ascii_compare_trans (a b c : ascii) :
  Ascii.compare a b = Lt -> Ascii.compare b c = Lt -> Ascii.compare a c = Lt.
Proof.
  unfold Ascii.compare. rewrite !N.compare_lt_iff. lia.
Qed.

Lemma string_compare_refl (s : string) : String.compare s s = Eq.
Proof.
  induction s as [|c s IH]; [reflexivity|]. cbn [String.compare].
  unfold Ascii.compare. now rewrite N.compare_refl.
Qed.

Lemma string_lt_trans (s1 s2 s3 : string) :
  String.compare s1 s2 = Lt -> String.compare s2 s3 = Lt ->
  String.compare s1 s3 = Lt.
Proof.
  revert s2 s3. induction s1 as [|a s1 IH]; intros [|b s2] [|c s3]; cbn [String.compare];
    try discriminate; try reflexivity.
  destruct (Ascii.compare a b) eqn:Eab; try discriminate;
    destruct (Ascii.compare b c) eqn:Ebc; try discriminate; intros H1 H2.
  - apply Ascii.compare_eq_iff in Eab, Ebc. subst.
    unfold Ascii.compare. rewrite N.compare_refl. now apply (IH s2).
  - apply Ascii.compare_eq_iff in Eab. subst. now rewrite Ebc.
  - apply Ascii.compare_eq_iff in Ebc. subst. now rewrite Eab.
  - now rewrite (ascii_compare_trans a b c).
Qed.

Lemma string_ltb_trans (s1 s2 s3 : string) :
  String.ltb s1 s2 = true -> String.ltb s2 s3 = true -> String.ltb s1 s3 = true.
Proof.
  unfold String.ltb. intros H1 H2.
  destruct (String.compare s1 s2) eqn:E1; try discriminate.
  destruct (String.compare s2 s3) eqn:E2; try discriminate.
  now rewrite (string_lt_trans _ _ _ E1 E2).
Qed.

Lemma string_ltb_irrefl (s : string) : String.ltb s s = false.
Proof. unfold String.ltb. now rewrite string_compare_refl. Qed.

Lemma string_ltb_total (s1 s2 : string) :
  String.ltb s1 s2 = false -> String.ltb s2 s1 = false -> s1 = s2.
Proof.
  unfold String.ltb. rewrite (String.compare_antisym s2 s1).
  destruct (String.compare s1 s2) eqn:E; cbn; try discriminate.
  intros _ _. now apply String.compare_eq_iff.
Qed.

(** The ordering of the search path puts [a] before [b] exactly when the
    pair of [a] is the greater. *)
Lemma precedes_key (a b : Order) :
  precedes [(By_created_at, desc); (By_id, desc)] a b = key_gt a b.
Proof.
  unfold key_gt. cbn [precedes field_compare].
  destruct (Z.compare_spec (created_at a) (created_at b)) as [E|E|E].
  - rewrite E, Z.ltb_irrefl, Z.eqb_refl. cbn [orb andb].
    unfold String.ltb. rewrite (String.compare_antisym (id b) (id a)).
    destruct (String.compare (id a) (id b)); reflexivity.
  - replace (created_at b <? created_at a) with false by (symmetry; lia).
    replace (created_at a =? created_at b) with false by (symmetry; lia).
    reflexivity.
  - replace (created_at b <? created_at a) with true by (symmetry; lia).
    reflexivity.
Qed.

Lemma key_gt_trans (a b c : Order) :
  key_gt a b = true -> key_gt b c = true -> key_gt a c = true.
Proof.
  unfold key_gt. intros H1 H2.
  apply orb_true_iff in H1, H2. apply orb_true_iff.
  destruct H1 as [H1|H1], H2 as [H2|H2];
    rewrite ?andb_true_iff, ?Z.ltb_lt, ?Z.eqb_eq in *.
  - left. lia.
  - left. lia.
  - left. lia.
  - right. split; [lia|]. destruct H1, H2. now apply (string_ltb_trans _ (id b)).
Qed.

Lemma key_gt_irrefl (a : Order) : key_gt a a = false.
Proof.
  unfold key_gt. now rewrite Z.ltb_irrefl, Z.eqb_refl, string_ltb_irrefl.
Qed.

Lemma key_total (a b : Order) :
  key_gt a b = false -> key_gt b a = false ->
  created_at a = created_at b /\ id a = id b.
Proof.
  unfold key_gt. intros H1 H2.
  apply orb_false_iff in H1 as [H1 H1'], H2 as [H2 H2'].
  apply Z.ltb_ge in H1, H2.
  assert (E : created_at a = created_at b) by lia.
  rewrite E, Z.eqb_refl in *. cbn [andb] in *.
  split; [reflexivity|]. symmetry. now apply string_ltb_total.
Qed.

Lemma key_ge_trans (a b c : Order) : key_ge a b -> key_ge b c -> key_ge a c.
Proof.
  unfold key_ge. intros H1 H2.
  destruct (key_gt c a) eqn:E; [|reflexivity]. exfalso.
  destruct (key_gt b c) eqn:Ebc.
  - rewrite (key_gt_trans b c a Ebc E) in H1. discriminate.
  - destruct (key_total _ _ H2 Ebc) as [Ht Hi].
    assert (key_gt b a = true); [|congruence].
    revert E. unfold key_gt. now rewrite Ht, Hi.
Qed.

Lemma insert_by_key (x : Order) (l : list Order) :
  StronglySorted key_ge l ->
  StronglySorted key_ge (insert [(By_created_at, desc); (By_id, desc)] x l).
Proof.
  induction 1 as [|y l Hs IH Hy]; cbn [insert].
  - constructor; [constructor | constructor].
  - rewrite precedes_key.
    destruct (key_gt y x) eqn:E.
    + constructor; [exact IH|].
      apply Forall_forall. intros z Hz.
      apply (Permutation_in _ (PrismaFacts.insert_perm _ x l)) in Hz.
      destruct Hz as [<-|Hz].
      * unfold key_ge. destruct (key_gt x y) eqn:E'; [|reflexivity].
        pose proof (key_gt_trans _ _ _ E E') as F.
        rewrite key_gt_irrefl in F. discriminate.
      * revert z Hz. now apply Forall_forall.
    + constructor.
      * now constructor.
      * constructor; [exact E|].
        apply Forall_forall. intros z Hz.
        apply (key_ge_trans x y z); [exact E|].
        revert z Hz. now apply Forall_forall.
Qed.

Lemma sort_by_key (l : list Order) :
  StronglySorted key_ge (sort [(By_created_at, desc); (By_id, desc)] l).
Proof.
  induction l as [|x l IH]; cbn [sort fold_right].
  - constructor.
  - now apply insert_by_key.
Qed.

End OrderingFacts.

Module SearchOrderFacts.
Import OrderingFacts.

Lemma firstn_In {A : Type} (n : nat) (l : list A) (x : A) :
  In x (firstn n l) -> In x l.
Proof.
  revert n. induction l as [|y l IH]; intros [|n]; cbn [firstn In]; try tauto.
  intros [H|H]; [now left | right; now apply (IH n)].
Qed.

Lemma sorted_firstn {A : Type} (R : A -> A -> Prop) (n : nat) (l : list A) :
  StronglySorted R l -> StronglySorted R (firstn n l).
Proof.
  intros H. revert n. induction H as [|x l Hs IH Hx]; intros [|n]; cbn [firstn];
    try constructor.
  - apply IH.
  - apply Forall_forall. intros z Hz. apply firstn_In in Hz.
    revert z Hz. now apply Forall_forall.
Qed.

Lemma sorted_strict (l : list Order) :
  NoDup (map id l) -> StronglySorted key_ge l -> StronglySorted key_above l.
Proof.
  intros Hnd Hs. induction Hs as [|x l Hs IH Hx]; [constructor|].
  cbn [map] in Hnd. apply NoDup_cons_iff in Hnd as [Hnotin Hnd].
  constructor; [now apply IH|].
  apply Forall_forall. intros z Hz.
  assert (Hge : key_ge x z) by (revert z Hz; now apply Forall_forall).
  unfold key_above. destruct (key_gt x z) eqn:E; [reflexivity|]. exfalso.
  destruct (key_total _ _ E Hge) as [_ Hid].
  apply Hnotin. rewrite Hid. now apply in_map.
Qed.

Lemma NoDup_ids_filter (f : Order -> bool) (l : list Order) :
  NoDup (map id l) -> NoDup (map id (filter f l)).
Proof.
  induction l as [|x l IH]; cbn [map filter]; [auto|].
  intros H. apply NoDup_cons_iff in H as [Hnotin Hnd].
  destruct (f x); [|now apply IH].
  cbn [map]. constructor; [|now apply IH].
  intros Hin. apply Hnotin. apply in_map_iff in Hin as (y & Hy & Hin).
  apply filter_In in Hin as [Hin _]. apply in_map_iff. eauto.
Qed.

(** The rows of one page of the search path are strictly decreasing in
    [(created_at, id)], ids being unique. *)
Lemma search_page_decreasing (db : Db) (o : GetPaginatedOrdersOptions) (page : Page) :
  NoDup (map id (order_table db)) ->
  getPaginatedShopOrders_search db o = Ok page ->
  StronglySorted key_above (orders page).
Proof.
  intros Hnd. unfold getPaginatedShopOrders_search, findMany.
  cbn [where_ orderBy cursor skip take skipn].
  destruct (refusal (search_where o)); [discriminate|].
  set (rows := sort _ _).
  assert (Hrows : StronglySorted key_above rows).
  { apply sorted_strict; [|apply sort_by_key].
    apply (Permutation_NoDup
             (Permutation_map id (Permutation_sym (PrismaFacts.sort_perm _ _)))).
    now apply NoDup_ids_filter. }
  set (fetched := firstn (limit_of o + 1) rows).
  assert (Hf : StronglySorted key_above fetched) by now apply sorted_firstn.
  destruct (limit_of o <? List.length fetched)%nat.
  - destruct (at_index fetched (Z.of_nat (limit_of o) - 1)); [|discriminate].
    intros [= <-]. cbn [orders pop fst].
    rewrite removelast_firstn_len. now apply sorted_firstn.
  - intros [= <-]. exact Hf.
Qed.

(** The cursor a page of the search path carries is the token of its last
    row. *)
Lemma search_cursor_of_last_row (db : Db) (o : GetPaginatedOrdersOptions)
  (page : Page) (c : string) :
  getPaginatedShopOrders_search db o = Ok page ->
  nextCursor page = Some c ->
  exists x, nth_error (orders page) (List.length (orders page) - 1) = Some x
            /\ c = encodeCursor (created_at x) (id x).
Proof.
  unfold getPaginatedShopOrders_search.
  destruct (findMany db _) as [fetched|e] eqn:Ef; [|discriminate].
  assert (Hlen : (List.length fetched <= limit_of o + 1)%nat).
  { revert Ef. unfold findMany. destruct (refusal _); [discriminate|].
    intros [= <-]. cbn [take]. apply firstn_le_length. }
  destruct (limit_of o <? List.length fetched)%nat eqn:E.
  2:{ intros [= <-]. discriminate. }
  apply Nat.ltb_lt in E.
  unfold at_index.
  destruct (Z.of_nat (limit_of o) - 1 <? 0) eqn:Eneg; [discriminate|].
  apply Z.ltb_ge in Eneg.
  destruct (nth_error fetched (Z.to_nat (Z.of_nat (limit_of o) - 1))) as [x|] eqn:Ex;
    [|discriminate].
  intros [= <-]. cbn [orders nextCursor pop fst]. intros [= <-].
  exists x. split; [|reflexivity].
  rewrite removelast_firstn_len.
  assert (Hl : List.length fetched = Datatypes.S (limit_of o)) by lia.
  rewrite Hl. cbn [pred].
  rewrite length_firstn, Hl, Nat.min_l by lia.
  rewrite nth_error_firstn.
  replace (Z.to_nat (Z.of_nat (limit_of o) - 1)) with (limit_of o - 1)%nat in Ex by lia.
  destruct (limit_of o - 1 <? limit_of o)%nat eqn:El; [exact Ex|].
  apply Nat.ltb_ge in El. lia.
Qed.

(** Every row of the page asked for with the token of [(t, i)] comes
    strictly after that position. *)
Lemma search_page_after_cursor (db : Db) (o : GetPaginatedOrdersOptions)
  (t : Z) (i : string) (page : Page) (y : Order) :
  Z.abs t <= maxTime ->
  getPaginatedShopOrders_search db (with_cursor o (Some (encodeCursor t i))) = Ok page ->
  In y (orders page) ->
  (created_at y <? t) || ((created_at y =? t) && String.ltb (id y) i) = true.
Proof.
  intros Ht. unfold getPaginatedShopOrders_search, findMany.
  cbn [where_ orderBy cursor skip take skipn].
  destruct (refusal _); [discriminate|].
  set (w := search_where _).
  set (rows := sort _ _).
  assert (Hrows : forall z, In z rows ->
            (created_at z <? t) || ((created_at z =? t) && String.ltb (id z) i) = true).
  { intros z Hz.
    apply (Permutation_in z (PrismaFacts.sort_perm _ _)) in Hz.
    apply filter_In in Hz as [_ Hm]. revert Hm. subst w.
    unfold search_where. cbn [with_cursor opt_cursor opt_shop_id opt_orderStatus
      opt_dateRange opt_searchTerm].
    destruct (CursorFacts.encodeCursor_nonempty t i) as (c & r & Ec).
    unfold cursorCondition. rewrite Ec, <- Ec.
    rewrite (CursorFacts.decode_encode t i Ht).
    destruct (opt_dateRange o) as [[from to]|], (opt_searchTerm o) as [[|a s]|];
      cbn; rewrite ?andb_true_r, ?orb_false_r; intros Hm;
      apply andb_true_iff in Hm as [_ Hm];
      unfold matches_created_at, date_test in Hm; cbn in Hm;
      rewrite ?andb_true_r in Hm; exact Hm. }
  set (fetched := firstn (limit_of (with_cursor o _) + 1) rows).
  assert (Hf : forall z, In z fetched -> In z rows) by (intros z; apply firstn_In).
  destruct (limit_of _ <? List.length fetched)%nat.
  - destruct (at_index fetched _); [|discriminate].
    intros [= <-]. cbn [orders pop fst]. intros Hy.
    apply Hrows, Hf. rewrite removelast_firstn_len in Hy. now apply firstn_In in Hy.
  - intros [= <-]. cbn [orders]. intros Hy. now apply Hrows, Hf.
Qed.

End SearchOrderFacts.

(** ** The listing paths *)

(** C7.  Which path serves a request is decided by the search term alone:
    absent or empty, the request goes to [getPaginatedShopOrdersFromDB]
    (with the defaulted limit and without a search term); present and not
    empty, it goes to the search path.  Shop, limit, cursor, status and date
    range are passed on and never looked at for the choice. *)
Theorem strategy_chosen_by_search_term (db : Db) (o : GetPaginatedOrdersOptions) :
  getPaginatedShopOrders db o
  = match opt_searchTerm o with
    | Some (String _ _) => getPaginatedShopOrders_search db o
    | _ =>
        getPaginatedShopOrdersFromDB db
          {| opt_shop_id := opt_shop_id o;
             opt_limit := Some (limit_of o);
             opt_cursor := opt_cursor o;
             opt_searchTerm := None;
             opt_orderStatus := opt_orderStatus o;
             opt_dateRange := opt_dateRange o |}
    end.
Proof.
  unfold getPaginatedShopOrders.
  destruct (opt_searchTerm o) as [[|c r]|]; reflexivity.
Qed.

(** C1.  On the specification's own example (A and B at 10:00, C at 09:59,
    page size 2, no search term) the walk from an absent cursor ends after
    [A; B]: the first page hands out the id of C, the row it fetched in
    excess and dropped, and the second page starts after that row.  C
    matches the request and is never listed. *)
Theorem walk_misses_order_at_page_boundary :
  let o := Fixtures.request (Some 2%nat) None None in
  getPaginatedShopOrders Fixtures.example_db o
  = Ok {| orders := [Fixtures.A; Fixtures.B]; nextCursor := Some "9" |}
  /\ getPaginatedShopOrders Fixtures.example_db (with_cursor o (Some "9"))
     = Ok {| orders := []; nextCursor := None |}
  /\ walk 3 Fixtures.example_db o None = Some (Ok [Fixtures.A; Fixtures.B])
  /\ matching Fixtures.example_db o = [Fixtures.A; Fixtures.B; Fixtures.C].
Proof. vm_compute. repeat split. Qed.

(** C2.  Without a search term the rows are ordered by [created_at] alone:
    with B stored ahead of A (both created at 10:00) the page lists B, id
    "2", before A, id "3", so the pair of the first is not greater than the
    pair of the second. *)
Theorem page_without_search_term_ignores_id_order :
  getPaginatedShopOrders Fixtures.example_db'
    (Fixtures.request (Some 2%nat) None None)
  = Ok {| orders := [Fixtures.B; Fixtures.A]; nextCursor := Some "9" |}
  /\ key_gt Fixtures.B Fixtures.A = false.
Proof. vm_compute. split; reflexivity. Qed.

(** C4.  Without a search term a cursor that is no token and no order id
    does not give the first page: the page is empty, where the same request
    without a cursor lists A and B. *)
Theorem unknown_cursor_is_not_first_page :
  decodeCursor "not-a-cursor" = None
  /\ getPaginatedShopOrders Fixtures.example_db
       (Fixtures.request (Some 2%nat) (Some "not-a-cursor") None)
     = Ok {| orders := []; nextCursor := None |}
  /\ getPaginatedShopOrders Fixtures.example_db
       (Fixtures.request (Some 2%nat) None None)
     = Ok {| orders := [Fixtures.A; Fixtures.B]; nextCursor := Some "9" |}.
Proof. vm_compute. repeat split. Qed.

(** C6.  With a search term and the cursor of the first page, the condition
    of the cursor takes the place of the text condition (both sit under the
    key [OR]): searching "tea" after the position of the first tea order
    lists the pen order, which the text condition rejects. *)
Theorem cursor_replaces_text_condition :
  let c := encodeCursor 3000 "o3" in
  getPaginatedShopOrders Fixtures.stationery_db
    (Fixtures.request (Some 1%nat) None (Some "tea"))
  = Ok {| orders := [Fixtures.tea1]; nextCursor := Some c |}
  /\ getPaginatedShopOrders Fixtures.stationery_db
       (Fixtures.request (Some 1%nat) (Some c) (Some "tea"))
     = Ok {| orders := [Fixtures.pen2]; nextCursor := Some (encodeCursor 2000 "o2") |}
  /\ matching Fixtures.stationery_db (Fixtures.request (Some 1%nat) (Some c) (Some "tea"))
     = [Fixtures.tea1; Fixtures.tea3].
Proof. vm_compute. repeat split. Qed.

(** C3, as stated, fails on the specification's example, page size 2.
    The three rows come back, A and B are returned, and the cursor issued is
    "9", the plain id of C, not the token of the pair of B, the last row
    returned.  Given the token of the pair of A as cursor, the path looks for
    a row with that id and returns nothing, not the rows after A.  And with
    B stored ahead of A the page lists B, id "2", before A, id "3": the
    rows are not ordered by id within one [created_at]. *)
Lemma FromDB_is_not_token_paging :
  getPaginatedShopOrdersFromDB Fixtures.example_db
    (Fixtures.request (Some 2%nat) None None)
  = Ok {| orders := [Fixtures.A; Fixtures.B]; nextCursor := Some "9" |}
  /\ Some "9" <> Some (encodeCursor (created_at Fixtures.B) (id Fixtures.B))
  /\ getPaginatedShopOrdersFromDB Fixtures.example_db
       (Fixtures.request (Some 2%nat)
          (Some (encodeCursor (created_at Fixtures.A) (id Fixtures.A))) None)
     = Ok {| orders := []; nextCursor := None |}
  /\ getPaginatedShopOrdersFromDB Fixtures.example_db'
       (Fixtures.request (Some 2%nat) None None)
     = Ok {| orders := [Fixtures.B; Fixtures.A]; nextCursor := Some "9" |}
  /\ key_gt Fixtures.B Fixtures.A = false.
Proof. vm_compute. repeat split; discriminate. Qed.

Module ListingFacts.

(** The page of a request without search term, in full: the first [limit]
    rows fetched and, when there is one more, the id of that one. *)
Lemma FromDB_exact (db : Db) (o : GetPaginatedOrdersOptions) :
  truthy (opt_searchTerm o) = false ->
  refusal (build_where (opt_shop_id o) (opt_orderStatus o) (opt_dateRange o) None)
  = None ->
  getPaginatedShopOrders db o
  = Ok {| orders := firstn (limit_of o) (fetched_rows db o);
          nextCursor :=
            if (limit_of o <? List.length (fetched_rows db o))%nat
            then option_map id (nth_error (fetched_rows db o) (limit_of o))
            else None |}.
Proof.
  intros Hterm Hdates.
  unfold getPaginatedShopOrders. rewrite Hterm. cbn [negb].
  unfold getPaginatedShopOrdersFromDB, findMany.
  cbn [opt_shop_id opt_limit opt_cursor opt_searchTerm opt_orderStatus
       opt_dateRange limit_of take where_ orderBy cursor skip].
  rewrite Hdates.
  fold (limit_of o).
  set (candidates := sort _ _).
  assert (Hrows :
    firstn (limit_of o + 1)
      (skipn (if truthy (opt_cursor o) then 1 else 0)
         match (if truthy (opt_cursor o) then opt_cursor o else None) with
         | Some c => from_cursor c candidates
         | None => candidates
         end) = fetched_rows db o).
  { unfold fetched_rows. fold candidates.
    destruct (opt_cursor o) as [[|c r]|]; reflexivity. }
  rewrite Hrows. clear Hrows.
  destruct (limit_of o <? List.length (fetched_rows db o))%nat eqn:E.
  - apply Nat.ltb_lt in E.
    assert (Hlen : List.length (fetched_rows db o) = Datatypes.S (limit_of o)).
    { pose proof (firstn_le_length (limit_of o + 1)
                    match opt_cursor o with
                    | Some (String c r) => skipn 1 (from_cursor (String c r) candidates)
                    | _ => candidates
                    end) as Hl.
      change (firstn (limit_of o + 1) _) with (fetched_rows db o) in Hl. lia. }
    unfold pop. rewrite Hlen.
    rewrite (PrismaFacts.removelast_firstn_le (limit_of o)) by exact Hlen.
    replace (Datatypes.S (limit_of o) - 1)%nat with (limit_of o) by lia.
    reflexivity.
  - apply Nat.ltb_ge in E. now rewrite firstn_all2 by exact E.
Qed.

(** A request that the client or the engine refuses throws before any row
    is read. *)
Lemma FromDB_refused (db : Db) (o : GetPaginatedOrdersOptions) (e : Error) :
  truthy (opt_searchTerm o) = false ->
  refusal (build_where (opt_shop_id o) (opt_orderStatus o) (opt_dateRange o) None)
  = Some e ->
  getPaginatedShopOrders db o = Err e.
Proof.
  intros Hterm Hdates.
  unfold getPaginatedShopOrders. rewrite Hterm. cbn [negb].
  unfold getPaginatedShopOrdersFromDB, findMany.
  cbn [opt_shop_id opt_limit opt_cursor opt_searchTerm opt_orderStatus
       opt_dateRange limit_of take where_ orderBy cursor skip].
  now rewrite Hdates.
Qed.

End ListingFacts.

(** C3, amended.  For a request without a search term that the client
    takes (the dates of its date range, if it has one, valid and of a year
    from 0 to 9999; [limit + 1] an integer of 32 bits): the candidates are
    the orders passing the shop, status and date filters, newest first; the
    rows fetched are the first [limit + 1] candidates, counted from the start
    when the cursor is absent or empty and from just after the row whose id
    is the cursor otherwise.  The page holds the first [limit] rows fetched;
    when [limit + 1] rows were fetched it carries as cursor the id of one of
    them, and no cursor when fewer were. *)
Theorem FromDB_page (db : Db) (o : GetPaginatedOrdersOptions) :
  truthy (opt_searchTerm o) = false ->
  accepted_dates (opt_dateRange o) = true ->
  take_fits o = true ->
  let limit := limit_of o in
  let passing :=
    filter (matches db (build_where (opt_shop_id o) (opt_orderStatus o)
                          (opt_dateRange o) None)) (order_table db) in
  let candidates := sort [(By_created_at, desc)] passing in
  let start :=
    match opt_cursor o with
    | Some (String c r) => skipn 1 (from_cursor (String c r) candidates)
    | _ => candidates
    end in
  let fetched := firstn (limit + 1) start in
  Permutation candidates passing
  /\ StronglySorted newer_first candidates
  /\ exists page,
       getPaginatedShopOrders db o = Ok page
       /\ orders page = firstn limit fetched
       /\ (List.length fetched = (limit + 1)%nat ->
           exists x, In x fetched /\ nextCursor page = Some (id x))
       /\ ((List.length fetched <= limit)%nat -> nextCursor page = None).
Proof.
  intros Hterm Hdates _ limit passing candidates start fetched.
  split; [apply PrismaFacts.sort_perm|].
  split; [apply PrismaFacts.sort_newer_first|].
  eexists.
  split; [apply (ListingFacts.FromDB_exact db o Hterm), PrismaFacts.refusal_build,
          Hdates|].
  change (fetched_rows db o) with fetched. fold limit.
  cbn [orders nextCursor]. split; [reflexivity|]. split.
  - intros Hlen.
    replace (limit <? List.length fetched)%nat with true
      by (symmetry; apply Nat.ltb_lt; lia).
    destruct (nth_error fetched limit) as [x|] eqn:Ex.
    + exists x. split; [now apply nth_error_In in Ex | reflexivity].
    + apply nth_error_None in Ex. lia.
  - intros Hle.
    now replace (limit <? List.length fetched)%nat with false
      by (symmetry; apply Nat.ltb_ge; lia).
Qed.

Lemma FromDB_page_witness :
  exists page,
    getPaginatedShopOrders Fixtures.example_db
      (Fixtures.request (Some 2%nat) None None) = Ok page
    /\ orders page = [Fixtures.A; Fixtures.B].
Proof.
  destruct (FromDB_page Fixtures.example_db
              (Fixtures.request (Some 2%nat) None None))
    as (_ & _ & page & Hpage & Horders & _).
  - reflexivity.
  - reflexivity.
  - reflexivity.
  - exists page. split; [exact Hpage|]. rewrite Horders. reflexivity.
Defined.

Module SearchFacts.



Lemma first_page_where (o : GetPaginatedOrdersOptions) :
  truthy (opt_cursor o) = false ->
  search_where o
  = build_where (opt_shop_id o) (opt_orderStatus o) (opt_dateRange o)
      (opt_searchTerm o).
Proof.
  intros Hcursor. unfold search_where.
  destruct (opt_cursor o) as [[|c r]|]; try discriminate Hcursor;
    apply PrismaFacts.spread_empty.
Qed.

(** With the token of a position as cursor, the condition of the query is
    the shop, the status and the date range, and under [OR] the range after
    that position alone: the text conditions are gone. *)
Lemma where_after_cursor (o : GetPaginatedOrdersOptions) (t : Z) (i : string) :
  Z.abs t <= maxTime ->
  search_where (with_cursor o (Some (encodeCursor t i)))
  = MkWhere (Some (opt_shop_id o)) (opt_orderStatus o)
      (w_created_at
         (build_where (opt_shop_id o) (opt_orderStatus o) (opt_dateRange o) None))
      None None None None
      (Some [ created_at_lt (ValidDate t);
              AND_ [ created_at_equals (ValidDate t); id_lt (OpString i) ] ])
      None.
Proof.
  intros Ht. unfold search_where, cursorCondition.
  cbn [with_cursor opt_cursor opt_shop_id opt_orderStatus opt_dateRange
       opt_searchTerm].
  destruct (CursorFacts.encodeCursor_nonempty t i) as (c & r & Ec).
  rewrite Ec, <- Ec, (CursorFacts.decode_encode t i Ht).
  destruct (opt_orderStatus o), (opt_dateRange o) as [[from to]|],
    (opt_searchTerm o) as [[|a s]|]; reflexivity.
Qed.

End SearchFacts.




(** X25.  On the search path a cursor that cannot be decoded counts as no
    cursor: the call returns what it returns without one (the half of C4
    that holds). *)
Lemma search_ignores_undecodable_cursor (db : Db) (o : GetPaginatedOrdersOptions)
  (c : string) :
  truthy (opt_searchTerm o) = true ->
  decodeCursor c = None ->
  getPaginatedShopOrders db (with_cursor o (Some c))
  = getPaginatedShopOrders db (with_cursor o None).
Proof.
  intros Hterm Hc. unfold getPaginatedShopOrders.
  cbn [with_cursor opt_searchTerm]. rewrite Hterm. cbn [negb].
  unfold getPaginatedShopOrders_search, search_where, limit_of.
  cbn [with_cursor opt_shop_id opt_limit opt_cursor opt_searchTerm
       opt_orderStatus opt_dateRange].
  assert (E : cursorCondition (Some c) = cursorCondition None).
  { unfold cursorCondition. destruct c as [|a r]; [reflexivity|].
    now rewrite Hc. }
  now rewrite E.
Qed.

(** ** Status updates *)

Module UpdateFacts.

Lemma apply_update_id (d : OrderUpdate) (o : Order) : id (apply_update d o) = id o.
Proof. reflexivity. Qed.

Lemma apply_update_status (s : OrderStatus) (a : option string) (t : option Date)
  (o : Order) :
  order_status (apply_update (status_data s a t) o) = s.
Proof. reflexivity. Qed.

(** Writing the status alone a second time changes nothing. *)
Lemma apply_status_twice (s : OrderStatus) (o : Order) :
  let d := status_data s None None in
  apply_update d (apply_update d o) = apply_update d o.
Proof. reflexivity. Qed.

Lemma matches_id_in (db : Db) (ids : list string) (o : Order) :
  matches db (id_in ids) o = existsb (String.eqb (id o)) ids.
Proof. cbn. now rewrite !andb_true_r. Qed.

Lemma id_among (ids : list string) (i : string) :
  existsb (String.eqb i) ids = true <-> In i ids.
Proof.
  rewrite existsb_exists. split.
  - intros (k & Hk & E). apply String.eqb_eq in E. now subst.
  - intros H. exists i. split; [exact H | apply String.eqb_refl].
Qed.

Lemma find_unique (l : list Order) (o : Order) :
  NoDup (map id l) -> In o l ->
  find (fun x => String.eqb (id x) (id o)) l = Some o.
Proof.
  induction l as [|y l IH]; cbn [map find In]; [contradiction|].
  intros Hnd [->|Hin].
  - now rewrite String.eqb_refl.
  - apply NoDup_cons_iff in Hnd as [Hy Hnd].
    destruct (String.eqb (id y) (id o)) eqn:E; [|now apply IH].
    apply String.eqb_eq in E. exfalso. apply Hy. rewrite E. now apply in_map.
Qed.

Lemma find_absent (l : list Order) (i : string) :
  (forall x, In x l -> id x <> i) ->
  find (fun x => String.eqb (id x) i) l = None.
Proof.
  intros H. destruct (find _ l) as [o|] eqn:E; [|reflexivity].
  apply find_some in E as [Hin E]. apply String.eqb_eq in E.
  now apply H in Hin.
Qed.

(** The rows written behind the others are, up to their order, the rows
    rewritten where they stood. *)
Lemma rewrite_rows_perm (p : Order -> bool) (d : OrderUpdate) (l : list Order) :
  Permutation (rewrite_rows p d l)
    (map (fun x => if p x then apply_update d x else x) l).
Proof.
  unfold rewrite_rows. induction l as [|y l IH]; cbn [filter map app].
  - apply perm_nil.
  - destruct (p y); cbn [negb map app].
    + apply Permutation_sym, Permutation_cons_app, Permutation_sym, IH.
    + now apply perm_skip.
Qed.

Lemma filter_perm {A : Type} (p : A -> bool) (l l' : list A) :
  Permutation l l' -> Permutation (filter p l) (filter p l').
Proof.
  induction 1 as [|x l l' H IH|x y l|l l' l'' H1 IH1 H2 IH2]; cbn [filter].
  - apply perm_nil.
  - destruct (p x); [now apply perm_skip | exact IH].
  - destruct (p x), (p y); try apply Permutation_refl. apply perm_swap.
  - now apply perm_trans with (filter p l').
Qed.

(** [update] on a row that exists, with data that the client takes. *)
Lemma update_found (db : Db) (o : Order) (d : OrderUpdate) :
  NoDup (map id (order_table db)) ->
  In o (order_table db) ->
  refusal_of (valid_data d) (readable_data d) = None ->
  update db (id o) d
  = (with_orders db (rewrite_rows (has_id (id o)) d (order_table db)),
     Ok (apply_update d o)).
Proof.
  intros Hnd Hin Hd. unfold update. rewrite Hd.
  unfold has_id at 1. now rewrite (find_unique _ _ Hnd Hin).
Qed.

Lemma accepted_date_data (s : OrderStatus) (a : option string) (t : option Date) :
  accepted_date t = true ->
  refusal_of (valid_data (status_data s a t)) (readable_data (status_data s a t))
  = None.
Proof.
  unfold accepted_date, valid_data, readable_data. cbn [status_data set_actual_delivery_time].
  intros H. apply andb_true_iff in H as [-> ->]. reflexivity.
Qed.

(** [batchUpdateStatus] never throws; what it returns. *)
Lemma batch_db (db : Db) (ids : list string) (S : OrderStatus) :
  batchUpdateStatus db ids S
  = (with_orders db
       (rewrite_rows (fun x => existsb (String.eqb (id x)) ids)
          (status_data S None None) (order_table db)),
     Ok (Z.of_nat (List.length
                     (filter (fun x => existsb (String.eqb (id x)) ids)
                        (order_table db))))).
Proof.
  unfold batchUpdateStatus, updateMany.
  change (refusal_of _ _) with (@None Error). cbv iota. f_equal.
  - f_equal. unfold rewrite_rows. f_equal.
    + apply filter_ext. intros x. now rewrite matches_id_in.
    + f_equal. apply filter_ext. intros x. apply matches_id_in.
  - do 3 f_equal. apply filter_ext. intros x. apply matches_id_in.
Qed.

Lemma batch_table (db : Db) (ids : list string) (S : OrderStatus) :
  Permutation (order_table (fst (batchUpdateStatus db ids S)))
    (map (set_in ids (status_data S None None)) (order_table db))
  /\ user_table (fst (batchUpdateStatus db ids S)) = user_table db.
Proof.
  rewrite batch_db. cbn [fst with_orders order_table user_table].
  split; [apply rewrite_rows_perm | reflexivity].
Qed.

Lemma set_in_id (ids : list string) (d : OrderUpdate) (x : Order) :
  id (set_in ids d x) = id x.
Proof. unfold set_in. now destruct (existsb _ ids). Qed.

Lemma set_in_twice (ids : list string) (S : OrderStatus) (x : Order) :
  let d := status_data S None None in
  set_in ids d (set_in ids d x) = set_in ids d x.
Proof.
  cbv zeta. unfold set_in at 2 3.
  destruct (existsb (String.eqb (id x)) ids) eqn:E; unfold set_in.
  - now rewrite apply_update_id, E.
  - now rewrite E.
Qed.

Lemma set_where_id (i : string) (d : OrderUpdate) (x : Order) :
  id (set_where i d x) = id x.
Proof. unfold set_where. now destruct (String.eqb (id x) i). Qed.

End UpdateFacts.

(** C9.  On an order that exists (ids being unique), [updateStatus] writes
    the new status whatever the status of the order was: nothing in the call
    reads the current status.  It returns the order with the new status,
    with the assignee and the delivery time given (each kept when not given)
    and with every other column as before; afterwards the table holds that
    order in place of the old one and every other row as it was, so that no
    row is lost and none is added.  The one thing that stops the write is a
    delivery time that the client refuses (an invalid date, or a year
    outside 0 to 9999): the call then throws and leaves the database as it
    was. *)
Theorem updateStatus_overwrites (db : Db) (o : Order) (status : OrderStatus)
  (assigned : option string) (delivered : option Date) :
  NoDup (map id (order_table db)) ->
  In o (order_table db) ->
  let r := updateStatus db (id o) status assigned delivered in
  (accepted_date delivered = true ->
   exists o',
     snd r = Ok o'
     /\ order_status o' = status
     /\ assigned_to o'
        = match assigned with Some a => Some a | None => assigned_to o end
     /\ actual_delivery_time o'
        = match delivered with
          | Some (ValidDate t) => Some t
          | _ => actual_delivery_time o
          end
     /\ fixed_part o' = fixed_part o
     /\ In o' (order_table (fst r))
     /\ (forall x, In x (order_table (fst r)) ->
           x = o' \/ (In x (order_table db) /\ id x <> id o))
     /\ (forall x, In x (order_table db) -> id x <> id o ->
           In x (order_table (fst r)))
     /\ List.length (order_table (fst r)) = List.length (order_table db)
     /\ user_table (fst r) = user_table db)
  /\ (accepted_date delivered = false -> exists e, r = (db, Err e)).
Proof.
  intros Hnd Hin r. subst r. unfold updateStatus.
  set (d := status_data status assigned delivered).
  split.
  2:{ intros Hd. unfold update.
      destruct (refusal_of (valid_data d) (readable_data d)) as [e|] eqn:E;
        [now exists e|].
      exfalso. revert E Hd. unfold accepted_date, valid_data, readable_data, refusal_of.
      cbn [d status_data set_actual_delivery_time].
      destruct (date_ok delivered), (date_sent delivered); cbn; congruence. }
  intros Hd.
  rewrite (UpdateFacts.update_found db o d Hnd Hin)
    by now apply UpdateFacts.accepted_date_data.
  cbn [fst snd with_orders order_table user_table].
  pose proof (UpdateFacts.rewrite_rows_perm (has_id (id o)) d (order_table db)) as Hp.
  assert (Hrow : forall x, In x (order_table db) ->
            (if has_id (id o) x then apply_update d x else x)
            = if String.eqb (id x) (id o) then apply_update d o else x).
  { intros x Hx. unfold has_id. destruct (String.eqb (id x) (id o)) eqn:E; [|reflexivity].
    apply String.eqb_eq in E. f_equal.
    pose proof (UpdateFacts.find_unique _ _ Hnd Hx) as F1.
    pose proof (UpdateFacts.find_unique _ _ Hnd Hin) as F2.
    rewrite E in F1. congruence. }
  exists (apply_update d o).
  split; [reflexivity|]. split; [reflexivity|]. split; [reflexivity|].
  split; [reflexivity|]. split; [reflexivity|]. split; [|split; [|split; [|split]]].
  - apply (Permutation_in _ (Permutation_sym Hp)). apply in_map_iff.
    exists o. split; [|exact Hin]. unfold has_id. now rewrite String.eqb_refl.
  - intros x Hx. apply (Permutation_in _ Hp) in Hx.
    apply in_map_iff in Hx as (y & <- & Hy). rewrite (Hrow y Hy).
    destruct (String.eqb (id y) (id o)) eqn:E; [now left|].
    right. split; [exact Hy|]. now apply String.eqb_neq.
  - intros x Hx Hne. apply (Permutation_in _ (Permutation_sym Hp)).
    apply in_map_iff. exists x. split; [|exact Hx].
    unfold has_id. apply String.eqb_neq in Hne. now rewrite Hne.
  - rewrite (Permutation_length Hp). apply length_map.
  - reflexivity.
Qed.

Lemma updateStatus_overwrites_witness :
  exists o',
    snd (updateStatus Fixtures.example_db "2" CANCELLED (Some "agent-7")
           (Some (ValidDate 36600000))) = Ok o'
    /\ order_status o' = CANCELLED
    /\ assigned_to o' = Some "agent-7"
    /\ actual_delivery_time o' = Some 36600000.
Proof.
  destruct (updateStatus_overwrites Fixtures.example_db Fixtures.B CANCELLED
              (Some "agent-7") (Some (ValidDate 36600000))) as [H _].
  - simpl. repeat (constructor; [simpl; intuition discriminate|]). constructor.
  - simpl. right. left. reflexivity.
  - destruct H as (o' & H1 & H2 & H3 & H4 & _); [vm_compute; reflexivity|].
    exists o'. repeat split; assumption.
Defined.

(** C8.  [batchUpdateStatus ids S] twice in a row.  Both calls succeed with
    a count that is not negative.  After the first call the table holds, up
    to the order of rows, the rows it held before, those whose id is in
    [ids] now at status [S] and otherwise unchanged, the others untouched.
    After the second call it holds the same rows as after the first: every
    column of every order is as the first call left it, and every order
    whose id is in [ids] is at [S] after each call. *)
Theorem batchUpdateStatus_twice (db : Db) (ids : list string) (S : OrderStatus) :
  let d := status_data S None None in
  let r1 := batchUpdateStatus db ids S in
  let r2 := batchUpdateStatus (fst r1) ids S in
  (exists n1 n2, snd r1 = Ok n1 /\ snd r2 = Ok n2 /\ 0 <= n1 /\ 0 <= n2)
  /\ Permutation (order_table (fst r1)) (map (set_in ids d) (order_table db))
  /\ Permutation (order_table (fst r2)) (order_table (fst r1))
  /\ (forall o, In o (order_table db) -> In (id o) ids ->
        In (apply_update d o) (order_table (fst r1))
        /\ In (apply_update d o) (order_table (fst r2)))
  /\ (forall o, In o (order_table db) -> ~ In (id o) ids ->
        In o (order_table (fst r1)) /\ In o (order_table (fst r2)))
  /\ (forall o, In o (order_table (fst r1)) -> In (id o) ids -> order_status o = S)
  /\ (forall o, In o (order_table (fst r2)) -> In (id o) ids -> order_status o = S)
  /\ user_table (fst r1) = user_table db
  /\ user_table (fst r2) = user_table db.
Proof.
  intros d r1 r2.
  destruct (UpdateFacts.batch_table db ids S) as [P1 U1]. fold d r1 in P1, U1.
  destruct (UpdateFacts.batch_table (fst r1) ids S) as [P2 U2]. fold d r2 in P2, U2.
  assert (P21 : Permutation (order_table (fst r2)) (order_table (fst r1))).
  { apply (perm_trans P2).
    apply perm_trans with (map (set_in ids d) (map (set_in ids d) (order_table db))).
    - now apply Permutation_map.
    - rewrite map_map.
      rewrite (map_ext _ _ (UpdateFacts.set_in_twice ids S)).
      now apply Permutation_sym. }
  assert (Hin : forall o, In o (order_table db) ->
            In (set_in ids d o) (order_table (fst r1))
            /\ In (set_in ids d o) (order_table (fst r2))).
  { intros o Ho.
    assert (H1 : In (set_in ids d o) (order_table (fst r1))).
    { apply (Permutation_in _ (Permutation_sym P1)). now apply in_map. }
    split; [exact H1|]. now apply (Permutation_in _ (Permutation_sym P21)). }
  assert (Hst : forall o, In o (order_table (fst r1)) -> In (id o) ids ->
            order_status o = S).
  { intros o Ho Hid. apply (Permutation_in _ P1) in Ho.
    apply in_map_iff in Ho as (y & <- & _).
    rewrite UpdateFacts.set_in_id in Hid. apply UpdateFacts.id_among in Hid.
    unfold set_in. now rewrite Hid. }
  split; [|split; [exact P1|split; [exact P21|split; [|split; [|split; [exact Hst|
    split; [|split; [exact U1|now rewrite U2]]]]]]]].
  - subst r2 r1. rewrite !UpdateFacts.batch_db. cbn [snd].
    do 2 eexists. split; [reflexivity|]. split; [reflexivity|]. lia.
  - intros o Ho Hid. apply UpdateFacts.id_among in Hid.
    specialize (Hin o Ho). unfold set_in in Hin. now rewrite Hid in Hin.
  - intros o Ho Hid. specialize (Hin o Ho). unfold set_in in Hin.
    destruct (existsb (String.eqb (id o)) ids) eqn:E; [|exact Hin].
    apply UpdateFacts.id_among in E. contradiction.
  - intros o Ho. apply Hst. now apply (Permutation_in _ P21).
Qed.

(** * Further properties of the repository *)

(** ** Lists of rows *)

Module RowFacts.

Lemma In_skipn {A : Type} (n : nat) (l : list A) (x : A) :
  In x (skipn n l) -> In x l.
Proof.
  revert n. induction l as [|y l IH]; intros [|n]; cbn [skipn In]; try tauto.
  intros H. right. now apply (IH n).
Qed.

Lemma from_cursor_suffix (c : string) (l : list Order) :
  exists k, from_cursor c l = skipn k l.
Proof.
  induction l as [|o l [k IH]]; cbn [from_cursor].
  - now exists 0%nat.
  - destruct (String.eqb (id o) c).
    + now exists 0%nat.
    + exists (Datatypes.S k). exact IH.
Qed.

Lemma In_removelast {A : Type} (l : list A) (x : A) :
  In x (removelast l) -> In x l.
Proof. rewrite removelast_firstn_len. apply SearchOrderFacts.firstn_In. Qed.

Lemma NoDup_firstn {A : Type} (n : nat) (l : list A) :
  NoDup l -> NoDup (firstn n l).
Proof.
  intros H. revert n. induction H as [|x l Hx Hl IH]; intros [|n]; cbn [firstn];
    try constructor.
  - intros Hin. apply Hx. now apply SearchOrderFacts.firstn_In in Hin.
  - apply IH.
Qed.

Lemma NoDup_skipn {A : Type} (n : nat) (l : list A) :
  NoDup l -> NoDup (skipn n l).
Proof.
  intros H. revert n. induction H as [|x l Hx Hl IH]; intros [|n]; cbn [skipn];
    try constructor; auto.
Qed.

Lemma NoDup_ids_firstn (n : nat) (l : list Order) :
  NoDup (map id l) -> NoDup (map id (firstn n l)).
Proof. intros H. rewrite <- firstn_map. now apply NoDup_firstn. Qed.

Lemma NoDup_ids_skipn (n : nat) (l : list Order) :
  NoDup (map id l) -> NoDup (map id (skipn n l)).
Proof. intros H. rewrite <- skipn_map. now apply NoDup_skipn. Qed.

Lemma NoDup_ids_removelast (l : list Order) :
  NoDup (map id l) -> NoDup (map id (removelast l)).
Proof. rewrite removelast_firstn_len. apply NoDup_ids_firstn. Qed.

Lemma NoDup_ids_sort (ob : list (OrderField * SortOrder)) (l : list Order) :
  NoDup (map id l) -> NoDup (map id (sort ob l)).
Proof.
  apply Permutation_NoDup, Permutation_map, Permutation_sym, PrismaFacts.sort_perm.
Qed.

Lemma length_removelast_le {A : Type} (l : list A) (n : nat) :
  (List.length l <= Datatypes.S n)%nat -> (List.length (removelast l) <= n)%nat.
Proof.
  intros H. rewrite removelast_firstn_len, length_firstn. lia.
Qed.

(** What [findMany] returns: rows of the table that pass the filter, no more
    than [take], each once when ids are unique. *)
Lemma findMany_rows (db : Db) (args : FindManyArgs) (rows : list Order) :
  findMany db args = Ok rows ->
  refusal (where_ args) = None
  /\ (List.length rows <= take args)%nat
  /\ (forall x, In x rows ->
        In x (order_table db) /\ matches db (where_ args) x = true)
  /\ (NoDup (map id (order_table db)) -> NoDup (map id rows)).
Proof.
  unfold findMany. destruct (refusal (where_ args)); [discriminate|].
  intros [= <-]. split; [reflexivity|]. split; [apply firstn_le_length|].
  set (sorted := sort _ _).
  assert (Hcur : exists k,
            match cursor args with
            | Some c => from_cursor c sorted
            | None => sorted
            end = skipn k sorted).
  { destruct (cursor args) as [c|]; [apply from_cursor_suffix | now exists 0%nat]. }
  destruct Hcur as [k ->]. split.
  - intros x Hx. apply SearchOrderFacts.firstn_In, In_skipn, In_skipn in Hx.
    apply (Permutation_in x (PrismaFacts.sort_perm _ _)) in Hx.
    now apply filter_In in Hx.
  - intros Hnd. apply NoDup_ids_firstn, NoDup_ids_skipn, NoDup_ids_skipn.
    apply NoDup_ids_sort. now apply SearchOrderFacts.NoDup_ids_filter.
Qed.

(** A page of either path is made of rows of its query, the last one left
    out or not. *)
Lemma page_of_query (db : Db) (o : GetPaginatedOrdersOptions) (page : Page) :
  getPaginatedShopOrders db o = Ok page ->
  exists args rows,
    findMany db args = Ok rows
    /\ take args = (limit_of o + 1)%nat
    /\ (orders page = rows /\ (List.length rows <= limit_of o)%nat
        \/ orders page = removelast rows)
    /\ where_ args
       = (if truthy (opt_searchTerm o) then search_where o
          else build_where (opt_shop_id o) (opt_orderStatus o) (opt_dateRange o)
                 None).
Proof.
  unfold getPaginatedShopOrders.
  destruct (truthy (opt_searchTerm o)); cbn [negb].
  - unfold getPaginatedShopOrders_search.
    match goal with |- context [findMany db ?a] => set (args := a) end.
    destruct (findMany db args) as [rows|e] eqn:Ef; [|discriminate].
    destruct (limit_of o <? List.length rows)%nat eqn:E.
    + destruct (at_index rows _); [|discriminate].
      intros [= <-]. exists args, rows. cbn [orders pop fst].
      repeat split; auto.
    + apply Nat.ltb_ge in E. intros [= <-]. exists args, rows.
      repeat split; auto.
  - unfold getPaginatedShopOrdersFromDB.
    cbn [opt_shop_id opt_limit opt_cursor opt_searchTerm opt_orderStatus
         opt_dateRange limit_of]. fold (limit_of o).
    match goal with |- context [findMany db ?a] => set (args := a) end.
    destruct (findMany db args) as [rows|e] eqn:Ef; [|discriminate].
    destruct (limit_of o <? List.length rows)%nat eqn:E.
    + unfold pop. intros [= <-]. exists args, rows. cbn [orders].
      repeat split; auto.
    + apply Nat.ltb_ge in E. intros [= <-]. exists args, rows.
      repeat split; auto.
Qed.

End RowFacts.

Module ScopeFacts.

Lemma OrderStatus_eqb_eq (a b : OrderStatus) : OrderStatus_eqb a b = true -> a = b.
Proof.
  destruct a, b; cbn; try discriminate; try reflexivity.
  intros H. apply String.eqb_eq in H. now subst.
Qed.

(** The keys [shop_id], [order_status] and [created_at] of a filter bind
    every row that passes it. *)
Lemma matches_keys (db : Db) (w : WhereInput) (x : Order) :
  matches db w x = true ->
  (forall s, w_shop_id w = Some s -> shop_id x = s)
  /\ (forall s, w_order_status w = Some s -> order_status x = s)
  /\ (forall f, w_created_at w = Some f -> matches_created_at f (created_at x) = true).
Proof.
  destruct w as [shop status created i disp addr email ors ands].
  cbn [matches w_shop_id w_order_status w_created_at].
  intros H. repeat (apply andb_true_iff in H as [H ?]).
  repeat split.
  - intros s [= ->]. cbn in H. now apply String.eqb_eq in H.
  - intros s [= ->]. cbn in *. now apply OrderStatus_eqb_eq.
  - intros f [= ->]. assumption.
Qed.

(** The keys [shop_id], [order_status] and [created_at] of the query of
    either path are those of the request. *)
Lemma query_keys (o : GetPaginatedOrdersOptions) :
  let w := if truthy (opt_searchTerm o) then search_where o
           else build_where (opt_shop_id o) (opt_orderStatus o) (opt_dateRange o)
                  None in
  w_shop_id w = Some (opt_shop_id o)
  /\ w_order_status w = opt_orderStatus o
  /\ w_created_at w
     = match opt_dateRange o with
       | Some (from, to) =>
           Some {| gte := Some from; lte := Some to; lt := None; equals := None |}
       | None => None
       end.
Proof.
  destruct (truthy (opt_searchTerm o)); cbn zeta.
  - unfold search_where, cursorCondition.
    destruct (opt_cursor o) as [[|c r]|];
      try destruct (decodeCursor (String c r)) as [[d i]|];
      destruct (opt_orderStatus o), (opt_dateRange o) as [[from to]|];
      repeat split.
  - repeat split.
Qed.

End ScopeFacts.

(** X1.  A page never holds more than [limit] orders, on either path and
    with any cursor. *)
Theorem page_within_limit (db : Db) (o : GetPaginatedOrdersOptions) (page : Page) :
  getPaginatedShopOrders db o = Ok page ->
  (List.length (orders page) <= limit_of o)%nat.
Proof.
  intros H. apply RowFacts.page_of_query in H as (args & rows & Hf & Ht & Hp & _).
  apply RowFacts.findMany_rows in Hf as (_ & Hlen & _).
  destruct Hp as [[-> Hle]| ->]; [exact Hle|].
  apply RowFacts.length_removelast_le. lia.
Qed.

Lemma page_within_limit_witness :
  (List.length [Fixtures.A; Fixtures.B] <= 2)%nat.
Proof.
  apply (page_within_limit Fixtures.example_db
           (Fixtures.request (Some 2%nat) None None)
           {| orders := [Fixtures.A; Fixtures.B]; nextCursor := Some "9" |}).
  vm_compute. reflexivity.
Defined.

(** X2.  Every order on a page is a row of the table, belongs to the shop
    of the request, has the status asked for and was created within the
    date range, on either path and with any cursor. *)
Theorem page_orders_in_scope (db : Db) (o : GetPaginatedOrdersOptions)
  (page : Page) (x : Order) :
  getPaginatedShopOrders db o = Ok page ->
  In x (orders page) ->
  In x (order_table db)
  /\ shop_id x = opt_shop_id o
  /\ (forall s, opt_orderStatus o = Some s -> order_status x = s)
  /\ (forall from to, opt_dateRange o = Some (ValidDate from, ValidDate to) ->
        from <= created_at x <= to).
Proof.
  intros H Hx.
  apply RowFacts.page_of_query in H as (args & rows & Hf & _ & Hp & Hw).
  apply RowFacts.findMany_rows in Hf as (_ & _ & Hrows & _).
  assert (Hin : In x rows).
  { destruct Hp as [[<- _]|Hp]; [exact Hx|].
    rewrite Hp in Hx. now apply RowFacts.In_removelast. }
  destruct (Hrows x Hin) as [Ht Hm]. rewrite Hw in Hm.
  destruct (ScopeFacts.query_keys o) as (Es & Est & Ec).
  set (w := if truthy (opt_searchTerm o) then _ else _) in *.
  apply ScopeFacts.matches_keys in Hm as (Hs & Hst & Hc).
  split; [exact Ht|]. split; [now apply Hs|]. split.
  - intros s E. apply Hst. now rewrite Est.
  - intros from to E. rewrite E in Ec. apply Hc in Ec.
    unfold matches_created_at, date_test in Ec. cbn in Ec.
    rewrite !andb_true_r in Ec. apply andb_true_iff in Ec as [E1 E2].
    unfold Z.geb in E1. destruct (created_at x ?= from) eqn:Ecmp;
      try discriminate; apply Z.leb_le in E2;
      [apply Z.compare_eq in Ecmp | apply Z.compare_gt_iff in Ecmp]; lia.
Qed.

Lemma page_orders_in_scope_witness :
  In Fixtures.B (order_table Fixtures.example_db)
  /\ shop_id Fixtures.B = "shop-1".
Proof.
  destruct (page_orders_in_scope Fixtures.example_db
              (Fixtures.request (Some 2%nat) None None)
              {| orders := [Fixtures.A; Fixtures.B]; nextCursor := Some "9" |}
              Fixtures.B) as (H1 & H2 & _).
  - vm_compute. reflexivity.
  - simpl. right. left. reflexivity.
  - split; [exact H1 | exact H2].
Defined.

(** X3.  When order ids are unique, no page lists an order twice. *)
Theorem page_without_repeats (db : Db) (o : GetPaginatedOrdersOptions) (page : Page) :
  NoDup (map id (order_table db)) ->
  getPaginatedShopOrders db o = Ok page ->
  NoDup (map id (orders page)).
Proof.
  intros Hnd H.
  apply RowFacts.page_of_query in H as (args & rows & Hf & _ & Hp & _).
  apply RowFacts.findMany_rows in Hf as (_ & _ & _ & Hrows).
  destruct Hp as [[-> _]| ->]; [now apply Hrows|].
  apply RowFacts.NoDup_ids_removelast. now apply Hrows.
Qed.

Lemma page_without_repeats_witness :
  NoDup (map id [Fixtures.A; Fixtures.B]).
Proof.
  apply (page_without_repeats Fixtures.example_db
           (Fixtures.request (Some 2%nat) None None)
           {| orders := [Fixtures.A; Fixtures.B]; nextCursor := Some "9" |}).
  - simpl. repeat (constructor; [simpl; intuition discriminate|]). constructor.
  - vm_compute. reflexivity.
Defined.

(** ** Pages and what they leave out *)

Module PageFacts.

Lemma build_where_no_term (shop : string) (st : option OrderStatus)
  (r : option (Date * Date)) (term : option string) :
  truthy term = false -> build_where shop st r term = build_where shop st r None.
Proof. destruct term as [[|c s]|]; [reflexivity | discriminate | reflexivity]. Qed.

Lemma sorted_app {A : Type} (R : A -> A -> Prop) (l1 l2 : list A) :
  StronglySorted R (l1 ++ l2) ->
  forall x y, In x l1 -> In y l2 -> R x y.
Proof.
  induction l1 as [|a l1 IH]; cbn [app]; intros H x y Hx Hy; [contradiction|].
  inversion H as [|? ? Hs Hall]; subst. destruct Hx as [<-|Hx].
  - apply (proj1 (Forall_forall _ _) Hall). apply in_or_app. now right.
  - now apply IH.
Qed.

(** Rows outside a prefix of a sorted list come after those inside. *)
Lemma prefix_is_top {A : Type} (R : A -> A -> Prop) (k : nat) (l : list A) (x y : A) :
  StronglySorted R l -> In x (firstn k l) -> In y l -> ~ In y (firstn k l) -> R x y.
Proof.
  intros Hs Hx Hy Hn. rewrite <- (firstn_skipn k l) in Hs, Hy.
  apply in_app_or in Hy as [Hy|Hy]; [contradiction|].
  now apply (sorted_app R _ _ Hs).
Qed.

(** The first page of the path without search term is a prefix of the
    candidates. *)
Lemma first_page_prefix (db : Db) (o : GetPaginatedOrdersOptions) (page : Page) :
  truthy (opt_searchTerm o) = false ->
  truthy (opt_cursor o) = false ->
  getPaginatedShopOrders db o = Ok page ->
  exists k, orders page = firstn k (sort [(By_created_at, desc)] (matching db o)).
Proof.
  intros Hterm Hcursor. unfold getPaginatedShopOrders. rewrite Hterm. cbn [negb].
  unfold getPaginatedShopOrdersFromDB, findMany.
  cbn [opt_shop_id opt_limit opt_cursor opt_searchTerm opt_orderStatus
       opt_dateRange limit_of take where_ orderBy cursor skip].
  fold (limit_of o). rewrite Hcursor. cbn [skipn].
  destruct (refusal _); [discriminate|].
  unfold matching. rewrite (build_where_no_term _ _ _ _ Hterm).
  set (rows := sort _ _). set (fetched := firstn (limit_of o + 1) rows).
  destruct (limit_of o <? List.length fetched)%nat.
  - unfold pop. intros [= <-]. cbn [orders].
    rewrite removelast_firstn_len. unfold fetched. rewrite firstn_firstn.
    now eexists.
  - intros [= <-]. now eexists.
Qed.

(** A page of the search path is a prefix of the rows of its query, in the
    order of the path. *)
Lemma search_page_prefix (db : Db) (o : GetPaginatedOrdersOptions) (page : Page) :
  getPaginatedShopOrders_search db o = Ok page ->
  exists k, orders page
            = firstn k (sort [(By_created_at, desc); (By_id, desc)]
                          (filter (matches db (search_where o)) (order_table db))).
Proof.
  unfold getPaginatedShopOrders_search, findMany.
  cbn [take where_ orderBy cursor skip skipn].
  destruct (refusal _); [discriminate|].
  set (rows := sort _ _). set (fetched := firstn (limit_of o + 1) rows).
  destruct (limit_of o <? List.length fetched)%nat.
  - destruct (at_index fetched _); [|discriminate].
    intros [= <-]. cbn [orders pop fst].
    rewrite removelast_firstn_len. unfold fetched. rewrite firstn_firstn.
    now eexists.
  - intros [= <-]. now eexists.
Qed.

(** With a limit of one or more, the search path reads its last order at an
    index that exists. *)
Lemma search_returns (db : Db) (o : GetPaginatedOrdersOptions) :
  accepted (search_where o) = true ->
  (1 <= limit_of o)%nat ->
  exists page, getPaginatedShopOrders_search db o = Ok page.
Proof.
  intros Hvalid Hlimit. apply PrismaFacts.refusal_accepted in Hvalid.
  unfold getPaginatedShopOrders_search, findMany.
  cbn [take where_ orderBy cursor skip skipn]. rewrite Hvalid.
  set (fetched := firstn (limit_of o + 1) _).
  destruct (limit_of o <? List.length fetched)%nat eqn:E; [|now eexists].
  apply Nat.ltb_lt in E. unfold at_index.
  replace (Z.of_nat (limit_of o) - 1 <? 0) with false by (symmetry; lia).
  destruct (nth_error fetched (Z.to_nat (Z.of_nat (limit_of o) - 1))) eqn:En;
    [now eexists|].
  apply nth_error_None in En. lia.
Qed.

(** When everything that matches fits on one page, either path returns all
    of it and no cursor. *)
Lemma one_page (db : Db) (o : GetPaginatedOrdersOptions) :
  truthy (opt_cursor o) = false ->
  accepted_dates (opt_dateRange o) = true ->
  (List.length (matching db o) <= limit_of o)%nat ->
  exists page,
    getPaginatedShopOrders db o = Ok page
    /\ Permutation (orders page) (matching db o)
    /\ nextCursor page = None.
Proof.
  intros Hcursor Hdates Hfit. unfold getPaginatedShopOrders.
  destruct (truthy (opt_searchTerm o)) eqn:Hterm; cbn [negb].
  - unfold getPaginatedShopOrders_search, findMany.
    cbn [take where_ orderBy cursor skip skipn].
    rewrite (SearchFacts.first_page_where o Hcursor).
    rewrite (PrismaFacts.refusal_build _ _ _ _ Hdates). fold (matching db o).
    set (rows := sort _ _).
    assert (Hlen : List.length rows = List.length (matching db o))
      by apply Permutation_length, PrismaFacts.sort_perm.
    rewrite firstn_all2 by lia.
    replace (limit_of o <? List.length rows)%nat with false
      by (symmetry; apply Nat.ltb_ge; lia).
    eexists. split; [reflexivity|]. split; [apply PrismaFacts.sort_perm|reflexivity].
  - unfold getPaginatedShopOrdersFromDB, findMany.
    cbn [opt_shop_id opt_limit opt_cursor opt_searchTerm opt_orderStatus
         opt_dateRange limit_of take where_ orderBy cursor skip].
    fold (limit_of o). rewrite Hcursor. cbn [skipn].
    rewrite (PrismaFacts.refusal_build _ _ _ _ Hdates).
    rewrite <- (build_where_no_term _ _ _ _ Hterm). fold (matching db o).
    set (rows := sort _ _).
    assert (Hlen : List.length rows = List.length (matching db o))
      by apply Permutation_length, PrismaFacts.sort_perm.
    rewrite firstn_all2 by lia.
    replace (limit_of o <? List.length rows)%nat with false
      by (symmetry; apply Nat.ltb_ge; lia).
    eexists. split; [reflexivity|]. split; [apply PrismaFacts.sort_perm|reflexivity].
Qed.

End PageFacts.

Ltac distinct_ids :=
  simpl; repeat (constructor; [simpl; intuition discriminate|]); constructor.

(** X4.  When no more orders match than fit on a page, the first call
    returns all of them, each once, and no cursor: on either path.  (The
    dates of the range and the page size are such as the client takes; with
    a search term, the term and the texts searched are ASCII.) *)
Theorem single_page_lists_all (db : Db) (o : GetPaginatedOrdersOptions) :
  truthy (opt_cursor o) = false ->
  accepted_dates (opt_dateRange o) = true ->
  take_fits o = true ->
  ascii_search db o = true ->
  (List.length (matching db o) <= limit_of o)%nat ->
  exists page,
    getPaginatedShopOrders db o = Ok page
    /\ Permutation (orders page) (matching db o)
    /\ nextCursor page = None.
Proof. intros Hcursor Hdates _ _. exact (PageFacts.one_page db o Hcursor Hdates). Qed.

Lemma single_page_lists_all_witness :
  exists page,
    getPaginatedShopOrders Fixtures.stationery_db
      (Fixtures.request None None (Some "tea")) = Ok page
    /\ Permutation (orders page) [Fixtures.tea1; Fixtures.tea3]
    /\ nextCursor page = None.
Proof.
  apply (single_page_lists_all Fixtures.stationery_db
           (Fixtures.request None None (Some "tea"))).
  - reflexivity.
  - reflexivity.
  - reflexivity.
  - vm_compute. reflexivity.
  - vm_compute. lia.
Defined.

(** X5.  Without a search term, with a date range of dates that the client
    takes if there is one, and with a page size that it takes, the call
    returns a page whatever the cursor; with limit 0 it returns the empty
    page. *)
Theorem no_search_term_never_throws (db : Db) (o : GetPaginatedOrdersOptions) :
  truthy (opt_searchTerm o) = false ->
  accepted_dates (opt_dateRange o) = true ->
  take_fits o = true ->
  exists page,
    getPaginatedShopOrders db o = Ok page
    /\ (opt_limit o = Some 0%nat -> orders page = []).
Proof.
  intros Hterm Hdates _. eexists.
  split; [apply (ListingFacts.FromDB_exact db o Hterm), PrismaFacts.refusal_build,
          Hdates|].
  intros Hlimit. cbn [orders]. unfold limit_of. now rewrite Hlimit.
Qed.

Lemma no_search_term_never_throws_witness :
  exists page,
    getPaginatedShopOrders Fixtures.example_db
      (Fixtures.request (Some 0%nat) (Some "no-such-id") None) = Ok page
    /\ orders page = [].
Proof.
  destruct (no_search_term_never_throws Fixtures.example_db
              (Fixtures.request (Some 0%nat) (Some "no-such-id") None))
    as (page & Hpage & Hempty).
  - reflexivity.
  - reflexivity.
  - reflexivity.
  - exists page. split; [exact Hpage | now apply Hempty].
Defined.

(** X6.  With a search term, a limit of one or more that the client takes,
    and a query that the client and the engine take (valid dates of a year
    from 0 to 9999 in the date range and in the cursor, a string or nothing
    as id in the cursor), the call returns a page: the failing read at index
    -1 is confined to limit 0. *)
Theorem search_with_positive_limit_returns (db : Db)
  (o : GetPaginatedOrdersOptions) :
  truthy (opt_searchTerm o) = true ->
  accepted (search_where o) = true ->
  take_fits o = true ->
  (1 <= limit_of o)%nat ->
  exists page, getPaginatedShopOrders db o = Ok page.
Proof.
  intros Hterm Hvalid _ Hlimit. unfold getPaginatedShopOrders.
  rewrite Hterm. cbn [negb]. now apply PageFacts.search_returns.
Qed.

Lemma search_with_positive_limit_returns_witness :
  exists page,
    getPaginatedShopOrders Fixtures.stationery_db
      (Fixtures.request (Some 1%nat) (Some (encodeCursor 3000 "o3")) (Some "tea"))
    = Ok page.
Proof.
  apply (search_with_positive_limit_returns Fixtures.stationery_db
           (Fixtures.request (Some 1%nat) (Some (encodeCursor 3000 "o3"))
              (Some "tea"))).
  - reflexivity.
  - vm_compute. reflexivity.
  - reflexivity.
  - vm_compute. lia.
Defined.

(** X7.  The first page of a search holds the top of what matches: with
    unique ids, every matching order left off the page has a pair
    [(created_at, id)] below that of every order on it.  (The search term
    and the texts searched are ASCII.) *)
Theorem first_search_page_is_top (db : Db) (o : GetPaginatedOrdersOptions)
  (page : Page) (x y : Order) :
  truthy (opt_searchTerm o) = true ->
  truthy (opt_cursor o) = false ->
  ascii_search db o = true ->
  NoDup (map id (order_table db)) ->
  getPaginatedShopOrders db o = Ok page ->
  In x (orders page) ->
  In y (matching db o) -> ~ In y (orders page) ->
  key_gt x y = true.
Proof.
  intros Hterm Hcursor _ Hnd. unfold getPaginatedShopOrders.
  rewrite Hterm. cbn [negb]. intros Hpage Hx Hy Hny.
  apply PageFacts.search_page_prefix in Hpage as [k Hk].
  rewrite (SearchFacts.first_page_where o Hcursor) in Hk. fold (matching db o) in Hk.
  rewrite Hk in Hx, Hny.
  apply (PageFacts.prefix_is_top key_above k _ x y) in Hx; auto.
  - apply SearchOrderFacts.sorted_strict; [|apply OrderingFacts.sort_by_key].
    apply RowFacts.NoDup_ids_sort. now apply SearchOrderFacts.NoDup_ids_filter.
  - now apply (Permutation_in y (Permutation_sym (PrismaFacts.sort_perm _ _))).
Qed.

Lemma first_search_page_is_top_witness :
  key_gt Fixtures.tea1 Fixtures.tea3 = true.
Proof.
  apply (first_search_page_is_top Fixtures.stationery_db
           (Fixtures.request (Some 1%nat) None (Some "tea"))
           {| orders := [Fixtures.tea1];
              nextCursor := Some (encodeCursor 3000 "o3") |}).
  - reflexivity.
  - reflexivity.
  - vm_compute. reflexivity.
  - distinct_ids.
  - vm_compute. reflexivity.
  - simpl. left. reflexivity.
  - vm_compute. right. left. reflexivity.
  - simpl. intros [H|[]]. discriminate H.
Defined.

(** X8.  The first page without search term holds the newest of what
    matches: no matching order left off the page is newer than an order on
    it. *)
Theorem first_page_is_newest (db : Db) (o : GetPaginatedOrdersOptions)
  (page : Page) (x y : Order) :
  truthy (opt_searchTerm o) = false ->
  truthy (opt_cursor o) = false ->
  getPaginatedShopOrders db o = Ok page ->
  In x (orders page) ->
  In y (matching db o) -> ~ In y (orders page) ->
  created_at y <= created_at x.
Proof.
  intros Hterm Hcursor Hpage Hx Hy Hny.
  apply (PageFacts.first_page_prefix db o page Hterm Hcursor) in Hpage as [k Hk].
  rewrite Hk in Hx, Hny.
  apply (PageFacts.prefix_is_top newer_first k _ x y) in Hx; auto.
  - apply PrismaFacts.sort_newer_first.
  - now apply (Permutation_in y (Permutation_sym (PrismaFacts.sort_perm _ _))).
Qed.

Lemma first_page_is_newest_witness :
  created_at Fixtures.C <= created_at Fixtures.A.
Proof.
  apply (first_page_is_newest Fixtures.example_db
           (Fixtures.request (Some 2%nat) None None)
           {| orders := [Fixtures.A; Fixtures.B]; nextCursor := Some "9" |}).
  - reflexivity.
  - reflexivity.
  - vm_compute. reflexivity.
  - simpl. left. reflexivity.
  - vm_compute. right. right. left. reflexivity.
  - simpl. intros [H|[H|[]]]; discriminate H.
Defined.

(** X9.  With unique ids, the orders of a search page come in strictly
    decreasing [(created_at, id)]. *)
Theorem search_page_descends (db : Db) (o : GetPaginatedOrdersOptions) (page : Page) :
  truthy (opt_searchTerm o) = true ->
  NoDup (map id (order_table db)) ->
  getPaginatedShopOrders db o = Ok page ->
  StronglySorted key_above (orders page).
Proof.
  intros Hterm Hnd. unfold getPaginatedShopOrders. rewrite Hterm. cbn [negb].
  now apply SearchOrderFacts.search_page_decreasing.
Qed.

Lemma search_page_descends_witness :
  StronglySorted key_above [Fixtures.A; Fixtures.B].
Proof.
  apply (search_page_descends Fixtures.example_db
           (Fixtures.request (Some 2%nat) None (Some "ord"))
           {| orders := [Fixtures.A; Fixtures.B];
              nextCursor :=
                Some (encodeCursor (created_at Fixtures.B) (id Fixtures.B)) |}).
  - reflexivity.
  - distinct_ids.
  - vm_compute. reflexivity.
Defined.

(** X10.  A search page that has a successor carries the token of its last
    order, and every order of the page asked for with that token has a pair
    [(created_at, id)] strictly below that order's (timestamps being those
    of valid dates). *)
Theorem next_search_page_continues (db : Db) (o : GetPaginatedOrdersOptions)
  (p1 p2 : Page) (c : string) :
  truthy (opt_searchTerm o) = true ->
  (forall x, In x (order_table db) -> Z.abs (created_at x) <= maxTime) ->
  getPaginatedShopOrders db o = Ok p1 ->
  nextCursor p1 = Some c ->
  getPaginatedShopOrders db (with_cursor o (Some c)) = Ok p2 ->
  exists x,
    nth_error (orders p1) (List.length (orders p1) - 1) = Some x
    /\ c = encodeCursor (created_at x) (id x)
    /\ forall y, In y (orders p2) -> key_gt x y = true.
Proof.
  intros Hterm Hvalid H1 Hc H2.
  assert (Hin : forall x, In x (orders p1) -> In x (order_table db)).
  { intros x Hx.
    apply RowFacts.page_of_query in H1 as (args & rows & Hf & _ & Hp & _).
    apply RowFacts.findMany_rows in Hf as (_ & _ & Hrows & _).
    apply Hrows. destruct Hp as [[<- _]|Hp]; [exact Hx|].
    rewrite Hp in Hx. now apply RowFacts.In_removelast. }
  unfold getPaginatedShopOrders in H1, H2.
  cbn [with_cursor opt_searchTerm] in H2. rewrite Hterm in H1, H2.
  cbn [negb] in H1, H2.
  destruct (SearchOrderFacts.search_cursor_of_last_row db o p1 c H1 Hc)
    as (x & Hx & ->).
  exists x. split; [exact Hx|]. split; [reflexivity|].
  intros y Hy.
  assert (Ht : Z.abs (created_at x) <= maxTime)
    by (apply Hvalid, Hin; now apply nth_error_In in Hx).
  pose proof (SearchOrderFacts.search_page_after_cursor db o _ _ p2 y Ht H2 Hy) as H.
  unfold key_gt. now rewrite (Z.eqb_sym (created_at x)).
Qed.

Lemma next_search_page_continues_witness :
  exists x,
    nth_error [Fixtures.A; Fixtures.B] 1 = Some x
    /\ forall y, In y [Fixtures.C] -> key_gt x y = true.
Proof.
  destruct (next_search_page_continues Fixtures.example_db
              (Fixtures.request (Some 2%nat) None (Some "ord"))
              {| orders := [Fixtures.A; Fixtures.B];
                 nextCursor :=
                   Some (encodeCursor (created_at Fixtures.B) (id Fixtures.B)) |}
              {| orders := [Fixtures.C]; nextCursor := None |}
              (encodeCursor (created_at Fixtures.B) (id Fixtures.B)))
    as (x & Hx & _ & Hy).
  - reflexivity.
  - intros x [<-|[<-|[<-|[]]]]; vm_compute; discriminate.
  - vm_compute. reflexivity.
  - reflexivity.
  - vm_compute. reflexivity.
  - exists x. split; [exact Hx | exact Hy].
Defined.

(** ** Tokens *)

Module TokenFacts.
Import Buffer.

Lemma b64_char_letter (v : Z) : 0 <= v < 64 -> base64_letter (b64_char v) = true.
Proof.
  intros Hv. unfold b64_char.
  destruct (v <? 26) eqn:E1; [|destruct (v <? 52) eqn:E2;
    [|destruct (v <? 62) eqn:E3; [|destruct (v =? 62) eqn:E4]]];
    try reflexivity; unfold base64_letter; rewrite StrFacts.code_chr by lia.
  - replace ((65 <=? 65 + v) && (65 + v <=? 90)) with true
      by (symmetry; apply andb_true_iff; lia). reflexivity.
  - replace ((97 <=? 71 + v) && (71 + v <=? 122)) with true
      by (symmetry; apply andb_true_iff; lia). now rewrite orb_true_r.
  - replace ((48 <=? v - 4) && (v - 4 <=? 57)) with true
      by (symmetry; apply andb_true_iff; lia). now rewrite !orb_true_r.
Qed.

Lemma toString_base64_letters (bytes : string) :
  all_chars base64_letter (toString_base64 bytes) = true.
Proof.
  induction bytes as [|a|a b|a b c r IH] using BufferFacts.string_triples_ind;
    cbn [toString_base64 all_chars].
  - reflexivity.
  - rewrite !b64_char_letter by BufferFacts.zdm. reflexivity.
  - rewrite !b64_char_letter by BufferFacts.zdm. reflexivity.
  - rewrite !b64_char_letter by BufferFacts.zdm. exact IH.
Qed.

End TokenFacts.

(** X11.  Tokens tell positions apart: two positions with valid timestamps
    that get the same token are the same position. *)
Theorem encodeCursor_injective (t1 t2 : Z) (i1 i2 : string) :
  Z.abs t1 <= maxTime -> Z.abs t2 <= maxTime ->
  encodeCursor t1 i1 = encodeCursor t2 i2 ->
  t1 = t2 /\ i1 = i2.
Proof.
  intros H1 H2 E.
  pose proof (CursorFacts.decode_encode t1 i1 H1) as D1.
  pose proof (CursorFacts.decode_encode t2 i2 H2) as D2.
  rewrite E, D2 in D1. now injection D1 as -> ->.
Qed.

Lemma encodeCursor_injective_witness :
  3000 = 3000 /\ "o3" = "o3".
Proof.
  apply (encodeCursor_injective 3000 3000 "o3" "o3").
  - vm_compute. discriminate.
  - vm_compute. discriminate.
  - reflexivity.
Defined.

(** X12.  A token is never empty and is written with letters, digits, [+],
    [/] and [=] only. *)
Theorem encodeCursor_letters (t : Z) (i : string) :
  encodeCursor t i <> "" /\ all_chars base64_letter (encodeCursor t i) = true.
Proof.
  split.
  - destruct (CursorFacts.encodeCursor_nonempty t i) as (c & r & ->). discriminate.
  - apply TokenFacts.toString_base64_letters.
Qed.

(** ** Lookups and status updates *)

Module LookupFacts.

(** Rewriting rows without touching their ids commutes with the lookup. *)
Lemma find_map (f : Order -> Order) (l : list Order) (i : string) :
  (forall x, id (f x) = id x) ->
  find (fun x => String.eqb (id x) i) (map f l)
  = option_map f (find (fun x => String.eqb (id x) i) l).
Proof.
  intros Hf. induction l as [|y l IH]; cbn [map find]; [reflexivity|].
  rewrite Hf. now destruct (String.eqb (id y) i).
Qed.

(** With unique ids, the lookup does not depend on the order of rows. *)
Lemma find_perm (l l' : list Order) (i : string) :
  NoDup (map id l) -> Permutation l l' ->
  find (fun x => String.eqb (id x) i) l' = find (fun x => String.eqb (id x) i) l.
Proof.
  intros Hnd Hp.
  assert (Hnd' : NoDup (map id l'))
    by (apply (Permutation_NoDup (Permutation_map id Hp)), Hnd).
  destruct (find _ l) as [x|] eqn:E.
  - apply find_some in E as [Hx E]. apply String.eqb_eq in E. subst i.
    apply UpdateFacts.find_unique; [exact Hnd'|]. now apply (Permutation_in _ Hp).
  - apply UpdateFacts.find_absent. intros x Hx.
    apply (Permutation_in _ (Permutation_sym Hp)) in Hx.
    apply (find_none _ _ E) in Hx. now apply String.eqb_neq.
Qed.

Lemma set_in_fixed (ids : list string) (d : OrderUpdate) (x : Order) :
  fixed_part (set_in ids d x) = fixed_part x.
Proof. unfold set_in. now destruct (existsb _ ids). Qed.

(** The table after an [update] that the client takes, found or not. *)
Lemma update_table (db : Db) (i : string) (d : OrderUpdate) :
  refusal_of (valid_data d) (readable_data d) = None ->
  Permutation (order_table (fst (update db i d)))
    (map (set_where i d) (order_table db))
  /\ user_table (fst (update db i d)) = user_table db.
Proof.
  intros Hd. unfold update. rewrite Hd.
  destruct (find (has_id i) (order_table db)) as [o|] eqn:E;
    cbn [fst with_orders order_table user_table].
  - split; [apply UpdateFacts.rewrite_rows_perm | reflexivity].
  - split; [|reflexivity].
    rewrite <- (map_id (order_table db)) at 1.
    rewrite (map_ext_in (fun x => x) (set_where i d)); [apply Permutation_refl|].
    intros x Hx. unfold set_where.
    apply (find_none _ _ E) in Hx. unfold has_id in Hx. now rewrite Hx.
Qed.

(** The fixed parts of the rows after an [update], taken or refused. *)
Lemma update_fixed (db : Db) (i : string) (d : OrderUpdate) :
  exists rows,
    Permutation (order_table (fst (update db i d))) rows
    /\ user_table (fst (update db i d)) = user_table db
    /\ map fixed_part rows = map fixed_part (order_table db)
    /\ map shop_id rows = map shop_id (order_table db)
    /\ map user_id rows = map user_id (order_table db).
Proof.
  destruct (refusal_of (valid_data d) (readable_data d)) as [e|] eqn:Hd.
  - exists (order_table db). unfold update. rewrite Hd. cbn [fst].
    repeat split. apply Permutation_refl.
  - exists (map (set_where i d) (order_table db)).
    destruct (update_table db i d Hd) as [Hp Hu].
    split; [exact Hp|]. split; [exact Hu|].
    rewrite !map_map.
    repeat split; apply map_ext; intros x; unfold set_where;
      now destruct (String.eqb (id x) i).
Qed.

Lemma matches_shop (db : Db) (shop : string) (x : Order) :
  matches db (MkWhere (Some shop) None None None None None None None None) x
  = String.eqb (shop_id x) shop.
Proof. cbn. now rewrite !andb_true_r. Qed.

(** The table after the single updates of [ids], one after the other. *)
Lemma updates_table (ids : list string) (S : OrderStatus) (db : Db) :
  let step := fun d i => fst (updateStatus d i S None None) in
  Permutation (order_table (fold_left step ids db))
    (map (set_in ids (status_data S None None)) (order_table db))
  /\ user_table (fold_left step ids db) = user_table db.
Proof.
  cbv zeta. set (d := status_data S None None).
  revert db. induction ids as [|i ids IH]; intros db; cbn [fold_left].
  - split; [|reflexivity]. rewrite <- (map_id (order_table db)) at 1.
    apply Permutation_refl.
  - destruct (IH (fst (updateStatus db i S None None))) as [Hp Hu].
    unfold updateStatus in *. fold d in Hp, Hu |- *.
    destruct (update_table db i d eq_refl) as [Hp1 Hu1].
    split; [|now rewrite Hu, Hu1].
    apply (perm_trans Hp).
    apply perm_trans with (map (set_in ids d) (map (set_where i d) (order_table db))).
    + now apply Permutation_map.
    + rewrite map_map.
      rewrite (map_ext _ (set_in (i :: ids) d)); [apply Permutation_refl|].
      intros x. unfold set_in, set_where. cbn [existsb].
      destruct (String.eqb (id x) i) eqn:E; cbn [orb].
      * rewrite UpdateFacts.apply_update_id.
        now destruct (existsb (String.eqb (id x)) ids).
      * reflexivity.
Qed.

End LookupFacts.

(** X13.  With unique ids, [getOrderById] (and [findById]) returns an order
    exactly when it is the row with that id; it returns [null] when no row
    has the id. *)
Theorem getOrderById_finds_the_row (db : Db) (i : string) :
  NoDup (map id (order_table db)) ->
  (forall o, getOrderById db i = Some o <-> In o (order_table db) /\ id o = i)
  /\ (getOrderById db i = None <-> forall x, In x (order_table db) -> id x <> i)
  /\ findById db i = getOrderById db i.
Proof.
  intros Hnd. unfold getOrderById, findById, findUnique.
  split; [|split; [|reflexivity]].
  - intros o. split.
    + intros H. apply find_some in H as [Hin E]. apply String.eqb_eq in E. auto.
    + intros [Hin <-]. now apply UpdateFacts.find_unique.
  - split.
    + intros H x Hx. apply (find_none _ _ H) in Hx. now apply String.eqb_neq.
    + apply UpdateFacts.find_absent.
Qed.

Lemma getOrderById_finds_the_row_witness :
  getOrderById Fixtures.example_db "2" = Some Fixtures.B.
Proof.
  destruct (getOrderById_finds_the_row Fixtures.example_db "2") as (H & _).
  - distinct_ids.
  - apply H. split; [simpl; right; left; reflexivity | reflexivity].
Defined.

(** X14.  [updateStatus] on an id that no order has throws and leaves the
    database as it was; what it throws is the error of [update] for a record
    that is not found, unless the delivery time given is one that the client
    refuses. *)
Theorem updateStatus_unknown_id (db : Db) (order_id : string) (status : OrderStatus)
  (assigned : option string) (delivered : option Date) :
  (forall x, In x (order_table db) -> id x <> order_id) ->
  exists e,
    updateStatus db order_id status assigned delivered = (db, Err e)
    /\ (accepted_date delivered = true -> e = RecordNotFound).
Proof.
  intros H. unfold updateStatus, update.
  destruct (refusal_of _ _) as [e|] eqn:E.
  - exists e. split; [reflexivity|]. intros Hd.
    rewrite (UpdateFacts.accepted_date_data _ _ _ Hd) in E. discriminate.
  - exists RecordNotFound. unfold has_id.
    now rewrite (UpdateFacts.find_absent _ _ H).
Qed.

Lemma updateStatus_unknown_id_witness :
  updateStatus Fixtures.example_db "7" COMPLETED None None
  = (Fixtures.example_db, Err RecordNotFound).
Proof.
  destruct (updateStatus_unknown_id Fixtures.example_db "7" COMPLETED None None)
    as (e & H & He).
  - intros x [<-|[<-|[<-|[]]]]; discriminate.
  - rewrite H, (He eq_refl). reflexivity.
Defined.

(** X15.  After [updateStatus] on an existing order, [getOrderById] gives
    the order that [updateStatus] returned, and gives for every other id what
    it gave before (ids being unique, and the delivery time, if one is
    given, being one that the client takes). *)
Theorem getOrderById_after_updateStatus (db : Db) (o : Order) (status : OrderStatus)
  (assigned : option string) (delivered : option Date) :
  NoDup (map id (order_table db)) ->
  In o (order_table db) ->
  accepted_date delivered = true ->
  let r := updateStatus db (id o) status assigned delivered in
  exists o',
    snd r = Ok o'
    /\ getOrderById (fst r) (id o) = Some o'
    /\ forall j, j <> id o -> getOrderById (fst r) j = getOrderById db j.
Proof.
  intros Hnd Hin Hd r. subst r. unfold updateStatus.
  set (d := status_data status assigned delivered).
  pose proof (UpdateFacts.accepted_date_data status assigned delivered Hd) as Hd'.
  fold d in Hd'.
  destruct (LookupFacts.update_table db (id o) d Hd') as [Hp _].
  assert (Hnd' : NoDup (map id (map (set_where (id o) d) (order_table db)))).
  { rewrite map_map.
    now rewrite (map_ext _ id (UpdateFacts.set_where_id (id o) d)). }
  assert (Hfind : forall j,
            getOrderById (fst (update db (id o) d)) j
            = option_map (set_where (id o) d) (getOrderById db j)).
  { intros j. unfold getOrderById, findUnique.
    rewrite (LookupFacts.find_perm _ _ j Hnd' (Permutation_sym Hp)).
    apply LookupFacts.find_map, UpdateFacts.set_where_id. }
  exists (apply_update d o). split; [|split].
  - now rewrite (UpdateFacts.update_found db o d Hnd Hin Hd').
  - rewrite Hfind. unfold getOrderById, findUnique.
    rewrite (UpdateFacts.find_unique _ _ Hnd Hin). cbn [option_map].
    unfold set_where. now rewrite String.eqb_refl.
  - intros j Hj. rewrite Hfind. unfold getOrderById, findUnique.
    destruct (find _ (order_table db)) as [x|] eqn:E; [|reflexivity].
    cbn [option_map]. f_equal. unfold set_where.
    apply find_some in E as [_ E]. apply String.eqb_eq in E.
    replace (String.eqb (id x) (id o)) with false; [reflexivity|].
    symmetry. apply String.eqb_neq. congruence.
Qed.

Lemma getOrderById_after_updateStatus_witness :
  exists o',
    snd (updateStatus Fixtures.example_db "2" CANCELLED None None) = Ok o'
    /\ getOrderById (fst (updateStatus Fixtures.example_db "2" CANCELLED None None))
         "2" = Some o'.
Proof.
  destruct (getOrderById_after_updateStatus Fixtures.example_db Fixtures.B
              CANCELLED None None) as (o' & H1 & H2 & _).
  - distinct_ids.
  - simpl. right. left. reflexivity.
  - reflexivity.
  - exists o'. split; [exact H1 | exact H2].
Defined.

(** X16.  Neither status update adds or removes rows, or writes a column
    other than status, assignee and delivery time: up to the order of rows,
    the rows keep their fixed parts, and [count()] stays the same. *)
Theorem status_updates_keep_rows (db : Db) (i : string) (ids : list string)
  (status : OrderStatus) (assigned : option string) (delivered : option Date) :
  let db1 := fst (updateStatus db i status assigned delivered) in
  let db2 := fst (batchUpdateStatus db ids status) in
  Permutation (map fixed_part (order_table db1)) (map fixed_part (order_table db))
  /\ Permutation (map fixed_part (order_table db2)) (map fixed_part (order_table db))
  /\ count db1 None = count db None
  /\ count db2 None = count db None.
Proof.
  cbv zeta. unfold updateStatus.
  destruct (LookupFacts.update_fixed db i (status_data status assigned delivered))
    as (rows & Hp1 & _ & Hf1 & _).
  destruct (UpdateFacts.batch_table db ids status) as [Hp2 _].
  assert (H1 : Permutation
                 (map fixed_part
                    (order_table (fst (update db i (status_data status assigned delivered)))))
                 (map fixed_part (order_table db)))
    by (rewrite <- Hf1; now apply Permutation_map).
  assert (H2 : Permutation
                 (map fixed_part (order_table (fst (batchUpdateStatus db ids status))))
                 (map fixed_part (order_table db))).
  { apply (perm_trans (Permutation_map fixed_part Hp2)).
    rewrite map_map.
    rewrite (map_ext _ fixed_part (LookupFacts.set_in_fixed ids _)).
    apply Permutation_refl. }
  split; [exact H1|]. split; [exact H2|]. unfold count.
  split; do 2 f_equal.
  - apply Permutation_length in H1. now rewrite !length_map in H1.
  - apply Permutation_length in H2. now rewrite !length_map in H2.
Qed.

(** X17.  [batchUpdateStatus] leaves the table with the rows that
    [updateStatus] (with no assignee and no delivery time) leaves when called
    for each id in turn, the calls for unknown ids changing nothing; the
    order of the rows and the column [updated_at] aside. *)
Theorem batchUpdateStatus_as_updates (db : Db) (ids : list string)
  (status : OrderStatus) :
  let db1 := fst (batchUpdateStatus db ids status) in
  let db2 := fold_left (fun d i => fst (updateStatus d i status None None)) ids db in
  Permutation (map but_updated_at (order_table db1))
    (map but_updated_at (order_table db2))
  /\ user_table db1 = user_table db2.
Proof.
  cbv zeta.
  destruct (UpdateFacts.batch_table db ids status) as [Hp1 Hu1].
  destruct (LookupFacts.updates_table ids status db) as [Hp2 Hu2].
  split; [|now rewrite Hu1, Hu2].
  apply Permutation_map, (perm_trans Hp1). now apply Permutation_sym.
Qed.

(** X18.  [batchUpdateStatus] never throws: ids that no order has are passed
    over.  With unique order ids its count is at most the number of ids
    given and at most the number of orders. *)
Theorem batchUpdateStatus_count (db : Db) (ids : list string) (status : OrderStatus) :
  NoDup (map id (order_table db)) ->
  exists n,
    snd (batchUpdateStatus db ids status) = Ok n
    /\ 0 <= n <= Z.of_nat (List.length ids)
    /\ n <= Z.of_nat (List.length (order_table db)).
Proof.
  intros Hnd. rewrite UpdateFacts.batch_db. cbn [snd].
  eexists. split; [reflexivity|].
  set (hit := filter _ (order_table db)).
  assert (H1 : (List.length hit <= List.length ids)%nat).
  { rewrite <- (length_map id hit). apply NoDup_incl_length.
    - now apply SearchOrderFacts.NoDup_ids_filter.
    - intros j Hj. apply in_map_iff in Hj as (x & <- & Hx).
      apply filter_In in Hx as [_ Hx]. apply existsb_exists in Hx as (k & Hk & E).
      apply String.eqb_eq in E. now subst. }
  pose proof (filter_length_le (fun x => existsb (String.eqb (id x)) ids)
                (order_table db)) as H2.
  fold hit in H2. lia.
Qed.

Lemma batchUpdateStatus_count_witness :
  exists n,
    snd (batchUpdateStatus Fixtures.example_db ["2"; "7"] COMPLETED) = Ok n
    /\ 0 <= n <= 2.
Proof.
  destruct (batchUpdateStatus_count Fixtures.example_db ["2"; "7"] COMPLETED)
    as (n & H1 & H2 & _).
  - distinct_ids.
  - exists n. split; [exact H1 | exact H2].
Defined.

(** X19.  [batchUpdateStatus] leaves every order whose id is not among the
    ids given exactly as it was: such an order is a row of the table after
    the call if and only if it was one before. *)
Theorem batchUpdateStatus_spares_others (db : Db) (ids : list string)
  (status : OrderStatus) (x : Order) :
  ~ In (id x) ids ->
  In x (order_table (fst (batchUpdateStatus db ids status)))
  <-> In x (order_table db).
Proof.
  intros Hx. destruct (UpdateFacts.batch_table db ids status) as [Hp _].
  assert (Hkeep : forall y, id y = id x ->
            set_in ids (status_data status None None) y = y).
  { intros y Hy. unfold set_in.
    destruct (existsb (String.eqb (id y)) ids) eqn:E; [|reflexivity].
    apply UpdateFacts.id_among in E. rewrite Hy in E. contradiction. }
  split.
  - intros H. apply (Permutation_in _ Hp) in H.
    apply in_map_iff in H as (y & Hy & Hin).
    assert (E : id y = id x) by (rewrite <- Hy; symmetry; apply UpdateFacts.set_in_id).
    rewrite (Hkeep y E) in Hy. now subst.
  - intros H. apply (Permutation_in _ (Permutation_sym Hp)).
    apply in_map_iff. exists x. split; [now apply Hkeep | exact H].
Qed.

Lemma batchUpdateStatus_spares_others_witness :
  In Fixtures.A (order_table (fst (batchUpdateStatus Fixtures.example_db ["2"] COMPLETED))).
Proof.
  apply (batchUpdateStatus_spares_others Fixtures.example_db ["2"] COMPLETED
           Fixtures.A).
  - simpl. intros [H|[]]. discriminate H.
  - simpl. left. reflexivity.
Defined.

(** X20.  [getOrdersByIds] returns the orders whose id is among those
    given, and nothing else; ids that no order has are passed over, so with
    unique order ids it returns at most as many orders as ids were given. *)
Theorem getOrdersByIds_selects (db : Db) (ids : list string) :
  NoDup (map id (order_table db)) ->
  (forall x, In x (getOrdersByIds db ids) <-> In x (order_table db) /\ In (id x) ids)
  /\ (List.length (getOrdersByIds db ids) <= List.length ids)%nat.
Proof.
  intros Hnd. unfold getOrdersByIds, findManyWhere.
  assert (Hin : forall x,
            In x (filter (matches db (id_in ids)) (order_table db))
            <-> In x (order_table db) /\ In (id x) ids).
  { intros x. rewrite filter_In, UpdateFacts.matches_id_in, existsb_exists.
    split.
    - intros [Hx (k & Hk & E)]. apply String.eqb_eq in E. subst. auto.
    - intros [Hx Hi]. split; [exact Hx|]. exists (id x).
      split; [exact Hi | apply String.eqb_refl]. }
  split; [exact Hin|].
  rewrite <- (length_map id). apply NoDup_incl_length.
  - now apply SearchOrderFacts.NoDup_ids_filter.
  - intros j Hj. apply in_map_iff in Hj as (x & <- & Hx). now apply Hin in Hx.
Qed.

Lemma getOrdersByIds_selects_witness :
  (List.length (getOrdersByIds Fixtures.example_db ["9"; "7"]) <= 2)%nat.
Proof.
  destruct (getOrdersByIds_selects Fixtures.example_db ["9"; "7"]) as [_ H].
  - distinct_ids.
  - exact H.
Defined.

(** X21.  After [batchUpdateStatus ids S], [getOrdersByIds ids] returns the
    orders it returned before, each now with status [S] and otherwise as it
    was; the order in which they come and the column [updated_at] aside. *)
Theorem getOrdersByIds_after_batchUpdateStatus (db : Db) (ids : list string)
  (status : OrderStatus) :
  let db' := fst (batchUpdateStatus db ids status) in
  Permutation (map but_updated_at (getOrdersByIds db' ids))
    (map (fun x => (fixed_part x, status, assigned_to x, actual_delivery_time x))
       (getOrdersByIds db ids))
  /\ forall x, In x (getOrdersByIds db' ids) -> order_status x = status.
Proof.
  cbv zeta. set (d := status_data status None None).
  destruct (UpdateFacts.batch_table db ids status) as [Hp _]. fold d in Hp.
  unfold getOrdersByIds, findManyWhere.
  rewrite (filter_ext _ _ (UpdateFacts.matches_id_in db ids)).
  rewrite (filter_ext _ _ (UpdateFacts.matches_id_in _ ids)).
  assert (Hsel : filter (fun x => existsb (String.eqb (id x)) ids)
                   (map (set_in ids d) (order_table db))
                 = map (apply_update d)
                     (filter (fun x => existsb (String.eqb (id x)) ids) (order_table db))).
  { clear Hp. induction (order_table db) as [|y l IH]; [reflexivity|].
    cbn [map filter]. unfold set_in at 1 2.
    destruct (existsb (String.eqb (id y)) ids) eqn:E.
    - rewrite UpdateFacts.apply_update_id, E. cbn [map]. now rewrite IH.
    - rewrite E. exact IH. }
  assert (P : Permutation
                (filter (fun x => existsb (String.eqb (id x)) ids)
                   (order_table (fst (batchUpdateStatus db ids status))))
                (map (apply_update d)
                   (filter (fun x => existsb (String.eqb (id x)) ids) (order_table db)))).
  { rewrite <- Hsel. now apply UpdateFacts.filter_perm. }
  split.
  - apply (Permutation_map but_updated_at) in P. now rewrite map_map in P.
  - intros x Hx. apply (Permutation_in _ P) in Hx.
    apply in_map_iff in Hx as (y & <- & _). reflexivity.
Qed.

(** X22.  A shop with no more orders than fit on a page: the first listing
    call without filters returns the orders that [getOrdersByShopId]
    returns, each once, and no cursor. *)
Theorem listing_agrees_with_getOrdersByShopId (db : Db)
  (o : GetPaginatedOrdersOptions) :
  opt_orderStatus o = None -> opt_dateRange o = None ->
  truthy (opt_searchTerm o) = false -> truthy (opt_cursor o) = false ->
  (List.length (getOrdersByShopId db (opt_shop_id o)) <= limit_of o)%nat ->
  exists page,
    getPaginatedShopOrders db o = Ok page
    /\ Permutation (orders page) (getOrdersByShopId db (opt_shop_id o))
    /\ nextCursor page = None.
Proof.
  intros Hst Hdr Hterm Hcursor Hfit.
  assert (E : matching db o = getOrdersByShopId db (opt_shop_id o)).
  { unfold matching, getOrdersByShopId, findManyWhere.
    now rewrite (PageFacts.build_where_no_term _ _ _ _ Hterm), Hst, Hdr. }
  rewrite <- E in *. apply PageFacts.one_page; auto. now rewrite Hdr.
Qed.

Lemma listing_agrees_with_getOrdersByShopId_witness :
  exists page,
    getPaginatedShopOrders Fixtures.example_db (Fixtures.request None None None)
    = Ok page
    /\ Permutation (orders page) (getOrdersByShopId Fixtures.example_db "shop-1").
Proof.
  destruct (listing_agrees_with_getOrdersByShopId Fixtures.example_db
              (Fixtures.request None None None)) as (page & H1 & H2 & _).
  - reflexivity.
  - reflexivity.
  - reflexivity.
  - reflexivity.
  - vm_compute. lia.
  - exists page. split; [exact H1 | exact H2].
Defined.

(** X23.  A status update moves no order to another shop or user:
    [getOrdersByShopId] and [getOrdersByUserId] return the same orders as
    before, up to the columns that the update writes and to the order in
    which they come, and [count({ shop_id })] is unchanged. *)
Theorem updateStatus_keeps_shop_and_user_lists (db : Db) (i shop user : string)
  (status : OrderStatus) (assigned : option string) (delivered : option Date) :
  let db' := fst (updateStatus db i status assigned delivered) in
  Permutation (map fixed_part (getOrdersByShopId db' shop))
    (map fixed_part (getOrdersByShopId db shop))
  /\ Permutation (map fixed_part (getOrdersByUserId db' user))
       (map fixed_part (getOrdersByUserId db user))
  /\ count db' (Some (MkWhere (Some shop) None None None None None None None None))
     = count db (Some (MkWhere (Some shop) None None None None None None None None)).
Proof.
  cbv zeta. unfold updateStatus.
  set (d := status_data status assigned delivered).
  destruct (LookupFacts.update_fixed db i d) as (rows & Hp & _ & Hf & Hshop & Huser).
  assert (Hgen : forall (K : Type) (key : Order -> K) (p : K -> bool),
            map key rows = map key (order_table db) ->
            Permutation
              (map fixed_part
                 (filter (fun x => p (key x)) (order_table (fst (update db i d)))))
              (map fixed_part (filter (fun x => p (key x)) (order_table db)))).
  { intros K key p Hkey.
    apply perm_trans with (map fixed_part (filter (fun x => p (key x)) rows)).
    - now apply Permutation_map, UpdateFacts.filter_perm.
    - clear Hp Hshop Huser. revert Hf Hkey. generalize (order_table db) as l.
      induction rows as [|y rows IH]; intros [|z l]; cbn [map filter];
        try discriminate; [constructor|].
      intros H1 H2.
      assert (Hy : fixed_part y = fixed_part z) by congruence.
      assert (Hf : map fixed_part rows = map fixed_part l) by congruence.
      assert (Hk : key y = key z) by congruence.
      assert (Hkey : map key rows = map key l) by congruence.
      rewrite Hk.
      destruct (p (key z)); cbn [map]; [rewrite Hy; apply perm_skip|]; now apply IH. }
  assert (Hs : Permutation
                 (map fixed_part (getOrdersByShopId (fst (update db i d)) shop))
                 (map fixed_part (getOrdersByShopId db shop))).
  { unfold getOrdersByShopId, findManyWhere.
    rewrite (filter_ext _ _ (LookupFacts.matches_shop _ shop)).
    rewrite (filter_ext _ _ (LookupFacts.matches_shop db shop)).
    exact (Hgen string shop_id (fun s => String.eqb s shop) Hshop). }
  split; [exact Hs|]. split.
  - unfold getOrdersByUserId, findManyWhere.
    exact (Hgen string user_id (fun s => String.eqb s user) Huser).
  - unfold count. change (refusal _) with (@None Error). cbv iota.
    do 2 f_equal. apply Permutation_length in Hs.
    now rewrite !length_map in Hs.
Qed.

(** ** The cursor of the path without search term *)

Module NativeCursorFacts.

Lemma sorted_skipn {A : Type} (R : A -> A -> Prop) (n : nat) (l : list A) :
  StronglySorted R l -> StronglySorted R (skipn n l).
Proof.
  intros H. revert n. induction H as [|x l Hs IH Hx]; intros [|n]; cbn [skipn];
    try constructor; auto.
Qed.

(** The rows fetched are newest first and, with unique ids, hold no order
    twice; all are rows of the table. *)
Lemma fetched_rows_sorted (db : Db) (o : GetPaginatedOrdersOptions) :
  StronglySorted newer_first (fetched_rows db o)
  /\ (NoDup (map id (order_table db)) -> NoDup (map id (fetched_rows db o)))
  /\ forall x, In x (fetched_rows db o) -> In x (order_table db).
Proof.
  unfold fetched_rows. set (candidates := sort _ _).
  assert (Hs : StronglySorted newer_first candidates)
    by apply PrismaFacts.sort_newer_first.
  assert (Hstart : exists k,
            match opt_cursor o with
            | Some (String c r) => skipn 1 (from_cursor (String c r) candidates)
            | _ => candidates
            end = skipn k candidates).
  { destruct (opt_cursor o) as [[|c r]|]; try (now exists 0%nat).
    destruct (RowFacts.from_cursor_suffix (String c r) candidates) as [k ->].
    rewrite skipn_skipn. now eexists. }
  destruct Hstart as [k ->]. split; [|split].
  - now apply SearchOrderFacts.sorted_firstn, sorted_skipn.
  - intros Hnd. apply RowFacts.NoDup_ids_firstn, RowFacts.NoDup_ids_skipn.
    apply RowFacts.NoDup_ids_sort. now apply SearchOrderFacts.NoDup_ids_filter.
  - intros x Hx. apply SearchOrderFacts.firstn_In, RowFacts.In_skipn in Hx.
    apply (Permutation_in x (PrismaFacts.sort_perm _ _)) in Hx.
    now apply filter_In in Hx.
Qed.

(** The row at index [n] of a list without repeated ids is not among the
    [n] rows before it. *)
Lemma nth_not_in_prefix (n : nat) (l : list Order) (x : Order) :
  NoDup (map id l) -> nth_error l n = Some x -> ~ In x (firstn n l).
Proof.
  revert l. induction n as [|n IH]; intros [|y l]; cbn [nth_error firstn map];
    try discriminate; auto.
  intros Hnd Hx. apply NoDup_cons_iff in Hnd as [Hy Hnd].
  intros [->|Hin].
  - apply Hy. apply in_map. now apply nth_error_In in Hx.
  - now apply (IH l).
Qed.

Lemma nth_after_prefix {A : Type} (R : A -> A -> Prop) (n : nat) (l : list A)
  (x y : A) :
  StronglySorted R l -> nth_error l n = Some x -> In y (firstn n l) -> R y x.
Proof.
  intros Hs Hx Hy. rewrite <- (firstn_skipn n l) in Hs.
  apply (PageFacts.sorted_app R _ _ Hs); [exact Hy|].
  assert (Hlen : List.length (firstn n l) = n).
  { apply firstn_length_le. apply Nat.lt_le_incl, nth_error_Some. congruence. }
  rewrite <- (firstn_skipn n l) in Hx.
  rewrite nth_error_app2 in Hx by lia. rewrite Hlen, Nat.sub_diag in Hx.
  now apply nth_error_In in Hx.
Qed.

End NativeCursorFacts.

(** X24.  Without a search term, a page that carries a cursor is full, and
    its cursor is the plain id of a row of the table that is not on the page
    and is no newer than any order on it (ids being unique, dates valid). *)
Theorem native_cursor_names_row_after_page (db : Db)
  (o : GetPaginatedOrdersOptions) (page : Page) (c : string) :
  truthy (opt_searchTerm o) = false ->
  valid_dates (opt_dateRange o) = true ->
  NoDup (map id (order_table db)) ->
  getPaginatedShopOrders db o = Ok page ->
  nextCursor page = Some c ->
  List.length (orders page) = limit_of o
  /\ exists x,
       In x (order_table db) /\ id x = c /\ ~ In x (orders page)
       /\ forall y, In y (orders page) -> created_at x <= created_at y.
Proof.
  intros Hterm Hdates Hnd Hpage Hc.
  destruct (refusal (build_where (opt_shop_id o) (opt_orderStatus o)
                       (opt_dateRange o) None)) as [e|] eqn:Hr.
  { rewrite (ListingFacts.FromDB_refused db o e Hterm Hr) in Hpage. discriminate. }
  rewrite (ListingFacts.FromDB_exact db o Hterm Hr) in Hpage.
  injection Hpage as <-. cbn [orders nextCursor] in *.
  destruct (NativeCursorFacts.fetched_rows_sorted db o) as (Hs & Hn & Hin).
  destruct (limit_of o <? List.length (fetched_rows db o))%nat eqn:E;
    [|discriminate].
  apply Nat.ltb_lt in E.
  destruct (nth_error (fetched_rows db o) (limit_of o)) as [x|] eqn:Ex;
    [|discriminate].
  injection Hc as <-. split.
  - rewrite length_firstn. lia.
  - exists x. split; [apply Hin; now apply nth_error_In in Ex|].
    split; [reflexivity|]. split.
    + apply NativeCursorFacts.nth_not_in_prefix; auto.
    + intros y Hy.
      apply (NativeCursorFacts.nth_after_prefix newer_first _ _ x y Hs Ex Hy).
Qed.

Lemma native_cursor_names_row_after_page_witness :
  exists x,
    In x (order_table Fixtures.example_db) /\ id x = "9"
    /\ ~ In x [Fixtures.A; Fixtures.B].
Proof.
  destruct (native_cursor_names_row_after_page Fixtures.example_db
              (Fixtures.request (Some 2%nat) None None)
              {| orders := [Fixtures.A; Fixtures.B]; nextCursor := Some "9" |} "9")
    as (_ & x & H1 & H2 & H3 & _).
  - reflexivity.
  - reflexivity.
  - simpl; repeat (constructor; [simpl; intuition discriminate|]); constructor.
  - vm_compute. reflexivity.
  - reflexivity.
  - exists x. repeat split; assumption.
Defined.

Lemma search_ignores_undecodable_cursor_witness :
  getPaginatedShopOrders Fixtures.stationery_db
    (with_cursor (Fixtures.request (Some 1%nat) None (Some "tea"))
       (Some "not-a-cursor"))
  = getPaginatedShopOrders Fixtures.stationery_db
      (with_cursor (Fixtures.request (Some 1%nat) None (Some "tea")) None).
Proof.
  apply (search_ignores_undecodable_cursor Fixtures.stationery_db
           (Fixtures.request (Some 1%nat) None (Some "tea")) "not-a-cursor").
  - reflexivity.
  - vm_compute. reflexivity.
Defined.
